(** * organizer3: the pack processing core

    A shallow embedding of [core/metadata.py], [core/watermark.py],
    [core/processor.py] and [core/auto_mosaic.py], and the properties of the
    pack pipeline stated over it.

    Conventions.
    - A Python [str] is a Rocq [string] holding its UTF-8 encoding, so that
      [len(s.encode('utf-8'))] is [String.length s].
    - A Python [int] is a [Z]; [//] is [Z.div] (both round towards minus
      infinity for a positive divisor).
    - A [dict] is an association list in insertion order, which is the order
      [values()], [items()] and [json.dumps] follow.
    - A function that may raise returns a [result]; a function with effects
      on the file system or on the callbacks threads a [world]. *)

From Stdlib Require Import Decimal DecimalFacts DecimalPos DecimalString DecimalZ.
From Stdlib Require Import Floats Uint63.
From Stdlib Require Import String Ascii List ZArith NArith Bool Lia.
Import ListNotations.
Open Scope string_scope.

(* ================================================================== *)
(** * Python values and the library functions the core calls          *)
(* ================================================================== *)

Module Py.

(** ** Exceptions *)

Inductive exn : Type :=
| AttributeError (msg : string)
| TypeError (msg : string)
| ValueError (msg : string)
| JSONDecodeError (msg : string)        (* a ValueError *)
| UnicodeDecodeError (msg : string)     (* a ValueError *)
| OSError (msg : string)                (* FileNotFoundError, IsADirectoryError, ... *)
| UnidentifiedImageError (msg : string) (* an OSError *)
| TimeoutExpired (msg : string)
| ZeroDivisionError (msg : string)
| MetadataError (msg : string)
| WatermarkError (msg : string).

(** [str(e)] *)
Definition str_exn (e : exn) : string :=
  match e with
  | AttributeError m | TypeError m | ValueError m | JSONDecodeError m
  | UnicodeDecodeError m | OSError m | UnidentifiedImageError m
  | TimeoutExpired m | ZeroDivisionError m | MetadataError m | WatermarkError m => m
  end.

(** [isinstance(e, ValueError)] *)
Definition is_ValueError (e : exn) : bool :=
  match e with
  | ValueError _ | JSONDecodeError _ | UnicodeDecodeError _ => true
  | _ => false
  end.

Inductive result (A : Type) : Type :=
| Ok (a : A)
| Raise (e : exn).
Arguments Ok {A} a.
Arguments Raise {A} e.

(** ** Strings *)

Definition byte (a : ascii) : N := N_of_ascii a.

Definition rev_string (s : string) : string :=
  string_of_list_ascii (rev (list_ascii_of_string s)).

(** [sep.join(l)] *)
Fixpoint join (sep : string) (l : list string) : string :=
  match l with
  | [] => ""
  | [x] => x
  | x :: r => x ++ sep ++ join sep r
  end.

(** [s.replace(a, b)] for one-character [a] and [b] *)
Fixpoint replace_char (a b : ascii) (s : string) : string :=
  match s with
  | EmptyString => EmptyString
  | String c r => String (if Ascii.eqb c a then b else c) (replace_char a b r)
  end.

(** [s.lower()] on the ASCII letters (the comparisons of the core are with
    ASCII literals none of whose letters is the lower case of a character
    outside ASCII). *)
Definition lower_ascii (c : ascii) : ascii :=
  if ((65 <=? byte c) && (byte c <=? 90))%N then ascii_of_N (byte c + 32) else c.

Fixpoint lower (s : string) : string :=
  match s with
  | EmptyString => EmptyString
  | String c r => String (lower_ascii c) (lower r)
  end.

(** [s.upper()], likewise *)
Definition upper_ascii (c : ascii) : ascii :=
  if ((97 <=? byte c) && (byte c <=? 122))%N then ascii_of_N (byte c - 32) else c.

Fixpoint upper (s : string) : string :=
  match s with
  | EmptyString => EmptyString
  | String c r => String (upper_ascii c) (upper r)
  end.

(** [s.startswith(p)] *)
Definition startswith (s p : string) : bool := String.prefix p s.

(** [s.startswith((p1, ..., pn))] *)
Definition startswith_any (s : string) (ps : list string) : bool :=
  existsb (startswith s) ps.

(** [s.endswith(p)] *)
Definition endswith (s p : string) : bool :=
  String.prefix (rev_string p) (rev_string s).

(** The characters [str.strip()] removes: those for which [str.isspace]
    holds.  One byte: U+0009..U+000D, U+001C..U+001F, U+0020. *)
Definition space1 (a : ascii) : bool :=
  let n := byte a in
  (((9 <=? n) && (n <=? 13)) || ((28 <=? n) && (n <=? 31)) || (n =? 32))%N.

(** Two bytes: U+0085 (C2 85) and U+00A0 (C2 A0). *)
Definition space2 (a b : ascii) : bool :=
  ((byte a =? 194) && ((byte b =? 133) || (byte b =? 160)))%N.

(** Three bytes: U+1680 (E1 9A 80), U+2000..U+200A (E2 80 80..8A),
    U+2028, U+2029, U+202F (E2 80 A8, A9, AF), U+205F (E2 81 9F) and
    U+3000 (E3 80 80). *)
Definition space3 (a b c : ascii) : bool :=
  let x := byte a in let y := byte b in let z := byte c in
  (((x =? 225) && (y =? 154) && (z =? 128))
   || ((x =? 226) && (y =? 128)
       && (((128 <=? z) && (z <=? 138)) || (z =? 168) || (z =? 169) || (z =? 175)))
   || ((x =? 226) && (y =? 129) && (z =? 159))
   || ((x =? 227) && (y =? 128) && (z =? 128)))%N.

(** Removes the white space at the front.  With [back] the string is read
    backwards, so the bytes of a character arrive last byte first. *)
Fixpoint strip_front (back : bool) (s : string) : string :=
  match s with
  | EmptyString => s
  | String a r =>
      if space1 a then strip_front back r
      else
        match r with
        | EmptyString => s
        | String b r2 =>
            if (if back then space2 b a else space2 a b) then strip_front back r2
            else
              match r2 with
              | EmptyString => s
              | String c r3 =>
                  if (if back then space3 c b a else space3 a b c)
                  then strip_front back r3
                  else s
              end
        end
  end.

Definition lstrip (s : string) : string := strip_front false s.
Definition rstrip (s : string) : string :=
  rev_string (strip_front true (rev_string s)).

(** [s.strip()] *)
Definition strip (s : string) : string := rstrip (lstrip s).

(** [x in l] for a list of strings *)
Definition mem (x : string) (l : list string) : bool :=
  existsb (String.eqb x) l.

(** ** JSON-compatible values

    What [json.loads] returns and [json.dumps] accepts.  A [float] is kept
    as its literal: the core never computes with one. *)

Unset Elimination Schemes.
Inductive pyval : Type :=
| PyNone
| PyBool (b : bool)
| PyInt (z : Z)
| PyFloat (lit : string)
| PyStr (s : string)
| PyList (l : list pyval)
| PyDict (d : list (string * pyval)).
Set Elimination Schemes.

Definition dict : Type := list (string * pyval).

(** [type(v).__name__] *)
Definition type_name (v : pyval) : string :=
  match v with
  | PyNone => "NoneType"
  | PyBool _ => "bool"
  | PyInt _ => "int"
  | PyFloat _ => "float"
  | PyStr _ => "str"
  | PyList _ => "list"
  | PyDict _ => "dict"
  end.

(** A float literal denotes zero when its mantissa has no digit but 0
    ([NaN] and the infinities are not zero). *)
Fixpoint mantissa_is_zero (s : string) : bool :=
  match s with
  | EmptyString => true
  | String c r =>
      if (Ascii.eqb c "e" || Ascii.eqb c "E")%char then true
      else if (Ascii.eqb c "N" || Ascii.eqb c "I")%char then false
      else if ((49 <=? byte c) && (byte c <=? 57))%N then false
      else mantissa_is_zero r
  end.

(** [bool(v)]: the truth value [if v:] and [not v] test *)
Definition truthy (v : pyval) : bool :=
  match v with
  | PyNone => false
  | PyBool b => b
  | PyInt z => negb (z =? 0)%Z
  | PyFloat lit => negb (mantissa_is_zero lit)
  | PyStr s => negb (s =? "")
  | PyList l => match l with [] => false | _ => true end
  | PyDict d => match d with [] => false | _ => true end
  end.

(** [d[k]] when present *)
Fixpoint lookup {A : Type} (d : list (string * A)) (k : string) : option A :=
  match d with
  | [] => None
  | (k', v) :: r => if k' =? k then Some v else lookup r k
  end.

(** [d.get(k, default)] *)
Definition dict_get {A : Type} (d : list (string * A)) (k : string) (default : A) : A :=
  match lookup d k with
  | Some v => v
  | None => default
  end.

(** [d.values()] *)
Definition values {A : Type} (d : list (string * A)) : list A := map snd d.

(** [d[k] = v]: a present key keeps its place, a new one goes last *)
Fixpoint setitem {A : Type} (d : list (string * A)) (k : string) (v : A) : list (string * A) :=
  match d with
  | [] => [(k, v)]
  | (k', v') :: r => if k' =? k then (k, v) :: r else (k', v') :: setitem r k v
  end.

(** [v.get(k, default)] on a value that may not be a dict *)
Definition getattr_get (v : pyval) (k : string) (default : pyval) : result pyval :=
  match v with
  | PyDict d => Ok (dict_get d k default)
  | _ => Raise (AttributeError ("'" ++ type_name v ++ "' object has no attribute 'get'"))
  end.

(** [v.replace(a, b)] on a value that may not be a str *)
Definition getattr_replace (v : pyval) (a b : ascii) : result string :=
  match v with
  | PyStr s => Ok (replace_char a b s)
  | _ => Raise (AttributeError ("'" ++ type_name v ++ "' object has no attribute 'replace'"))
  end.



(** ** [json.dumps(v, ensure_ascii=False, separators=(',', ':'))] *)

Definition dquote : ascii := ascii_of_N 34.
Definition backslash : ascii := ascii_of_N 92.
Definition char (c : ascii) : string := String c EmptyString.

(** [str(z)] *)
Definition str_int (z : Z) : string := NilZero.string_of_int (Z.to_int z).

(** [str(n)] for a length or a count *)
Definition str_nat (n : nat) : string := str_int (Z.of_nat n).

Definition hex_digit (n : N) : ascii :=
  if (n <? 10)%N then ascii_of_N (48 + n) else ascii_of_N (87 + n).

(** [ESCAPE_DCT]: the seven short escapes, [\u00XX] for the other
    characters below U+0020, and nothing else is escaped. *)
Definition escape_char (c : ascii) : string :=
  let n := byte c in
  if (n =? 92)%N then String backslash (char backslash)
  else if (n =? 34)%N then String backslash (char dquote)
  else if (n =? 8)%N then String backslash "b"
  else if (n =? 12)%N then String backslash "f"
  else if (n =? 10)%N then String backslash "n"
  else if (n =? 13)%N then String backslash "r"
  else if (n =? 9)%N then String backslash "t"
  else if (n <? 32)%N then
    String backslash ("u00" ++ String (hex_digit (n / 16)) (char (hex_digit (n mod 16))))
  else char c.

Fixpoint escape (s : string) : string :=
  match s with
  | EmptyString => EmptyString
  | String c r => escape_char c ++ escape r
  end.

(** [encode_basestring] *)
Definition encode_basestring (s : string) : string :=
  String dquote (escape s ++ char dquote).

Fixpoint dumps (v : pyval) : string :=
  match v with
  | PyNone => "null"
  | PyBool true => "true"
  | PyBool false => "false"
  | PyInt z => str_int z
  | PyFloat lit => lit
  | PyStr s => encode_basestring s
  | PyList [] => "[]"
  | PyList (x :: r) =>
      "[" ++ dumps x ++
      (fix items (l : list pyval) : string :=
         match l with
         | [] => "]"
         | y :: l' => "," ++ dumps y ++ items l'
         end) r
  | PyDict [] => "{}"
  | PyDict ((k, x) :: r) =>
      "{" ++ encode_basestring k ++ ":" ++ dumps x ++
      (fix items (l : list (string * pyval)) : string :=
         match l with
         | [] => "}"
         | (k', y) :: l' => "," ++ encode_basestring k' ++ ":" ++ dumps y ++ items l'
         end) r
  end.

(** ** [json.loads(s)] for a [str]

    The decoder of CPython: white space is [ \t\n\r]; a string is scanned in
    strict mode; [NaN], [Infinity] and [-Infinity] are accepted.  A failure
    carries the message and the input left at the position the error
    reports.  The interpreter's recursion limit is not modelled. *)

Definition scan_result (A : Type) : Type := (string * string) + (A * string).

Definition is_ws (c : ascii) : bool :=
  let n := byte c in ((n =? 32) || (n =? 9) || (n =? 10) || (n =? 13))%N.

Fixpoint skip_ws (s : string) : string :=
  match s with
  | String c r => if is_ws c then skip_ws r else s
  | EmptyString => s
  end.

Definition is_digit (c : ascii) : bool :=
  ((48 <=? byte c) && (byte c <=? 57))%N.

Definition hex_val (c : ascii) : option N :=
  let n := byte c in
  if ((48 <=? n) && (n <=? 57))%N then Some (n - 48)%N
  else if ((97 <=? n) && (n <=? 102))%N then Some (n - 87)%N
  else if ((65 <=? n) && (n <=? 70))%N then Some (n - 55)%N
  else None.

(** Four hexadecimal digits and what follows them. *)
Definition hex4 (s : string) : option (N * string) :=
  match s with
  | String a (String b (String c (String d r))) =>
      match hex_val a, hex_val b, hex_val c, hex_val d with
      | Some x, Some y, Some z, Some w => Some (((x * 16 + y) * 16 + z) * 16 + w, r)%N
      | _, _, _, _ => None
      end
  | _ => None
  end.

(** [chr(n)], as UTF-8 (a lone surrogate takes the three bytes of its
    code point). *)
Definition chr (n : N) : string :=
  (if n <? 128 then char (ascii_of_N n)
   else if n <? 2048 then
     String (ascii_of_N (192 + n / 64)) (char (ascii_of_N (128 + n mod 64)))
   else if n <? 65536 then
     String (ascii_of_N (224 + n / 4096))
       (String (ascii_of_N (128 + (n / 64) mod 64)) (char (ascii_of_N (128 + n mod 64))))
   else
     String (ascii_of_N (240 + n / 262144))
       (String (ascii_of_N (128 + (n / 4096) mod 64))
          (String (ascii_of_N (128 + (n / 64) mod 64)) (char (ascii_of_N (128 + n mod 64))))))%N.

(** [BACKSLASH] *)
Definition unescape (e : ascii) : option ascii :=
  let n := byte e in
  if (n =? 34)%N then Some dquote
  else if (n =? 92)%N then Some backslash
  else if (n =? 47)%N then Some "/"%char
  else if (n =? 98)%N then Some (ascii_of_N 8)
  else if (n =? 102)%N then Some (ascii_of_N 12)
  else if (n =? 110)%N then Some (ascii_of_N 10)
  else if (n =? 114)%N then Some (ascii_of_N 13)
  else if (n =? 116)%N then Some (ascii_of_N 9)
  else None.

(** [scanstring]: [s] starts after the opening quote, [begin] at it.  A
    [\u] escape needs its four digits and one more character after them; a
    high surrogate is joined with a low one that follows it. *)
Fixpoint scanstring (fuel : nat) (begin s : string) : scan_result string :=
  match fuel with
  | O => inl ("Unterminated string starting at", begin)
  | S fuel =>
      let continue (piece rest : string) : scan_result string :=
        match scanstring fuel begin rest with
        | inl err => inl err
        | inr (t, rest') => inr (piece ++ t, rest')
        end in
      match s with
      | EmptyString => inl ("Unterminated string starting at", begin)
      | String c r =>
          if (byte c =? 34)%N then inr (EmptyString, r)
          else if (byte c =? 92)%N then
            match r with
            | EmptyString => inl ("Unterminated string starting at", begin)
            | String e r2 =>
                if (byte e =? 117)%N then
                  match hex4 r2 with
                  | None => inl ("Invalid \uXXXX escape", r)
                  | Some (uni, r6) =>
                      if r6 =? "" then inl ("Invalid \uXXXX escape", r)
                      else if ((55296 <=? uni) && (uni <=? 56319))%N
                              && (6 <? String.length r6)%nat
                      then
                        match r6 with
                        | String b1 (String u1 r8) =>
                            if ((byte b1 =? 92) && (byte u1 =? 117))%N then
                              match hex4 r8 with
                              | None => inl ("Invalid \uXXXX escape", String u1 r8)
                              | Some (uni2, r12) =>
                                  if ((56320 <=? uni2) && (uni2 <=? 57343))%N
                                  then continue
                                         (chr (65536 + ((uni - 55296) * 1024 + (uni2 - 56320))))
                                         r12
                                  else continue (chr uni) r6
                              end
                            else continue (chr uni) r6
                        | _ => continue (chr uni) r6
                        end
                      else continue (chr uni) r6
                  end
                else
                  match unescape e with
                  | None => inl ("Invalid \escape", s)
                  | Some ch => continue (char ch) r2
                  end
            end
          else if (byte c <? 32)%N then inl ("Invalid control character at", s)
          else continue (char c) r
      end
  end.

(** The longest run of digits at the front, and the rest. *)
Fixpoint span_digits (s : string) : string * string :=
  match s with
  | String c r =>
      if is_digit c then let (ds, rest) := span_digits r in (String c ds, rest)
      else (EmptyString, s)
  | EmptyString => (EmptyString, s)
  end.

(** [NUMBER_RE]: an optional minus sign and either 0 or a digit 1-9 with
    any digits after it; then, optionally, a dot with at least one digit;
    then, optionally, e or E, an optional sign and at least one digit.
    Gives the integer part, the fraction, the exponent and the rest. *)
Definition match_number (s : string) : option (string * string * string * string) :=
  let (sign, s1) :=
    match s with
    | String c r => if (byte c =? 45)%N then ("-", r) else ("", s)
    | EmptyString => ("", s)
    end in
  let integer :=
    match s1 with
    | String c r =>
        if (byte c =? 48)%N then Some ("0", r)
        else if is_digit c then Some (span_digits s1)
        else None
    | EmptyString => None
    end in
  match integer with
  | None => None
  | Some (ds, s2) =>
      let (frac, s3) :=
        match s2 with
        | String c r =>
            if (byte c =? 46)%N then
              let (fs, rest) := span_digits r in
              if fs =? "" then ("", s2) else ("." ++ fs, rest)
            else ("", s2)
        | EmptyString => ("", s2)
        end in
      let (exp, s4) :=
        match s3 with
        | String c r =>
            if ((byte c =? 101) || (byte c =? 69))%N then
              let (sg, r') :=
                match r with
                | String g r1 =>
                    if ((byte g =? 45) || (byte g =? 43))%N then (char g, r1) else ("", r)
                | EmptyString => ("", r)
                end in
              let (es, rest) := span_digits r' in
              if es =? "" then ("", s3) else (char c ++ sg ++ es, rest)
            else ("", s3)
        | EmptyString => ("", s3)
        end in
      Some (sign ++ ds, frac, exp, s4)
  end.

(** [int(s)] for a match of the integer part *)
Definition parse_int (integer : string) : Z :=
  let (neg, ds) :=
    match integer with
    | String c r => if (byte c =? 45)%N then (true, r) else (false, integer)
    | EmptyString => (false, integer)
    end in
  match NilEmpty.uint_of_string ds with
  | Some d => Z.of_int (if neg then Decimal.Neg d else Decimal.Pos d)
  | None => 0%Z
  end.

(** The loop of [JSONArray], entered at the first value. *)
Fixpoint array_items (scan_once : string -> scan_result pyval) (fuel : nat) (s : string)
  : scan_result (list pyval) :=
  match fuel with
  | O => inl ("Expecting value", s)
  | S fuel =>
      match scan_once s with
      | inl err => inl err
      | inr (value, s1) =>
          let s2 := skip_ws s1 in
          match s2 with
          | String c r =>
              if (byte c =? 93)%N then inr ([value], r)
              else if (byte c =? 44)%N then
                match array_items scan_once fuel (skip_ws r) with
                | inl err => inl err
                | inr (values, rest) => inr (value :: values, rest)
                end
              else inl ("Expecting ',' delimiter", s2)
          | EmptyString => inl ("Expecting ',' delimiter", s2)
          end
      end
  end.

(** [JSONArray]: [s] starts after the bracket. *)
Definition JSONArray (scan_once : string -> scan_result pyval) (s : string)
  : scan_result pyval :=
  let s1 := skip_ws s in
  let items :=
    match array_items scan_once (S (String.length s1)) s1 with
    | inl err => inl err
    | inr (values, rest) => inr (PyList values, rest)
    end in
  match s1 with
  | String c r => if (byte c =? 93)%N then inr (PyList [], r) else items
  | EmptyString => items
  end.

(** The loop of [JSONObject], entered after the quote that opens a key. *)
Fixpoint object_items (scan_once : string -> scan_result pyval) (fuel : nat)
  (begin s : string) : scan_result (list (string * pyval)) :=
  match fuel with
  | O => inl ("Expecting value", s)
  | S fuel =>
      match scanstring (String.length s) begin s with
      | inl err => inl err
      | inr (key, s1) =>
          let s2 := skip_ws s1 in
          match s2 with
          | String c r =>
              if (byte c =? 58)%N then
                match scan_once (skip_ws r) with
                | inl err => inl err
                | inr (value, s3) =>
                    let s4 := skip_ws s3 in
                    match s4 with
                    | String c' r' =>
                        if (byte c' =? 125)%N then inr ([(key, value)], r')
                        else if (byte c' =? 44)%N then
                          let s5 := skip_ws r' in
                          match s5 with
                          | String q r5 =>
                              if (byte q =? 34)%N then
                                match object_items scan_once fuel s5 r5 with
                                | inl err => inl err
                                | inr (pairs, rest) => inr ((key, value) :: pairs, rest)
                                end
                              else inl ("Expecting property name enclosed in double quotes", s5)
                          | EmptyString =>
                              inl ("Expecting property name enclosed in double quotes", s5)
                          end
                        else inl ("Expecting ',' delimiter", s4)
                    | EmptyString => inl ("Expecting ',' delimiter", s4)
                    end
                end
              else inl ("Expecting ':' delimiter", s2)
          | EmptyString => inl ("Expecting ':' delimiter", s2)
          end
      end
  end.

(** [dict(pairs)] *)
Definition dict_of_pairs (pairs : list (string * pyval)) : dict :=
  fold_left (fun d kv => setitem d (fst kv) (snd kv)) pairs [].

(** [JSONObject]: [s] starts after the brace. *)
Definition JSONObject (scan_once : string -> scan_result pyval) (s : string)
  : scan_result pyval :=
  let s1 := skip_ws s in
  match s1 with
  | String c r =>
      if (byte c =? 34)%N then
        match object_items scan_once (S (String.length s1)) s1 r with
        | inl err => inl err
        | inr (pairs, rest) => inr (PyDict (dict_of_pairs pairs), rest)
        end
      else if (byte c =? 125)%N then inr (PyDict [], r)
      else inl ("Expecting property name enclosed in double quotes", s1)
  | EmptyString => inl ("Expecting property name enclosed in double quotes", s1)
  end.

(** [_scan_once]; [fuel] bounds the nesting. *)
Fixpoint scan_once (fuel : nat) (s : string) : scan_result pyval :=
  match fuel with
  | O => inl ("Expecting value", s)
  | S fuel =>
      match s with
      | EmptyString => inl ("Expecting value", s)
      | String c r =>
          if (byte c =? 34)%N then
            match scanstring (String.length r) s r with
            | inl err => inl err
            | inr (t, rest) => inr (PyStr t, rest)
            end
          else if (byte c =? 123)%N then JSONObject (scan_once fuel) r
          else if (byte c =? 91)%N then JSONArray (scan_once fuel) r
          else if String.prefix "null" s then inr (PyNone, substring 4 (String.length s - 4) s)
          else if String.prefix "true" s then inr (PyBool true, substring 4 (String.length s - 4) s)
          else if String.prefix "false" s then inr (PyBool false, substring 5 (String.length s - 5) s)
          else
            match match_number s with
            | Some (integer, frac, exp, rest) =>
                if (frac =? "") && (exp =? "") then inr (PyInt (parse_int integer), rest)
                else inr (PyFloat (integer ++ frac ++ exp), rest)
            | None =>
                if String.prefix "NaN" s then inr (PyFloat "NaN", substring 3 (String.length s - 3) s)
                else if String.prefix "Infinity" s
                then inr (PyFloat "Infinity", substring 8 (String.length s - 8) s)
                else if String.prefix "-Infinity" s
                then inr (PyFloat "-Infinity", substring 9 (String.length s - 9) s)
                else inl ("Expecting value", s)
            end
      end
  end.

(** The number of characters of a UTF-8 string: its bytes that do not
    continue a character. *)
Fixpoint char_count (s : string) : nat :=
  match s with
  | EmptyString => 0
  | String c r =>
      (if ((128 <=? byte c) && (byte c <=? 191))%N then 0 else 1) + char_count r
  end.

(** The characters after the last newline of [s]. *)
Fixpoint last_line (s : string) : string :=
  match s with
  | EmptyString => EmptyString
  | String c r =>
      if existsb (fun x => (byte x =? 10)%N) (list_ascii_of_string r) then last_line r
      else if (byte c =? 10)%N then r else s
  end.

Definition count_newlines (s : string) : nat :=
  List.length (filter (fun x => (byte x =? 10)%N) (list_ascii_of_string s)).

(** [JSONDecodeError(msg, doc, pos)], with [pos] where [rest] begins *)
Definition decode_error (msg doc rest : string) : exn :=
  let before := substring 0 (String.length doc - String.length rest) doc in
  JSONDecodeError
    (msg ++ ": line " ++ str_nat (count_newlines before + 1)
         ++ " column " ++ str_nat (char_count (last_line before) + 1)
         ++ " (char " ++ str_nat (char_count before) ++ ")").

(** U+FEFF *)
Definition BOM : string :=
  String (ascii_of_N 239) (String (ascii_of_N 187) (char (ascii_of_N 191))).

Definition loads (s : string) : result pyval :=
  if startswith s BOM
  then Raise (decode_error "Unexpected UTF-8 BOM (decode using utf-8-sig)" s s)
  else
    match scan_once (S (String.length s)) (skip_ws s) with
    | inl (msg, rest) => Raise (decode_error msg s rest)
    | inr (obj, rest) =>
        let rest' := skip_ws rest in
        if rest' =? "" then Ok obj else Raise (decode_error "Extra data" s rest')
    end.

(** [bytes.decode('utf-8')] succeeds on well-formed UTF-8 only. *)
Definition in_range (lo hi : N) (c : ascii) : bool :=
  ((lo <=? byte c) && (byte c <=? hi))%N.

Fixpoint valid_utf8 (s : string) : bool :=
  match s with
  | EmptyString => true
  | String a r =>
      if (byte a <? 128)%N then valid_utf8 r
      else
        match r with
        | EmptyString => false
        | String b r2 =>
            if in_range 194 223 a then in_range 128 191 b && valid_utf8 r2
            else
              match r2 with
              | EmptyString => false
              | String c r3 =>
                  if in_range 224 239 a then
                    (if (byte a =? 224)%N then in_range 160 191 b
                     else if (byte a =? 237)%N then in_range 128 159 b
                     else in_range 128 191 b)
                    && in_range 128 191 c && valid_utf8 r3
                  else
                    match r3 with
                    | EmptyString => false
                    | String d r4 =>
                        in_range 240 244 a
                        && (if (byte a =? 240)%N then in_range 144 191 b
                            else if (byte a =? 244)%N then in_range 128 143 b
                            else in_range 128 191 b)
                        && in_range 128 191 c && in_range 128 191 d && valid_utf8 r4
                    end
              end
        end
  end.

Definition decode_utf8 (b : string) : result string :=
  if valid_utf8 b then Ok b
  else Raise (UnicodeDecodeError "'utf-8' codec can't decode bytes").

End Py.
Import Py.


(* ================================================================== *)
(** * Pillow and piexif: what the core sees of an image                *)
(* ================================================================== *)

Module PIL.

(** The outcome of one way of looking for a value: the call raises, the
    value is not there, or it is found. *)
Inductive finding (A : Type) : Type :=
| Fails
| Absent
| Found (v : A).
Arguments Fails {A}.
Arguments Absent {A}.
Arguments Found {A} v.

(** What [piexif] holds for a tag: [bytes], or something else (given by
    its [str]). *)
Inductive exif_raw : Type :=
| Bytes (b : string)
| NotBytes (str_of : string).

(** The pixels of an image, as the operations that produced them. *)
Unset Elimination Schemes.
Inductive picture : Type :=
| Pixels (data : list Z)
| Convert (mode : string) (p : picture)
| New (mode : string) (size : Z * Z) (color : list Z)
| Paste (onto im : picture) (box : Z * Z) (mask : option picture)
| LastBand (p : picture)
| Resize (p : picture) (size : Z * Z)
| ScaleAlpha (p : picture) (opacity : float)
| PutAlpha (p alpha : picture)
| AlphaComposite (below above : picture)
| Encoded (format : string) (quality : option Z) (p : picture).
Set Elimination Schemes.

(** An open image.  The three descriptions are what the three lookups of
    EXIF tag 270 (ImageDescription) give on it:
    [piexif.load(img.info['exif'])['0th'][270]], [img.getexif()[270]] and
    [img._getexif()[270]]. *)
Record image : Type := {
  format : string;
  mode : string;
  size : Z * Z;
  pixels : picture;
  text : list (string * string);
  info_exif : bool;
  piexif_description : finding exif_raw;
  getexif_description : finding string;
  has__getexif : bool;
  legacy_description : finding string
}.

(** The [exif] argument of [save]: [b''], or
    [piexif.dump({"0th": {ImageDescription: b}})]. *)
Inductive exif_bytes : Type :=
| Empty
| Description (b : string).

(** [data.decode("latin-1")]: how Pillow reads an ASCII tag *)
Fixpoint latin1 (b : string) : string :=
  match b with
  | EmptyString => EmptyString
  | String c r => chr (byte c) ++ latin1 r
  end.

(** The modes each writer accepts; the WebP writer converts the others. *)
Definition writable (format mode : string) : bool :=
  if format =? "PNG" then
    mem mode ["1"; "L"; "LA"; "I"; "I;16"; "I;16B"; "P"; "RGB"; "RGBA"]
  else if format =? "JPEG" then
    mem mode ["1"; "L"; "RGB"; "RGBX"; "CMYK"; "YCbCr"]
  else if format =? "WEBP" then true
  else false.

(** The file [img.save(path, format, quality=.., exif=.., pnginfo=..)]
    writes, as it opens again.  Text chunks exist in a PNG only and are the
    [pnginfo] given; the EXIF block is the one given.  When none is given, a
    JPEG or WebP has none, and a PNG has that of [img], if it has one, or
    none according to the Pillow release ([keeps_exif]). *)
Definition saved (keeps_exif : bool) (img : image) (fmt : string)
  (quality : option Z) (exif : option exif_bytes) (pnginfo : list (string * string))
  : image :=
  let png := fmt =? "PNG" in
  let stored_mode :=
    if fmt =? "WEBP"
    then (if mem img.(mode) ["RGB"; "RGBA"; "RGBX"] then img.(mode)
          else if mem img.(mode) ["LA"; "PA"; "RGBa"; "La"] then "RGBA" else "RGB")
    else img.(mode) in
  let plain (b : bool) :=
    {| format := fmt; mode := stored_mode; size := img.(size);
       pixels := if png then img.(pixels) else Encoded fmt quality img.(pixels);
       text := if png then pnginfo else [];
       info_exif := b;
       piexif_description := Absent;
       getexif_description := Absent;
       has__getexif := true;
       legacy_description := Absent |} in
  match exif with
  | Some (Description b) =>
      {| format := fmt; mode := stored_mode; size := img.(size);
         pixels := if png then img.(pixels) else Encoded fmt quality img.(pixels);
         text := if png then pnginfo else [];
         info_exif := true;
         piexif_description := Found (Bytes b);
         getexif_description := Found (latin1 b);
         has__getexif := true;
         legacy_description := Found (latin1 b) |}
  | Some Empty => plain false
  | None =>
      if png && keeps_exif && img.(info_exif) then
        {| format := fmt; mode := stored_mode; size := img.(size);
           pixels := img.(pixels);
           text := pnginfo;
           info_exif := img.(info_exif);
           piexif_description := img.(piexif_description);
           getexif_description := img.(getexif_description);
           has__getexif := true;
           legacy_description := img.(legacy_description) |}
      else plain false
  end.

(** [img.convert(mode)] *)
Definition convert (img : image) (m : string) : image :=
  {| format := ""; mode := m; size := img.(size);
     pixels := Convert m img.(pixels); text := [];
     info_exif := img.(info_exif);
     piexif_description := img.(piexif_description);
     getexif_description := img.(getexif_description);
     has__getexif := false;
     legacy_description := Absent |}.

(** [Image.new(mode, size, color)] *)
Definition new (m : string) (sz : Z * Z) (color : list Z) : image :=
  {| format := ""; mode := m; size := sz; pixels := New m sz color; text := [];
     info_exif := false; piexif_description := Absent;
     getexif_description := Absent; has__getexif := false;
     legacy_description := Absent |}.

(** An image with the pixels replaced, for the operations on pixels. *)
Definition with_pixels (img : image) (p : picture) : image :=
  {| format := img.(format); mode := img.(mode); size := img.(size); pixels := p;
     text := img.(text); info_exif := img.(info_exif);
     piexif_description := img.(piexif_description);
     getexif_description := img.(getexif_description);
     has__getexif := img.(has__getexif);
     legacy_description := img.(legacy_description) |}.

End PIL.
Import PIL.

(* ================================================================== *)
(** * pathlib, os and shutil over a model of the file system           *)
(* ================================================================== *)

Module OS.

(** A path, as its components from the root. *)
Definition path : Type := list string.

(** [p.name] *)
Definition name (p : path) : string := last p "".
(** [p.parent] *)
Definition parent (p : path) : path := removelast p.
(** [p / child] *)
Definition div (p : path) (child : string) : path := (p ++ [child])%list.
(** [str(p)] *)
Definition str_path (p : path) : string := "/" ++ join "/" p.

Fixpoint path_eqb (p q : path) : bool :=
  match p, q with
  | [], [] => true
  | a :: p', b :: q' => (a =? b) && path_eqb p' q'
  | _, _ => false
  end.

(** The index of the last dot of a name. *)
Fixpoint rfind_dot (s : string) : option nat :=
  match s with
  | EmptyString => None
  | String c r =>
      match rfind_dot r with
      | Some i => Some (S i)
      | None => if (byte c =? 46)%N then Some O else None
      end
  end.

(** [p.suffix]: from the last dot of the name, unless that dot is the
    first or the last character. *)
Definition suffix (p : path) : string :=
  let n := name p in
  match rfind_dot n with
  | Some i =>
      if (0 <? i)%nat && (i <? String.length n - 1)%nat
      then substring i (String.length n - i) n
      else ""
  | None => ""
  end.

(** What a file holds: an image Pillow can open, or other data. *)
Inductive content : Type :=
| Picture (img : image)
| Data (bytes : string).

Inductive node : Type :=
| File (c : content)
| Dir.

(** The entries, in the order a directory lists them.  The root is a
    directory and has no entry of its own. *)
Definition filesystem : Type := list (path * node).

Fixpoint find (fs : filesystem) (p : path) : option node :=
  match fs with
  | [] => None
  | (q, n) :: r => if path_eqb q p then Some n else find r p
  end.

Definition stat (fs : filesystem) (p : path) : option node :=
  match p with
  | [] => Some Dir
  | _ => find fs p
  end.

(** [p.exists()] *)
Definition exists_ (fs : filesystem) (p : path) : bool :=
  match stat fs p with Some _ => true | None => false end.

(** [p.is_dir()] *)
Definition is_dir (fs : filesystem) (p : path) : bool :=
  match stat fs p with Some Dir => true | _ => false end.

(** [p.is_file()] *)
Definition is_file (fs : filesystem) (p : path) : bool :=
  match stat fs p with Some (File _) => true | _ => false end.

(** The entries directly inside [d]. *)
Definition children (fs : filesystem) (d : path) : list path :=
  map fst
    (filter (fun e => match fst e with
                      | [] => false
                      | _ => path_eqb (parent (fst e)) d
                      end) fs).

(** [p.iterdir()] *)
Definition iterdir (fs : filesystem) (d : path) : result (list path) :=
  match stat fs d with
  | Some Dir => Ok (children fs d)
  | Some (File _) => Raise (OSError ("Not a directory: '" ++ str_path d ++ "'"))
  | None => Raise (OSError ("No such file or directory: '" ++ str_path d ++ "'"))
  end.

(** What [p.glob(pattern)] returns: a generator, which computes nothing
    until it is iterated. *)
Inductive generator (A : Type) : Type :=
| Generator (yields : list A).
Arguments Generator {A} yields.

(** [list(g)], [l.extend(g)], [for x in g] *)
Definition iterate {A : Type} (g : generator A) : list A :=
  match g with Generator l => l end.

(** [bool(g)]: a generator object has neither [__bool__] nor [__len__], so
    it is true whatever it would yield. *)
Definition truth_of_generator {A : Type} (g : generator A) : bool := true.

(** [fnmatch] for the patterns of the core, a star and a literal end
    (letter case matters, as on POSIX). *)
Definition fnmatch (n pattern : string) : bool :=
  match pattern with
  | String c ending => if (byte c =? 42)%N then endswith n ending else n =? pattern
  | EmptyString => n =? pattern
  end.

(** [d.glob(pattern)]: the entries of [d] whose name matches; nothing when
    [d] is not a directory. *)
Definition glob (fs : filesystem) (d : path) (pattern : string) : generator path :=
  Generator
    (if is_dir fs d
     then filter (fun p => fnmatch (name p) pattern) (children fs d)
     else []).

(** Sets the entry for [p]: in place when there is one, last otherwise. *)
Fixpoint set_entry (fs : filesystem) (p : path) (n : node) : filesystem :=
  match fs with
  | [] => [(p, n)]
  | (q, m) :: r => if path_eqb q p then (p, n) :: r else (q, m) :: set_entry r p n
  end.

Definition remove_entry (fs : filesystem) (p : path) : filesystem :=
  filter (fun e => negb (path_eqb (fst e) p)) fs.

(** [open(p, 'wb').write(c)] *)
Definition write (fs : filesystem) (p : path) (c : content) : result filesystem :=
  match stat fs p with
  | Some Dir => Raise (OSError ("Is a directory: '" ++ str_path p ++ "'"))
  | _ =>
      match stat fs (parent p) with
      | Some Dir => Ok (set_entry fs p (File c))
      | Some (File _) => Raise (OSError ("Not a directory: '" ++ str_path p ++ "'"))
      | None => Raise (OSError ("No such file or directory: '" ++ str_path p ++ "'"))
      end
  end.

(** [p.mkdir(exist_ok=True)] *)
Definition mkdir (fs : filesystem) (p : path) : result filesystem :=
  match stat fs p with
  | Some Dir => Ok fs
  | Some (File _) => Raise (OSError ("File exists: '" ++ str_path p ++ "'"))
  | None =>
      match stat fs (parent p) with
      | Some Dir => Ok (set_entry fs p Dir)
      | Some (File _) => Raise (OSError ("Not a directory: '" ++ str_path p ++ "'"))
      | None => Raise (OSError ("No such file or directory: '" ++ str_path p ++ "'"))
      end
  end.

(** [p.mkdir(parents=True, exist_ok=True)]: [os.mkdir] is tried first; when
    it fails because the parent is missing, the parent is made the same way
    and [os.mkdir] is tried again.  [n] bounds the climb towards the root. *)
Fixpoint mkdir_climb (n : nat) (fs : filesystem) (p : path) : result filesystem :=
  match n with
  | O => mkdir fs p
  | S n =>
      match stat fs p, stat fs (parent p) with
      | None, None =>
          match mkdir_climb n fs (parent p) with
          | Ok fs' => mkdir fs' p
          | Raise e => Raise e
          end
      | _, _ => mkdir fs p
      end
  end.

Definition mkdir_parents (fs : filesystem) (p : path) : result filesystem :=
  mkdir_climb (List.length p) fs p.

(** [shutil.copy2(src, dst)] *)
Definition copy2 (fs : filesystem) (src dst : path) : result filesystem :=
  let dst' := if is_dir fs dst then div dst (name src) else dst in
  match stat fs src with
  | Some (File c) =>
      if path_eqb src dst'
      then Raise (OSError ("'" ++ str_path src ++ "' and '" ++ str_path dst'
                            ++ "' are the same file"))
      else write fs dst' c
  | Some Dir => Raise (OSError ("Is a directory: '" ++ str_path src ++ "'"))
  | None => Raise (OSError ("No such file or directory: '" ++ str_path src ++ "'"))
  end.

(** [open(p, 'r', encoding='utf-8').read()]: the bytes of an image file
    are not UTF-8 text. *)
Definition read_text (fs : filesystem) (p : path) : result string :=
  match stat fs p with
  | Some (File (Data b)) => decode_utf8 b
  | Some (File (Picture _)) => Raise (UnicodeDecodeError "'utf-8' codec can't decode bytes")
  | Some Dir => Raise (OSError ("Is a directory: '" ++ str_path p ++ "'"))
  | None => Raise (OSError ("No such file or directory: '" ++ str_path p ++ "'"))
  end.

(** [Image.open(p)] *)
Definition Image_open (fs : filesystem) (p : path) : result image :=
  match stat fs p with
  | Some (File (Picture img)) => Ok img
  | Some (File (Data _)) =>
      Raise (UnidentifiedImageError ("cannot identify image file '" ++ str_path p ++ "'"))
  | Some Dir => Raise (OSError ("Is a directory: '" ++ str_path p ++ "'"))
  | None => Raise (OSError ("No such file or directory: '" ++ str_path p ++ "'"))
  end.

(** [img.save(p, format, ...)].  The file is opened for writing first:
    when the writer then refuses the mode, a file that was there is left
    empty and one that was not is removed again. *)
Definition Image_save (keeps_exif : bool) (fs : filesystem) (img : image) (p : path)
  (fmt : string) (quality : option Z) (exif : option exif_bytes)
  (pnginfo : list (string * string)) : result unit * filesystem :=
  match write fs p (Data "") with
  | Raise e => (Raise e, fs)
  | Ok opened =>
      if writable fmt img.(mode) then
        (Ok tt, set_entry fs p (File (Picture (saved keeps_exif img fmt quality exif pnginfo))))
      else
        (Raise (OSError ("cannot write mode " ++ img.(mode) ++ " as " ++ fmt)),
         if exists_ fs p then opened else fs)
  end.

(** The format [save] takes from the extension when none is named. *)
Definition format_of_extension (p : path) : option string :=
  let ext := lower (suffix p) in
  if ext =? ".png" then Some "PNG"
  else if (ext =? ".jpg") || (ext =? ".jpeg") then Some "JPEG"
  else if ext =? ".webp" then Some "WEBP"
  else None.

End OS.
Import OS.

(* ================================================================== *)
(** * The world the core runs in                                       *)
(* ================================================================== *)

(** [core/utils.py]: [LogLevel] *)
Inductive LogLevel : Type := INFO | SUCCESS | WARN | ERROR | FATAL.

(** How one run of the external mosaic script ends. *)
Inductive ending : Type :=
| Completed (returncode : Z) (stderr : string)
| TimedOut
| NotStarted (e : exn).

(** A run of the script: how it ends and what it has put at the output
    path, if anything. *)
Record run : Type := {
  run_ending : ending;
  run_output : option content
}.

(** The file system, what the three callbacks of [CoreCallbacks] have
    received so far, and the runs of the script so far (input, output). *)
Record world : Type := {
  fs : filesystem;
  logged : list (LogLevel * string);
  progressed : list Z;
  statuses : list string;
  runs : list (path * path)
}.

Definition with_fs (w : world) (f : filesystem) : world :=
  {| fs := f; logged := w.(logged); progressed := w.(progressed);
     statuses := w.(statuses); runs := w.(runs) |}.

(** A computation that reads and changes the world and may raise; the
    world keeps the changes made before the exception. *)
Definition M (A : Type) : Type := world -> result A * world.

Definition ret {A : Type} (a : A) : M A := fun w => (Ok a, w).

Definition raise {A : Type} (e : exn) : M A := fun w => (Raise e, w).

Definition bind {A B : Type} (m : M A) (k : A -> M B) : M B :=
  fun w =>
    match m w with
    | (Ok a, w') => k a w'
    | (Raise e, w') => (Raise e, w')
    end.

(** [try: m  except Exception as e: handler(e)] *)
Definition try_except {A : Type} (m : M A) (handler : exn -> M A) : M A :=
  fun w =>
    match m w with
    | (Ok a, w') => (Ok a, w')
    | (Raise e, w') => handler e w'
    end.

Declare Scope monad_scope.
Delimit Scope monad_scope with monad.
Notation "x <- m ;; k" := (bind m (fun x => k))
  (at level 61, m at next level, right associativity) : monad_scope.
Notation "m ;; k" := (bind m (fun _ => k))
  (at level 61, right associativity) : monad_scope.
Open Scope monad_scope.

Definition get_fs : M filesystem := fun w => (Ok w.(fs), w).

(** An operation on files read off the current file system. *)
Definition on_fs {A : Type} (f : filesystem -> result A) : M A :=
  fun w => (f w.(fs), w).

(** An operation that changes the file system when it succeeds. *)
Definition change_fs (f : filesystem -> result filesystem) : M unit :=
  fun w =>
    match f w.(fs) with
    | Ok fs' => (Ok tt, with_fs w fs')
    | Raise e => (Raise e, w)
    end.

(** An operation that may change the file system and raise as well. *)
Definition run_fs {A : Type} (f : filesystem -> result A * filesystem) : M A :=
  fun w => let (r, fs') := f w.(fs) in (r, with_fs w fs').

(** [LoggerMixin.log] *)
Definition log (message : string) (level : LogLevel) : M unit :=
  fun w =>
    (Ok tt,
     {| fs := w.(fs); logged := (w.(logged) ++ [(level, message)])%list;
        progressed := w.(progressed); statuses := w.(statuses); runs := w.(runs) |}).

(** [LoggerMixin.update_progress]: the value is clamped to 0..100 *)
Definition update_progress (value : Z) : M unit :=
  fun w =>
    (Ok tt,
     {| fs := w.(fs); logged := w.(logged);
        progressed := (w.(progressed) ++ [Z.max 0 (Z.min 100 value)])%list;
        statuses := w.(statuses); runs := w.(runs) |}).

(** [LoggerMixin.update_status] *)
Definition update_status (message : string) : M unit :=
  fun w =>
    (Ok tt,
     {| fs := w.(fs); logged := w.(logged); progressed := w.(progressed);
        statuses := (w.(statuses) ++ [message])%list; runs := w.(runs) |}).

(** [WatermarkConfig] *)
Record WatermarkConfig : Type := {
  wm_name : string;
  wm_path : path;
  position : string;
  opacity : float;
  scale : float;
  margin_x : Z;
  margin_y : Z
}.

(** [CoreConfig] *)
Record CoreConfig : Type := {
  input_folder : path;
  watermark : WatermarkConfig;
  max_workers : Z;
  config_timeout_seconds : Z
}.

(** ** Numbers *)

(** [float(z)], exact for the integers below 2^53 *)
Definition float_of_int (z : Z) : float :=
  if (z <? 0)%Z then PrimFloat.opp (PrimFloat.of_uint63 (Uint63.of_Z (- z)))
  else PrimFloat.of_uint63 (Uint63.of_Z z).

(** [int(x)]: the integer part of a finite float *)
Definition int_of_float (x : float) : option Z :=
  match Prim2SF x with
  | SpecFloat.S754_zero _ => Some 0%Z
  | SpecFloat.S754_finite s m e =>
      let a := (if 0 <=? e then Z.pos m * 2 ^ e else Z.pos m / 2 ^ (- e))%Z in
      Some (if s then (- a)%Z else a)
  | _ => None
  end.

(** [int(i / total * 100)] for a positive [total]; neither the division
    nor the conversion can fail then. *)
Definition percent (i total : Z) : Z :=
  match int_of_float (float_of_int i / float_of_int total * 100)%float with
  | Some z => z
  | None => 0%Z
  end.

(* ================================================================== *)
(** * The core                                                         *)
(* ================================================================== *)

Section Core.

(** Whether the PNG writer of the installed Pillow stores the EXIF block of
    the image it is given when [save] gets no [exif] argument. *)
Variable png_keeps_exif : bool.

(** The external mosaic script [pixivMosaic2.py]: its run number [k] (from
    0), on the file system as it is, for an input and an output path. *)
Variable mosaic : nat -> filesystem -> path -> path -> run.

(** [get_base_dir()] *)
Variable base_dir : path.

(* ------------------------------------------------------------------ *)
(** ** core/metadata.py                                                *)
(* ------------------------------------------------------------------ *)

(** [extract_png], inside [with Image.open(path) as img]: the comment and
    the description read from the image. *)
Definition read_fields (img : image) : string * string :=
  let file_format := upper img.(format) in
  (* Initialize variables *)
  let png_comment := "" in
  let exif_description := "" in
  (* For PNG files: try to get Comment chunk *)
  let png_comment :=
    if file_format =? "PNG" then dict_get img.(text) "Comment" "" else png_comment in
  (* Method 1: Direct piexif approach *)
  let exif_description :=
    if img.(info_exif) then
      match img.(piexif_description) with
      | Found (Bytes raw_desc) =>
          match decode_utf8 raw_desc with
          | Ok s => s
          | Raise _ => exif_description
          end
      | Found (NotBytes s) => s
      | Absent | Fails => exif_description
      end
    else exif_description in
  (* Method 2: PIL's getexif() method *)
  let exif_description :=
    if (exif_description =? "") && mem file_format ["JPEG"; "JPG"] then
      match img.(getexif_description) with
      | Found s => s
      | Absent | Fails => exif_description
      end
    else exif_description in
  (* Method 3: PIL's _getexif() method *)
  let exif_description :=
    if (exif_description =? "") && img.(has__getexif) then
      match img.(legacy_description) with
      | Found s => s
      | Absent | Fails => exif_description
      end
    else exif_description in
  (png_comment, exif_description).

(** [a or b] on strings *)
Definition or_else (a b : string) : string := if a =? "" then b else a.

(** [metadata_source = exif_description or png_comment or "{}"] *)
Definition metadata_source (img : image) : string :=
  let (png_comment, exif_description) := read_fields img in
  or_else exif_description (or_else png_comment "{}").

(** [s if s else None] *)
Definition str_or_None (s : string) : pyval :=
  if s =? "" then PyNone else PyStr s.

(** The dict [extract_png] returns when the source is not JSON. *)
Definition raw_fallback (png_comment exif_description source : string) (e : exn) : pyval :=
  PyDict
    [ ("raw_comment", str_or_None png_comment);
      ("raw_exif_description", str_or_None exif_description);
      ("_parse_error", PyStr (str_exn e));
      ("_metadata_source", if source =? "{}" then PyNone else PyStr source) ].

Definition extract_png (fs : filesystem) (path : path) : result pyval :=
  let wrap (e : exn) : result pyval :=
    Raise (MetadataError ("Failed to extract metadata from " ++ name path ++ ": " ++ str_exn e)) in
  match Image_open fs path with
  | Raise e => wrap e
  | Ok img =>
      let (png_comment, exif_description) := read_fields img in
      let metadata_source := or_else exif_description (or_else png_comment "{}") in
      match loads metadata_source with
      | Ok parsed_metadata => Ok parsed_metadata
      | Raise e =>
          if is_ValueError e
          then Ok (raw_fallback png_comment exif_description metadata_source e)
          else wrap e
      end
  end.

(** [_embed_png] *)
Definition _embed_png (fs : filesystem) (path : path) (json_str : string)
  : result unit * filesystem :=
  match Image_open fs path with
  | Raise e => (Raise e, fs)
  | Ok img =>
      let png_info := [("Comment", json_str)] in
      match format_of_extension path with
      | Some fmt => Image_save png_keeps_exif fs img path fmt None None png_info
      | None => (Raise (ValueError ("unknown file extension: " ++ suffix path)), fs)
      end
  end.

(** [_embed_exif]: both branches save the same way. *)
Definition _embed_exif (fs : filesystem) (path : path) (json_str : string)
  : result unit * filesystem :=
  match Image_open fs path with
  | Raise e => (Raise e, fs)
  | Ok img =>
      let exif_bytes := Description json_str in
      match format_of_extension path with
      | Some fmt => Image_save png_keeps_exif fs img path fmt None (Some exif_bytes) []
      | None => (Raise (ValueError ("unknown file extension: " ++ suffix path)), fs)
      end
  end.

(** The ceiling on the size of the serialized metadata, in bytes. *)
Definition size_limit : Z := 60000.

Definition embed (fs : filesystem) (path : path) (metadata : pyval)
  : result unit * filesystem :=
  if negb (truthy metadata) then (Ok tt, fs)
  else
    (* Convert metadata to JSON string *)
    let json_str := dumps metadata in
    (* Check size limits *)
    if (size_limit <? Z.of_nat (String.length json_str))%Z
    then (Raise (MetadataError ("Metadata too large for " ++ name path ++ " (>60KB)")), fs)
    else
      let suffix := lower (suffix path) in
      let attempt :=
        if suffix =? ".png" then _embed_png fs path json_str
        else if mem suffix [".jpg"; ".jpeg"; ".webp"] then _embed_exif fs path json_str
        else (Raise (MetadataError ("Unsupported file format: " ++ suffix)), fs) in
      match attempt with
      | (Ok tt, fs') => (Ok tt, fs')
      | (Raise e, fs') =>
          (Raise (MetadataError ("Failed to embed metadata in " ++ name path ++ ": "
                                   ++ str_exn e)), fs')
      end.

Definition validate_metadata_size (metadata : pyval) : bool :=
  if negb (truthy metadata) then true
  else
    let json_str := dumps metadata in
    (Z.of_nat (String.length json_str) <=? size_limit)%Z.

(** One turn of the loop of [create_character_list]. *)
Definition character_step (characters : list string) (image_meta : pyval)
  : result (list string) :=
  match getattr_get image_meta "character" (PyStr "") with
  | Raise e => Raise e
  | Ok char_tag =>
      if truthy char_tag then
        (* Clean the tag: replace underscores with spaces and strip *)
        match getattr_replace char_tag "_" " " with
        | Raise e => Raise e
        | Ok replaced =>
            let cleaned_char := strip replaced in
            if negb (cleaned_char =? "") && negb (mem cleaned_char characters)
            then Ok (characters ++ [cleaned_char])%list
            else Ok characters
        end
      else Ok characters
  end.

Fixpoint character_loop (characters : list string) (metas : list pyval)
  : result (list string) :=
  match metas with
  | [] => Ok characters
  | image_meta :: rest =>
      match character_step characters image_meta with
      | Raise e => Raise e
      | Ok characters' => character_loop characters' rest
      end
  end.

Definition create_character_list (pack_metadata : dict) : result string :=
  match character_loop [] (values pack_metadata) with
  | Raise e => Raise e
  | Ok characters => Ok (join ", " characters)
  end.

(* ------------------------------------------------------------------ *)
(** ** core/watermark.py                                               *)
(* ------------------------------------------------------------------ *)

(** The [positions] dict of [_calculate_position]. *)
Definition positions (base_width base_height wm_width wm_height margin_x margin_y : Z)
  : list (string * (Z * Z)) :=
  [ ("top_left", (margin_x, margin_y));
    ("top_center", ((base_width - wm_width) / 2, margin_y));
    ("top_right", (base_width - wm_width - margin_x, margin_y));
    ("center_left", (margin_x, (base_height - wm_height) / 2));
    ("center", ((base_width - wm_width) / 2, (base_height - wm_height) / 2));
    ("center_right", (base_width - wm_width - margin_x, (base_height - wm_height) / 2));
    ("bottom_left", (margin_x, base_height - wm_height - margin_y));
    ("bottom_center", ((base_width - wm_width) / 2, base_height - wm_height - margin_y));
    ("bottom_right", (base_width - wm_width - margin_x, base_height - wm_height - margin_y))
  ]%Z.

(** [positions[k]]: a [KeyError] cannot arise for a key of the literal. *)
Definition getitem (d : list (string * (Z * Z))) (k : string) : Z * Z :=
  dict_get d k (0, 0)%Z.

Definition _calculate_position
  (base_width base_height wm_width wm_height : Z)
  (position : string) (margin_x margin_y : Z) : Z * Z :=
  let positions := positions base_width base_height wm_width wm_height margin_x margin_y in
  dict_get positions position (getitem positions "top_right").

(** [int(x)], raising on an infinity or a NaN *)
Definition py_int (x : float) : result Z :=
  match int_of_float x with
  | Some z => Ok z
  | None => Raise (ValueError "cannot convert float to integer")
  end.

Definition apply_watermark (fs : filesystem) (base_image : image) (config : WatermarkConfig)
  : result image :=
  if negb (exists_ fs config.(wm_path))
  then Raise (WatermarkError ("Watermark file not found: " ++ str_path config.(wm_path)))
  else
    let body : result image :=
      (* Ensure base image is in RGBA mode for compositing *)
      let base_image := convert base_image "RGBA" in
      (* Load and prepare watermark *)
      match Image_open fs config.(wm_path) with
      | Raise e => Raise e
      | Ok wm =>
          let watermark := convert wm "RGBA" in
          (* Calculate watermark size based on base image *)
          let (base_width, base_height) := base_image.(size) in
          let min_dimension := Z.min base_width base_height in
          match py_int (float_of_int min_dimension * config.(scale))%float with
          | Raise e => Raise e
          | Ok watermark_size =>
              (* Maintain aspect ratio while resizing *)
              if (snd watermark.(size) =? 0)%Z
              then Raise (ZeroDivisionError "division by zero")
              else
                let watermark_ratio :=
                  (float_of_int (fst watermark.(size)) / float_of_int (snd watermark.(size)))%float in
                let new_size : result (Z * Z) :=
                  if PrimFloat.leb 1 watermark_ratio then
                    match py_int (float_of_int watermark_size / watermark_ratio)%float with
                    | Ok new_height => Ok (watermark_size, new_height)
                    | Raise e => Raise e
                    end
                  else
                    match py_int (float_of_int watermark_size * watermark_ratio)%float with
                    | Ok new_width => Ok (new_width, watermark_size)
                    | Raise e => Raise e
                    end in
                match new_size with
                | Raise e => Raise e
                | Ok (new_width, new_height) =>
                    if ((new_width <=? 0) || (new_height <=? 0))%Z
                    then Raise (ValueError "height and width must be > 0")
                    else
                      let resized := Resize watermark.(pixels) (new_width, new_height) in
                      (* Apply opacity if less than full *)
                      let wm_pixels :=
                        if PrimFloat.ltb config.(opacity) 1
                        then PutAlpha resized (ScaleAlpha (LastBand resized) config.(opacity))
                        else resized in
                      (* Calculate position *)
                      let pos :=
                        _calculate_position base_width base_height new_width new_height
                          config.(position) config.(margin_x) config.(margin_y) in
                      (* Create temporary image for compositing *)
                      let temp_img :=
                        Paste (New "RGBA" base_image.(size) [0; 0; 0; 0]%Z) wm_pixels pos
                          (Some wm_pixels) in
                      (* Composite watermark onto base image *)
                      let result := AlphaComposite base_image.(pixels) temp_img in
                      (* Convert back to RGB for final output *)
                      Ok (convert (with_pixels base_image result) "RGB")
                end
          end
      end in
    match body with
    | Ok img => Ok img
    | Raise e => Raise (WatermarkError ("Failed to apply watermark: " ++ str_exn e))
    end.

(* ------------------------------------------------------------------ *)
(** ** core/processor.py                                               *)
(* ------------------------------------------------------------------ *)

(** [any(l)] on truth values *)
Definition any (l : list bool) : bool := existsb (fun b => b) l.

(** The names [_discover_packs] passes to [startswith]. *)
Definition excluded_prefixes : list string :=
  ["."; "original_images"; "free_post"; "preview_Images"; "pixiv_safe"].

Definition _discover_packs (input_dir : path) : M (list path) :=
  (* Check if input directory has image files directly *)
  let image_extensions := ["*.png"; "*.jpg"; "*.jpeg"; "*.webp"] in
  fs <- get_fs ;;
  let has_images :=
    any (map (fun ext => truth_of_generator (glob fs input_dir ext)) image_extensions) in
  if has_images then
    log "Modo de pasta única detectado. Processando a pasta de entrada diretamente." INFO ;;
    ret [input_dir]
  else
    (* Look for subdirectories with PNG files *)
    entries <- on_fs (fun fs => iterdir fs input_dir) ;;
    let subfolders :=
      filter (fun f => is_dir fs f && negb (startswith_any (name f) excluded_prefixes))
        entries in
    match subfolders with
    | _ :: _ =>
        log ("Modo multi-pack detectado. Encontradas " ++ str_nat (List.length subfolders)
               ++ " subpastas para processar.") INFO ;;
        ret subfolders
    | [] => ret []
    end.

(** [c in s] for one character *)
Fixpoint contains (s : string) (c : ascii) : bool :=
  match s with
  | EmptyString => false
  | String a r => Ascii.eqb a c || contains r c
  end.

Definition lift {A : Type} (r : result A) : M A := fun w => (r, w).

Definition save (img : image) (p : path) (fmt : string) (quality : option Z)
  (exif : option exif_bytes) : M unit :=
  run_fs (fun fs => Image_save png_keeps_exif fs img p fmt quality exif []).

Definition _process_single_image (config : CoreConfig) (image_file : path) (index : Z)
  (pack_metadata : pyval) (preview_folder free_post_folder temp_zip_folder : path)
  : M unit :=
  try_except
    (let image_name_base := "image_" ++ str_int index in
     img <- on_fs (fun fs => Image_open fs image_file) ;;
     (* Convert to RGB if necessary (for JPEG compatibility) *)
     let img :=
       if mem img.(mode) ["RGBA"; "P"] then
         let rgb_img := new "RGB" img.(size) [255; 255; 255]%Z in
         let img := if img.(mode) =? "P" then convert img "RGBA" else img in
         let mask := if contains img.(mode) "A" then Some (LastBand img.(pixels)) else None in
         with_pixels rgb_img (Paste rgb_img.(pixels) img.(pixels) (0, 0)%Z mask)
       else img in
     (* Get metadata for this image *)
     metadata_dict <- lift (getattr_get pack_metadata (name image_file) (PyDict [])) ;;
     (* Prepare EXIF data *)
     let exif_bytes :=
       if truthy metadata_dict && validate_metadata_size metadata_dict
       then Description (dumps metadata_dict)
       else Empty in
     (* 1. Save preview image as WEBP *)
     let preview_path := div preview_folder (image_name_base ++ ".webp") in
     save (convert img "RGB") preview_path "WEBP" (Some 85%Z) (Some exif_bytes) ;;
     (* 2. Save original image for ZIP - preserve original format for ZIP *)
     let original_ext := lower (suffix image_file) in
     (if mem original_ext [".jpg"; ".jpeg"] then
        let zip_path := div temp_zip_folder (image_name_base ++ ".jpeg") in
        save img zip_path "JPEG" (Some 95%Z) (Some exif_bytes)
      else if original_ext =? ".webp" then
        let zip_path := div temp_zip_folder (image_name_base ++ ".webp") in
        save img zip_path "WEBP" (Some 95%Z) (Some exif_bytes)
      else
        (* PNG and others *)
        let zip_path := div temp_zip_folder (image_name_base ++ ".png") in
        orig_img <- on_fs (fun fs => Image_open fs image_file) ;;
        save orig_img zip_path "PNG" None None) ;;
     (* 3. Apply watermark and save as JPEG for free post *)
     watermarked_img <- on_fs (fun fs => apply_watermark fs img config.(watermark)) ;;
     let free_post_path := div free_post_folder (image_name_base ++ ".jpeg") in
     save watermarked_img free_post_path "JPEG" (Some 90%Z) (Some exif_bytes) ;;
     log ("Processada: " ++ name image_file ++ " -> " ++ image_name_base ++ ".*") INFO)
    (fun e =>
       log ("Erro ao processar " ++ name image_file ++ ": " ++ str_exn e) ERROR ;;
       raise e).

(* ------------------------------------------------------------------ *)
(** ** core/auto_mosaic.py                                             *)
(* ------------------------------------------------------------------ *)

(** [AutoMosaicProcessor] *)
Record AutoMosaicProcessor : Type := {
  timeout_seconds : Z;
  external_dir : path;
  workflow_path : path;
  script_path : path
}.

(** [__init__] with [_setup_paths] *)
Definition new_processor (timeout : Z) : AutoMosaicProcessor :=
  let external := div base_dir "external" in
  {| timeout_seconds := timeout;
     external_dir := external;
     workflow_path := div external "PixivMosaicWorkflowAPI.json";
     script_path := div external "pixivMosaic2.py" |}.

Definition validate_setup (self : AutoMosaicProcessor) : M bool :=
  fs <- get_fs ;;
  if negb (exists_ fs self.(external_dir)) then
    log ("Diretório external não encontrado: " ++ str_path self.(external_dir)) ERROR ;;
    ret false
  else if negb (exists_ fs self.(script_path)) then
    log ("Script pixivMosaic2.py não encontrado: " ++ str_path self.(script_path)) ERROR ;;
    ret false
  else if negb (exists_ fs self.(workflow_path)) then
    log ("Workflow JSON não encontrado: " ++ str_path self.(workflow_path)) ERROR ;;
    ret false
  else
    (* Validate workflow file is valid JSON *)
    match read_text fs self.(workflow_path) with
    | Raise e => log ("Erro ao ler workflow: " ++ str_exn e) ERROR ;; ret false
    | Ok text =>
        match loads text with
        | Raise e => log ("Workflow JSON inválido: " ++ str_exn e) ERROR ;; ret false
        | Ok _ =>
            log "Configuração do auto-mosaic validada com sucesso." SUCCESS ;;
            ret true
        end
    end.

(** [subprocess.run(cmd, capture_output=True, text=True, timeout=...)] for
    the command line of the mosaic script. *)
Definition subprocess_run (input_path output_path : path) : M (Z * string) :=
  fun w =>
    let r := mosaic (List.length w.(runs)) w.(fs) input_path output_path in
    let fs' :=
      match r.(run_output) with
      | Some c =>
          match write w.(fs) output_path c with
          | Ok fs' => fs'
          | Raise _ => w.(fs)
          end
      | None => w.(fs)
      end in
    let w' :=
      {| fs := fs'; logged := w.(logged); progressed := w.(progressed);
         statuses := w.(statuses);
         runs := (w.(runs) ++ [(input_path, output_path)])%list |} in
    match r.(run_ending) with
    | Completed returncode stderr => (Ok (returncode, stderr), w')
    | TimedOut => (Raise (TimeoutExpired "Command timed out"), w')
    | NotStarted e => (Raise e, w')
    end.

(** [embed] under its [try], with the two messages of the caller. *)
Definition preserve (output_path : path) (metadata : pyval) (done failed : string)
  : M unit :=
  try_except
    (run_fs (fun fs => embed fs output_path metadata) ;;
     log (done ++ name output_path) INFO)
    (fun e => log (failed ++ name output_path ++ ": " ++ str_exn e) WARN).

Definition process_image (self : AutoMosaicProcessor) (input_path output_path : path)
  (preserve_metadata : bool) (metadata : pyval) : M bool :=
  fs <- get_fs ;;
  if negb (exists_ fs input_path) then
    log ("Arquivo de entrada não encontrado: " ++ str_path input_path) ERROR ;;
    ret false
  else
    (* Ensure output directory exists *)
    change_fs (fun fs => mkdir_parents fs (parent output_path)) ;;
    try_except
      (log ("Processando " ++ name input_path ++ " através do workflow de mosaico...") INFO ;;
       (* Run the mosaic script *)
       result <- subprocess_run input_path output_path ;;
       if negb (fst result =? 0)%Z then
         log ("❌ Falha ao processar " ++ name input_path ++ ": " ++ snd result) ERROR ;;
         ret false
       else
         (* Check if output was created *)
         fs <- get_fs ;;
         if negb (exists_ fs output_path) then
           log ("❌ Arquivo de saída não foi criado: " ++ str_path output_path) ERROR ;;
           ret false
         else
           (* Preserve metadata if requested *)
           (if preserve_metadata && truthy metadata then
              preserve output_path metadata
                "Metadados preservados para "
                "⚠️ Falha ao preservar metadados para "
            else ret tt) ;;
           log ("✅ Processado com sucesso: " ++ name input_path ++ " -> "
                  ++ name output_path) INFO ;;
           ret true)
      (fun e =>
         match e with
         | TimeoutExpired _ =>
             log ("❌ Timeout ao processar " ++ name input_path ++ " (>"
                    ++ str_int self.(timeout_seconds) ++ "s)") ERROR ;;
             ret false
         | _ =>
             log ("❌ Erro inesperado ao processar " ++ name input_path ++ ": "
                    ++ str_exn e) ERROR ;;
             ret false
         end).

(** The [for attempt in range(max_retries)] of [process_image_with_retry]:
    [true] when an attempt succeeded (the function returns there), [false]
    when the loop ran out. *)
Fixpoint attempts (self : AutoMosaicProcessor) (input_path output_path : path)
  (preserve_metadata : bool) (metadata : pyval) (max_retries : Z) (range : list nat)
  : M bool :=
  match range with
  | [] => ret false
  | attempt :: rest =>
      let attempt_num := S attempt in
      (if (0 <? attempt)%nat then
         log ("Tentativa " ++ str_nat attempt_num ++ "/" ++ str_int max_retries ++ " para "
                ++ name input_path ++ "...") WARN
       else ret tt) ;;
      success <- process_image self input_path output_path preserve_metadata metadata ;;
      if success then
        (if (0 <? attempt)%nat then
           log ("✅ Sucesso na tentativa " ++ str_nat attempt_num ++ " para "
                  ++ name input_path) SUCCESS
         else ret tt) ;;
        ret true
      else
        log ("❌ Falha na tentativa " ++ str_nat attempt_num ++ " para "
               ++ name input_path) WARN ;;
        attempts self input_path output_path preserve_metadata metadata max_retries rest
  end.

(** [range(n)] *)
Definition range (n : Z) : list nat := seq 0 (Z.to_nat n).

Definition process_image_with_retry (self : AutoMosaicProcessor)
  (input_path output_path : path) (preserve_metadata : bool) (metadata : pyval)
  (max_retries : Z) : M bool :=
  fs <- get_fs ;;
  if negb (exists_ fs input_path) then
    log ("Arquivo de entrada não encontrado: " ++ str_path input_path) ERROR ;;
    ret false
  else
    (* Try processing with retries *)
    done <- attempts self input_path output_path preserve_metadata metadata max_retries
              (range max_retries) ;;
    if done then ret true
    else
      (* All attempts failed - fallback to copying original image *)
      log ("⚠️ Todas as tentativas falharam para " ++ name input_path
             ++ ". Copiando imagem original como fallback...") WARN ;;
      try_except
        ((* Ensure output directory exists *)
         change_fs (fun fs => mkdir_parents fs (parent output_path)) ;;
         (* Copy the original image *)
         change_fs (fun fs => copy2 fs input_path output_path) ;;
         (* Preserve metadata if requested *)
         (if preserve_metadata && truthy metadata then
            preserve output_path metadata
              "Metadados preservados na cópia para "
              "⚠️ Falha ao preservar metadados na cópia para "
          else ret tt) ;;
         log ("📄 Imagem original copiada como fallback: " ++ name input_path ++ " -> "
                ++ name output_path) SUCCESS ;;
         ret true)
        (fun e =>
           log ("❌ Falha crítica ao copiar " ++ name input_path ++ ": " ++ str_exn e) ERROR ;;
           ret false).

(** [len(v)] *)
Definition py_len (v : pyval) : result nat :=
  match v with
  | PyStr s => Ok (char_count s)
  | PyList l => Ok (List.length l)
  | PyDict d => Ok (List.length d)
  | _ => Raise (TypeError ("object of type '" ++ type_name v ++ "' has no len()"))
  end.

(** The [for i, src_path in enumerate(png_files, 1)] of [process_pack],
    from index [i] on, with the two counters. *)
Fixpoint pack_loop (self : AutoMosaicProcessor) (pixiv_safe_dir : path)
  (metadata_map : pyval) (total_files : nat) (i : nat) (png_files : list path)
  (processed_count failed_count : nat) : M (nat * nat) :=
  match png_files with
  | [] => ret (processed_count, failed_count)
  | src_path :: rest =>
      let dst_path := div pixiv_safe_dir (name src_path) in
      (* Get metadata for this image *)
      image_metadata <- lift (getattr_get metadata_map (name src_path) (PyDict [])) ;;
      (* Process the image *)
      success <- process_image self src_path dst_path true
                   (if truthy image_metadata then image_metadata else PyNone) ;;
      let processed_count := if success then S processed_count else processed_count in
      let failed_count := if success then failed_count else S failed_count in
      (* Update progress *)
      let progress := percent (Z.of_nat i) (Z.of_nat total_files) in
      update_progress progress ;;
      update_status ("Processando " ++ str_nat i ++ "/" ++ str_nat total_files ++ " - "
                       ++ str_nat processed_count ++ " sucessos, "
                       ++ str_nat failed_count ++ " falhas") ;;
      pack_loop self pixiv_safe_dir metadata_map total_files (S i) rest
        processed_count failed_count
  end.

(** [metadata_map] as [process_pack] loads it. *)
Definition load_metadata_map (metadata_file : path) : M pyval :=
  fs <- get_fs ;;
  if exists_ fs metadata_file then
    match read_text fs metadata_file with
    | Raise e => log ("⚠️ Erro ao carregar metadados: " ++ str_exn e) WARN ;; ret (PyDict [])
    | Ok text =>
        match loads text with
        | Raise e =>
            log ("⚠️ Erro ao carregar metadados: " ++ str_exn e) WARN ;; ret (PyDict [])
        | Ok metadata_map =>
            match py_len metadata_map with
            | Raise e =>
                log ("⚠️ Erro ao carregar metadados: " ++ str_exn e) WARN ;;
                ret metadata_map
            | Ok n =>
                log ("Carregados metadados para " ++ str_nat n ++ " imagens.") INFO ;;
                ret metadata_map
            end
        end
    end
  else ret (PyDict []).

Definition process_pack (self : AutoMosaicProcessor) (pack_path : path) : M bool :=
  valid <- validate_setup self ;;
  if negb valid then ret false
  else
    (* Setup directories *)
    let original_images_dir := div pack_path "original_images" in
    let pixiv_safe_dir := div pack_path "pixiv_safe" in
    let metadata_file := div pack_path "metadata.json" in
    fs <- get_fs ;;
    if negb (exists_ fs original_images_dir) then
      log ("Diretório 'original_images' não encontrado em '" ++ name pack_path ++ "'") ERROR ;;
      ret false
    else
      (* Create output directory *)
      change_fs (fun fs => mkdir fs pixiv_safe_dir) ;;
      (* Load metadata if available *)
      metadata_map <- load_metadata_map metadata_file ;;
      (* Find PNG files to process *)
      fs <- get_fs ;;
      let png_files := iterate (glob fs original_images_dir "*.png") in
      match png_files with
      | [] =>
          log ("Nenhuma imagem PNG encontrada em '" ++ str_path original_images_dir ++ "'")
            WARN ;;
          ret true
      | _ :: _ =>
          let total_files := List.length png_files in
          update_status ("Processando " ++ str_nat total_files ++ " imagens do pack '"
                           ++ name pack_path ++ "'...") ;;
          counts <- pack_loop self pixiv_safe_dir metadata_map total_files 1 png_files 0 0 ;;
          let (processed_count, failed_count) := (counts : nat * nat) in
          (* Final status update *)
          update_progress 0 ;;
          (if (failed_count =? 0)%nat then
             update_status ("✅ Processamento completo: " ++ str_nat processed_count
                              ++ " imagens processadas com sucesso!") ;;
             log ("SUCESSO: Pack '" ++ name pack_path ++ "' processado - "
                    ++ str_nat processed_count ++ " imagens.") SUCCESS
           else
             update_status ("⚠️ Processamento completo: " ++ str_nat processed_count
                              ++ " sucessos, " ++ str_nat failed_count ++ " falhas") ;;
             log ("AVISO: Pack '" ++ name pack_path ++ "' processado com algumas falhas - "
                    ++ str_nat processed_count ++ " sucessos, " ++ str_nat failed_count
                    ++ " falhas.") WARN) ;;
          ret true
      end.

End Core.


(* ================================================================== *)
(** * More of the core, and the worker that drives it                  *)
(* ================================================================== *)

(** [k in s] for two strings: [k] occurs in [s] *)
Fixpoint is_substring (k s : string) : bool :=
  String.prefix k s
  || match s with
     | EmptyString => false
     | String _ r => is_substring k r
     end.

(** [k in v] for a string [k] and, when it holds, what [v[k]] gives: the
    value under the key of a mapping; a [TypeError] for a list or a string,
    which take no string as an index.  A value that is no container raises
    at the test. *)
Definition py_find (v : pyval) (k : string) : result (option (result pyval)) :=
  match v with
  | PyDict d =>
      Ok (match lookup d k with
          | Some x => Some (Ok x)
          | None => None
          end)
  | PyList l =>
      Ok (if existsb (fun x => match x with PyStr s => s =? k | _ => false end) l
          then Some (Raise (TypeError "list indices must be integers or slices, not str"))
          else None)
  | PyStr s =>
      Ok (if is_substring k s
          then Some (Raise (TypeError "string indices must be integers, not 'str'"))
          else None)
  | _ => Raise (TypeError ("argument of type '" ++ type_name v ++ "' is not iterable"))
  end.

(** [try: m  finally: final] *)
Definition try_finally {A : Type} (m : M A) (final : M unit) : M A :=
  fun w =>
    let (r, w') := m w in
    match final w' with
    | (Ok _, w'') => (r, w'')
    | (Raise e, w'') => (Raise e, w'')
    end.

(** [callbacks.progress(value)], without the clamp of [update_progress] *)
Definition callback_progress (value : Z) : M unit :=
  fun w =>
    (Ok tt,
     {| fs := w.(fs); logged := w.(logged);
        progressed := (w.(progressed) ++ [value])%list;
        statuses := w.(statuses); runs := w.(runs) |}).

(** What the operation of the worker thread raises: a [RuntimeError] of
    its own, or what the core has raised. *)
Inductive raised : Type :=
| RuntimeError (message : string)
| FromCore (e : exn).

(** A step of the worker: a value, or what is raised. *)
Definition W (A : Type) : Type := world -> (A + raised) * world.

Definition of_core {A : Type} (m : M A) : W A :=
  fun w =>
    match m w with
    | (Ok a, w') => (inl a, w')
    | (Raise e, w') => (inr (FromCore e), w')
    end.

Definition and_then {A B : Type} (m : W A) (k : A -> W B) : W B :=
  fun w =>
    match m w with
    | (inl a, w') => k a w'
    | (inr r, w') => (inr r, w')
    end.

Definition raise_RuntimeError {A : Type} (message : string) : W A :=
  fun w => (inr (RuntimeError message), w).

Definition done {A : Type} (a : A) : W A := fun w => (inl a, w).

Section Callers.

Variable png_keeps_exif : bool.
Variable mosaic : nat -> filesystem -> path -> path -> run.
Variable base_dir : path.

(* ------------------------------------------------------------------ *)
(** ** core/metadata.py: [extract_all_png_metadata]                    *)
(* ------------------------------------------------------------------ *)

(** [dict(getattr(img, 'text', {}))]: the text chunks are an attribute of
    a PNG image; an image of another format has none. *)
Definition text_chunks (img : image) : list (string * string) :=
  if img.(format) =? "PNG" then img.(text) else [].

Definition extract_all_png_metadata (fs : filesystem) (path : path) : result pyval :=
  let wrap (e : exn) : result pyval :=
    Raise (MetadataError ("Failed to extract all metadata from " ++ name path ++ ": "
                            ++ str_exn e)) in
  match Image_open fs path with
  | Raise e => wrap e
  | Ok img =>
      (* Get all text metadata *)
      let metadata := text_chunks img in
      let all_fields := PyDict (map (fun kv => (fst kv, PyStr (snd kv))) metadata) in
      (* Prioritize Comment field if it contains JSON *)
      match lookup metadata "Comment" with
      | Some comment_json =>
          if negb (comment_json =? "") then
            match loads comment_json with
            | Ok parsed => Ok parsed
            | Raise (JSONDecodeError _) =>
                (* Keep all fields if Comment isn't valid JSON *)
                Ok all_fields
            | Raise e => wrap e
            end
          else Ok all_fields
      | None => Ok all_fields
      end
  end.

(* ------------------------------------------------------------------ *)
(** ** core/processor.py: [run_auto_mosaic]                            *)
(* ------------------------------------------------------------------ *)

(** The image files of a directory: the four patterns one after the
    other. *)
Definition image_files_of (fs : filesystem) (d : path) : list path :=
  flat_map (fun ext => iterate (glob fs d ext)) ["*.png"; "*.jpg"; "*.jpeg"; "*.webp"].

(** The body of the loop of [run_auto_mosaic] up to its [continue]s:
    [true] when the progress is to be reported. *)
Definition mosaic_step (meta_map : pyval) (src dst : path) : M bool :=
  try_except
    ((* Run external mosaic script *)
     result <- subprocess_run mosaic src dst ;;
     if negb (fst result =? 0)%Z then
       log ("❌ " ++ name src ++ ": " ++ snd result) ERROR ;;
       ret false
     else
       (* Re-embed metadata *)
       found <- lift (py_find meta_map (name src)) ;;
       match found with
       | Some entry =>
           try_except
             (metadata <- lift entry ;;
              run_fs (fun fs => embed png_keeps_exif fs dst metadata))
             (fun e =>
                log ("Erro ao incorporar metadados em " ++ name dst ++ ": " ++ str_exn e)
                  WARN)
       | None => ret tt
       end ;;
       log ("✅ Processado: " ++ name src) INFO ;;
       ret true)
    (fun e =>
       match e with
       | TimeoutExpired _ =>
           log ("Timeout ao processar " ++ name src) ERROR ;;
           ret false
       | _ =>
           log ("Erro ao processar " ++ name src ++ ": " ++ str_exn e) ERROR ;;
           ret false
       end).

(** The [for i, src in enumerate(image_files, 1)] of [run_auto_mosaic],
    from index [i] on. *)
Fixpoint mosaic_loop (safe_dir : path) (meta_map : pyval) (total_files : nat) (i : nat)
  (image_files : list path) : M unit :=
  match image_files with
  | [] => ret tt
  | src :: rest =>
      let dst := div safe_dir (name src) in
      reported <- mosaic_step meta_map src dst ;;
      (if reported
       then update_progress (percent (Z.of_nat i) (Z.of_nat total_files))
       else ret tt) ;;
      mosaic_loop safe_dir meta_map total_files (S i) rest
  end.

Definition run_auto_mosaic (pack_path : path) : M bool :=
  update_status ("Iniciando processamento automático de mosaico para '" ++ name pack_path
                   ++ "'...") ;;
  try_finally
    (try_except
       ((* Setup directories *)
        let safe_dir := div pack_path "pixiv_safe" in
        change_fs (fun fs => mkdir fs safe_dir) ;;
        let original_images_dir := div pack_path "original_images" in
        fs <- get_fs ;;
        if negb (exists_ fs original_images_dir) then
          log ("Diretório 'original_images' não encontrado em '" ++ name pack_path ++ "'")
            ERROR ;;
          ret false
        else
          (* Load metadata *)
          let metadata_file := div pack_path "metadata.json" in
          if negb (exists_ fs metadata_file) then
            log ("Arquivo 'metadata.json' não encontrado em '" ++ name pack_path ++ "'")
              ERROR ;;
            ret false
          else
            text <- on_fs (fun fs => read_text fs metadata_file) ;;
            meta_map <- lift (loads text) ;;
            (* Get external script paths *)
            let workflow_path := div (div base_dir "external") "PixivMosaicWorkflowAPI.json" in
            let script_path := div (div base_dir "external") "pixivMosaic2.py" in
            if negb (exists_ fs script_path) then
              log ("Script pixivMosaic2.py não encontrado em " ++ str_path script_path)
                ERROR ;;
              ret false
            else if negb (exists_ fs workflow_path) then
              log ("Workflow JSON não encontrado em " ++ str_path workflow_path) ERROR ;;
              ret false
            else
              (* Process images - find all image files *)
              let image_files := image_files_of fs original_images_dir in
              match image_files with
              | [] =>
                  log ("Nenhuma imagem encontrada em '" ++ str_path original_images_dir
                         ++ "'") WARN ;;
                  ret false
              | _ :: _ =>
                  let total_files := List.length image_files in
                  mosaic_loop safe_dir meta_map total_files 1 image_files ;;
                  update_status ("Processamento automático de mosaico concluído para '"
                                   ++ name pack_path ++ "'!") ;;
                  ret true
              end)
       (fun e =>
          log ("ERRO CRÍTICO no processamento de mosaico: " ++ str_exn e) FATAL ;;
          ret false))
    (update_progress 0).

(* ------------------------------------------------------------------ *)
(** ** gui/worker_thread.py: [WorkerThread._auto_mosaic]               *)
(* ------------------------------------------------------------------ *)

(** [metadata_map] as [_auto_mosaic] loads it. *)
Definition worker_metadata_map (metadata_file : path) : M pyval :=
  fs <- get_fs ;;
  if exists_ fs metadata_file then
    match read_text fs metadata_file with
    | Raise e => log ("Erro ao carregar metadados: " ++ str_exn e) WARN ;; ret (PyDict [])
    | Ok text =>
        match loads text with
        | Raise e => log ("Erro ao carregar metadados: " ++ str_exn e) WARN ;; ret (PyDict [])
        | Ok metadata_map =>
            match py_len metadata_map with
            | Raise e =>
                log ("Erro ao carregar metadados: " ++ str_exn e) WARN ;;
                ret metadata_map
            | Ok n =>
                log ("Carregados metadados para " ++ str_nat n ++ " imagens.") INFO ;;
                ret metadata_map
            end
        end
    end
  else ret (PyDict []).

(** The [for i, src_path in enumerate(image_files, 1)] of [_auto_mosaic],
    from index [i] on, with the two counters. *)
Fixpoint worker_loop (mosaic_processor : AutoMosaicProcessor) (pixiv_safe_dir : path)
  (metadata_map : pyval) (total_files : nat) (i : nat) (image_files : list path)
  (processed_count failed_count : nat) : M (nat * nat) :=
  match image_files with
  | [] => ret (processed_count, failed_count)
  | src_path :: rest =>
      let dst_path := div pixiv_safe_dir (name src_path) in
      (* Get metadata for this image *)
      image_metadata <- lift (getattr_get metadata_map (name src_path) (PyDict [])) ;;
      (* Process the image through mosaic workflow with retry and fallback *)
      success <- process_image_with_retry png_keeps_exif mosaic mosaic_processor
                   src_path dst_path true
                   (if truthy image_metadata then image_metadata else PyNone) 2 ;;
      let processed_count := if success then S processed_count else processed_count in
      let failed_count := if success then failed_count else S failed_count in
      (* Update progress *)
      let progress := percent (Z.of_nat i) (Z.of_nat total_files) in
      callback_progress progress ;;
      update_status ("Processando " ++ str_nat i ++ "/" ++ str_nat total_files ++ " - "
                       ++ str_nat processed_count ++ " sucessos, "
                       ++ str_nat failed_count ++ " falhas") ;;
      worker_loop mosaic_processor pixiv_safe_dir metadata_map total_files (S i) rest
        processed_count failed_count
  end.

Definition _auto_mosaic (config : CoreConfig) : W unit :=
  (* Auto-mosaic should process the original_images folder directly *)
  let original_images_dir := div config.(input_folder) "original_images" in
  and_then (of_core get_fs) (fun fs =>
  if negb (exists_ fs original_images_dir) then
    raise_RuntimeError ("Pasta 'original_images' não encontrada em: "
                          ++ str_path config.(input_folder))
  else
    (* Find all image files in original_images *)
    let image_files := image_files_of fs original_images_dir in
    match image_files with
    | [] =>
        raise_RuntimeError ("Nenhuma imagem encontrada em: " ++ str_path original_images_dir)
    | _ :: _ =>
        (* Initialize auto-mosaic processor *)
        let mosaic_processor := new_processor base_dir config.(config_timeout_seconds) in
        and_then (of_core (validate_setup mosaic_processor)) (fun valid =>
        if negb valid then raise_RuntimeError "Configuração do auto-mosaico inválida"
        else
          (* Create pixiv_safe output directory *)
          let pixiv_safe_dir := div config.(input_folder) "pixiv_safe" in
          and_then (of_core (change_fs (fun fs => mkdir fs pixiv_safe_dir))) (fun _ =>
          (* Load metadata if available *)
          let metadata_file := div config.(input_folder) "metadata.json" in
          and_then (of_core (worker_metadata_map metadata_file)) (fun metadata_map =>
          (* Process each image file *)
          let total_files := List.length image_files in
          and_then
            (of_core
               (update_status ("Processando " ++ str_nat total_files
                                 ++ " imagens para auto-mosaico...") ;;
                worker_loop mosaic_processor pixiv_safe_dir metadata_map total_files 1
                  image_files 0 0))
            (fun counts =>
          let (processed_count, failed_count) := (counts : nat * nat) in
          (* Final results *)
          and_then
            (of_core
               (if (failed_count =? 0)%nat then
                  update_status ("Auto-mosaico completo: " ++ str_nat processed_count
                                   ++ " imagens processadas!") ;;
                  log ("SUCESSO: " ++ str_nat processed_count
                         ++ " imagens processadas com sucesso.") SUCCESS
                else
                  log ("AVISO: " ++ str_nat processed_count ++ " sucessos, "
                         ++ str_nat failed_count ++ " falhas.") WARN))
            (fun _ =>
          if (processed_count =? 0)%nat
          then raise_RuntimeError "Nenhuma imagem foi processada com sucesso"
          else done tt)))))
    end).

End Callers.
(* ================================================================== *)
(** * What the specification says, in its own words                    *)
(* ================================================================== *)

(** The nine named anchors: three vertical by three horizontal. *)
Definition anchors : list string :=
  [ "top_left"; "top_center"; "top_right";
    "center_left"; "center"; "center_right";
    "bottom_left"; "bottom_center"; "bottom_right" ].

(** Underscores become spaces and the ends are trimmed. *)
Definition clean (s : string) : string := strip (replace_char "_" " " s).

(** The character name a metadata object gives: the cleaned [character]
    field, when there is one and it is not blank. *)
Definition character_name (image_meta : pyval) : list string :=
  match image_meta with
  | PyDict d =>
      match lookup d "character" with
      | Some (PyStr s) => if clean s =? "" then [] else [clean s]
      | _ => []
      end
  | _ => []
  end.

(** A list without its repetitions, each element where it is first seen. *)
Definition first_seen (l : list string) : list string :=
  rev (nodup string_dec (rev l)).

(** The character list of a pack: the names of its metadata objects, each
    once, in first-seen order, joined by a comma and a space. *)
Definition character_list (pack_metadata : dict) : string :=
  join ", " (first_seen (flat_map character_name (values pack_metadata))).

(** A metadata object as the data model has it: a mapping whose
    [character], when it says anything, is a string. *)
Definition metadata_object (image_meta : pyval) : Prop :=
  exists d, image_meta = PyDict d /\
    forall v, lookup d "character" = Some v -> truthy v = true -> exists s, v = PyStr s.

(** The loop on names that are already clean. *)
Definition add_name (characters : list string) (x : string) : list string :=
  if mem x characters then characters else (characters ++ [x])%list.

(** The description [piexif] gives is of no use: there is no EXIF block, no
    such tag, or the lookup raises. *)
Definition piexif_finds_nothing (img : image) : Prop :=
  img.(info_exif) = false \/ img.(piexif_description) = Absent
  \/ img.(piexif_description) = Fails.

(** [getexif()] is not asked for this format, or finds nothing. *)
Definition getexif_finds_nothing (img : image) : Prop :=
  mem (upper img.(format)) ["JPEG"; "JPG"] = false
  \/ img.(getexif_description) = Absent \/ img.(getexif_description) = Fails.


(** A PNG file the round trip of the metadata is claimed for: a path ending
    in [.png], in a directory, holding an image Pillow opens and can write
    back as a PNG. *)
Definition png_file (fs : filesystem) (path : path) (img : image) : Prop :=
  Image_open fs path = Ok img
  /\ is_dir fs (parent path) = true
  /\ lower (suffix path) = ".png"
  /\ writable "PNG" img.(mode) = true.

(** The serialization is within the ceiling. *)
Definition within_limit (metadata : pyval) : Prop :=
  (Z.of_nat (String.length (dumps metadata)) <= size_limit)%Z.

(** An image file of a pack: its name ends as one of the four patterns. *)
Definition image_patterns : list string := ["*.png"; "*.jpg"; "*.jpeg"; "*.webp"].

(** The names reserved for the directories the pipeline makes. *)
Definition reserved_names : list string :=
  ["original_images"; "free_post"; "preview_Images"; "pixiv_safe"].

(** Pack discovery as the specification states it: the root alone when it
    directly holds an image; otherwise its subdirectories, but for those
    whose name starts with a dot or is a reserved name. *)
Definition discover_spec (fs : filesystem) (root : path) : list path :=
  if existsb (fun pattern =>
                match iterate (glob fs root pattern) with [] => false | _ => true end)
       image_patterns
  then [root]
  else
    filter (fun f => is_dir fs f
                     && negb (startswith (name f) ".")
                     && negb (mem (name f) reserved_names))
      (children fs root).

(** The EXIF block [_process_single_image] prepares for the copies of an
    image: the serialized metadata as the description when there is metadata
    and it is within the ceiling, an empty block otherwise. *)
Definition staged_exif (md : pyval) : exif_bytes :=
  if truthy md && validate_metadata_size md then Description (dumps md) else Empty.

(** The warnings among the entries of a log. *)
Definition is_WARN (entry : LogLevel * string) : bool :=
  match fst entry with WARN => true | _ => false end.

Definition warnings (entries : list (LogLevel * string)) : nat :=
  List.length (filter is_WARN entries).

(** The fallback of the retrying transform on the files: the directory of
    the output is made, then the input is copied to the output. *)
Definition fallback_copy (fs : filesystem) (input_path output_path : path)
  : result filesystem :=
  match mkdir_parents fs (parent output_path) with
  | Ok made => copy2 made input_path output_path
  | Raise e => Raise e
  end.

(** Where [shutil.copy2] puts the copy: inside the destination when that is
    a directory. *)
Definition copy_target (fs : filesystem) (input_path output_path : path) : path :=
  if is_dir fs output_path then div output_path (name input_path) else output_path.

(** ** Sample data for the closed statements *)

(** A PNG image as a generator writes it: its metadata in the Comment text
    chunk, no EXIF block. *)
Definition sample_png (comment : list (string * string)) : image :=
  {| format := "PNG"; mode := "RGB"; size := (512, 768)%Z; pixels := Pixels [7; 7; 7]%Z;
     text := comment; info_exif := false; piexif_description := Absent;
     getexif_description := Absent; has__getexif := true;
     legacy_description := Absent |}.

Definition sample_metadata : dict :=
  [("prompt", PyStr "1girl, solo"); ("character", PyStr "Foo_Bar"); ("steps", PyInt 28)].

(** A pack directory with one PNG that carries [sample_metadata]. *)
Definition sample_pack : filesystem :=
  [ (["pack"], Dir);
    (["pack"; "a.png"],
     File (Picture (sample_png [("Comment", dumps (PyDict sample_metadata))]))) ].

(** A mapping whose serialization is longer than the ceiling. *)
Definition oversize_metadata : dict :=
  [("prompt", PyStr (N.iter 60000 (String "a") ""))].

(** A root that holds two packs and no image of its own. *)
Definition sample_root : filesystem :=
  [ (["packs"], Dir);
    (["packs"; "p1"], Dir);
    (["packs"; "p1"; "a.png"], File (Picture (sample_png [])));
    (["packs"; "p2"], Dir);
    (["packs"; "p2"; "b.jpg"], File (Picture (sample_png [])));
    (["packs"; "notes.txt"], File (Data "todo")) ].

(** A world that has seen nothing yet. *)
Definition start (files : filesystem) : world :=
  {| fs := files; logged := []; progressed := []; statuses := []; runs := [] |}.

(** A JPEG photograph without metadata of its own. *)
Definition sample_jpeg : image :=
  {| format := "JPEG"; mode := "RGB"; size := (800, 600)%Z; pixels := Pixels [9; 9; 9]%Z;
     text := []; info_exif := false; piexif_description := Absent;
     getexif_description := Absent; has__getexif := true;
     legacy_description := Absent |}.

(** A watermark with the settings [WatermarkConfig] defaults to. *)
Definition sample_watermark : WatermarkConfig :=
  {| wm_name := "logo"; wm_path := ["assets"; "logo.png"]; position := "top_right";
     opacity := 0x1.e666666666666p-1; scale := 0x1.6666666666666p-2;
     margin_x := 20; margin_y := 20 |}.

Definition sample_config : CoreConfig :=
  {| input_folder := ["pack"]; watermark := sample_watermark; max_workers := 4;
     config_timeout_seconds := 180 |}.

(** The metadata of a pack: one mapping for each image name. *)
Definition sample_pack_metadata : dict :=
  [("a.png", PyDict sample_metadata); ("b.jpg", PyDict sample_metadata)].

(** A pack as [process_images_and_zip] has prepared it: two images, the
    three output directories, and the watermark file. *)
Definition sample_studio : filesystem :=
  [ (["pack"], Dir);
    (["pack"; "a.png"],
     File (Picture (sample_png [("Comment", dumps (PyDict sample_metadata))])));
    (["pack"; "b.jpg"], File (Picture sample_jpeg));
    (["pack"; "preview_Images"], Dir);
    (["pack"; "free_post"], Dir);
    (["pack"; "temp_for_zip"], Dir);
    (["assets"], Dir);
    (["assets"; "logo.png"],
     File (Picture {| format := "PNG"; mode := "RGBA"; size := (400, 200)%Z;
                      pixels := Pixels [1; 2; 3; 4]%Z; text := []; info_exif := false;
                      piexif_description := Absent; getexif_description := Absent;
                      has__getexif := true; legacy_description := Absent |})) ].

(** A mosaic service that is down: every run ends with an error and writes
    nothing. *)
Definition service_down (k : nat) (fs : filesystem) (input_path output_path : path) : run :=
  {| run_ending := Completed 1 "connection refused"; run_output := None |}.
(** ** Serialization read back *)

(** The values whose serialization is read back as they are: no float,
    and no key twice in a mapping. *)
Fixpoint json_ok (v : pyval) : bool :=
  match v with
  | PyNone | PyBool _ | PyInt _ | PyStr _ => true
  | PyFloat _ => false
  | PyList l => (fix all (l : list pyval) : bool :=
                   match l with [] => true | x :: r => json_ok x && all r end) l
  | PyDict d =>
      (fix all (d : list (string * pyval)) : bool :=
         match d with
         | [] => true
         | (k, x) :: r => negb (mem k (map fst r)) && json_ok x && all r
         end) d
  end.

Fixpoint depth (v : pyval) : nat :=
  match v with
  | PyList l => S ((fix most (l : list pyval) : nat :=
                   match l with [] => 0 | x :: r => Nat.max (depth x) (most r) end) l)
  | PyDict d =>
      S ((fix most (d : list (string * pyval)) : nat :=
         match d with
         | [] => 0
         | (_, x) :: r => Nat.max (depth x) (most r)
         end) d)
  | _ => 0
  end.

Fixpoint list_tail (l : list pyval) : string :=
  match l with
  | [] => "]"
  | y :: l' => "," ++ dumps y ++ list_tail l'
  end.

Fixpoint dict_tail (l : list (string * pyval)) : string :=
  match l with
  | [] => "}"
  | (k, y) :: l' => "," ++ encode_basestring k ++ ":" ++ dumps y ++ dict_tail l'
  end.

Definition delimited (rest : string) : bool :=
  match rest with
  | EmptyString => true
  | String c _ => ((byte c =? 44) || (byte c =? 93) || (byte c =? 125))%N
  end.

Definition not_digit_first (rest : string) : Prop :=
  match rest with
  | EmptyString => True
  | String c _ => is_digit c = false
  end.

Definition canonical (d : uint) : Prop :=
  d = D0 Nil \/ (d <> Nil /\ forall d', d <> D0 d').

(** Evaluates the tests on a character that is known. *)
Ltac known_chars :=
  repeat match goal with
    | |- context [(byte (Ascii ?a ?b ?c ?d ?e ?f ?g ?h) =? ?k)%N] =>
        let t := constr:((byte (Ascii a b c d e f g h) =? k)%N) in
        let v := eval vm_compute in t in change t with v
    | |- context [is_digit (Ascii ?a ?b ?c ?d ?e ?f ?g ?h)] =>
        let t := constr:(is_digit (Ascii a b c d e f g h)) in
        let v := eval vm_compute in t in change t with v
    end.

(** A character a serialized value can start with: it is no white space,
    no closing bracket and not the first byte of a byte-order mark. *)
Definition value_start (c : ascii) : Prop :=
  is_ws c = false /\ (byte c =? 93)%N = false /\ (byte c =? 239)%N = false.

Definition scans (fuel : nat) (v : pyval) : Prop :=
  forall rest, delimited rest = true -> scan_once fuel (dumps v ++ rest) = inr (v, rest).

(** A value that is serialized well and is read back by [scan]. *)
Definition read_back (scan : string -> scan_result pyval) (v : pyval) : Prop :=
  json_ok v = true
  /\ forall rest, delimited rest = true -> scan (dumps v ++ rest) = inr (v, rest).

Fixpoint distinct_keys (d : list (string * pyval)) : bool :=
  match d with
  | [] => true
  | (k, _) :: r => negb (mem k (map fst r)) && distinct_keys r
  end.

(** ** The log of a computation *)

(** The computation only adds entries to the log. *)
Definition grows {A : Type} (m : M A) : Prop :=
  forall w, exists l, logged (snd (m w)) = (logged w ++ l)%list.


(** ** The pack driver *)

(** The file system [fs'] differs from [fs] at the path [o] at most, and
    has a file or directory there if [fs] has. *)
Definition touches_only (o : path) (fs fs' : filesystem) : Prop :=
  (forall q, q <> o -> stat fs' q = stat fs q)
  /\ (exists_ fs o = true -> exists_ fs' o = true).

(** The progress values a pack of [total] images reports: after the image
    of index [i] the integer part of [i / total * 100], and 0 at the end. *)
Definition pack_progress (total : nat) : list Z :=
  match total with
  | O => []
  | _ =>
      (map (fun i => Z.max 0 (Z.min 100 (percent (Z.of_nat i) (Z.of_nat total))))
         (seq 1 total) ++ [0%Z])%list
  end.

(** The last status of a pack, with the two tallies. *)
Definition final_status (processed_count failed_count : nat) : string :=
  if (failed_count =? 0)%nat then
    "✅ Processamento completo: " ++ str_nat processed_count
      ++ " imagens processadas com sucesso!"
  else
    "⚠️ Processamento completo: " ++ str_nat processed_count ++ " sucessos, "
      ++ str_nat failed_count ++ " falhas".

(** An installation with the mosaic script and its workflow, and a pack of
    three images with their metadata. *)
Definition sample_mosaic_pack : filesystem :=
  [ (["app"], Dir);
    (["app"; "external"], Dir);
    (["app"; "external"; "PixivMosaicWorkflowAPI.json"], File (Data "{}"));
    (["app"; "external"; "pixivMosaic2.py"], File (Data "import sys"));
    (["pack"], Dir);
    (["pack"; "metadata.json"], File (Data (dumps (PyDict sample_pack_metadata))));
    (["pack"; "original_images"], Dir);
    (["pack"; "original_images"; "a.png"],
     File (Picture (sample_png [("Comment", dumps (PyDict sample_metadata))])));
    (["pack"; "original_images"; "b.jpg"], File (Picture sample_jpeg));
    (["pack"; "original_images"; "c.png"], File (Picture (sample_png []))) ].

Definition sample_processor : AutoMosaicProcessor := new_processor ["app"] 180.

(** A mosaic service that works: every run ends well and writes the input
    image, censored, at the output path. *)
Definition service_up (k : nat) (fs : filesystem) (input_path output_path : path) : run :=
  {| run_ending := Completed 0 "";
     run_output :=
       match Image_open fs input_path with
       | Ok img => Some (Picture (with_pixels img (Encoded "mosaic" None img.(pixels))))
       | Raise _ => None
       end |}.

(** ** More sample data and relations between worlds *)

(** An RGBA drawing under a JPEG name. *)
Definition sample_rgba : image :=
  {| format := "PNG"; mode := "RGBA"; size := (64, 64)%Z; pixels := Pixels [1; 2; 3; 4]%Z;
     text := []; info_exif := false; piexif_description := Absent;
     getexif_description := Absent; has__getexif := true;
     legacy_description := Absent |}.

Definition sample_album : filesystem :=
  [ (["album"], Dir);
    (["album"; "photo.jpg"], File (Picture sample_jpeg));
    (["album"; "drawing.jpg"], File (Picture sample_rgba));
    (["album"; "notes.gif"], File (Data "GIF89a")) ].
(** The computation starts the mosaic script [n] times at most, each time
    for the input [i] and the output [o]. *)
Definition launches {A : Type} (n : nat) (i o : path) (m : M A) : Prop :=
  forall w, exists l,
    runs (snd (m w)) = (runs w ++ l)%list
    /\ (List.length l <= n)%nat
    /\ Forall (eq (i, o)) l.

(** The computation calls neither the progress nor the status callback. *)
Definition quiet {A : Type} (m : M A) : Prop :=
  forall w, progressed (snd (m w)) = progressed w /\ statuses (snd (m w)) = statuses w.

(** The file system [fs'] differs from [fs] at the path [o] at most, where
    it has what [fs] has or a file. *)
Definition file_written (o : path) (fs fs' : filesystem) : Prop :=
  (forall q, q <> o -> stat fs' q = stat fs q)
  /\ (stat fs' o = stat fs o \/ exists c, stat fs' o = Some (File c)).

(** A PNG image that carries a description in an EXIF block. *)
Definition sample_exif_png : image :=
  {| format := "PNG"; mode := "RGB"; size := (64, 64)%Z; pixels := Pixels [5; 5; 5]%Z;
     text := [("Software", "generator")]; info_exif := true;
     piexif_description := Found (Bytes (dumps (PyDict [("source", PyStr "description")])));
     getexif_description := Absent; has__getexif := true;
     legacy_description := Found (dumps (PyDict [("source", PyStr "description")])) |}.

Definition sample_exif_pack : filesystem :=
  [ (["pack"], Dir); (["pack"; "e.png"], File (Picture sample_exif_png)) ].

(** A configuration whose watermark file is not there. *)
Definition sample_config_without_watermark : CoreConfig :=
  {| input_folder := ["pack"];
     watermark :=
       {| wm_name := "logo"; wm_path := ["assets"; "missing.png"]; position := "top_right";
          opacity := 0x1.e666666666666p-1; scale := 0x1.6666666666666p-2;
          margin_x := 20; margin_y := 20 |};
     max_workers := 4; config_timeout_seconds := 180 |}.
(* ================================================================== *)
(** * Properties                                                       *)
(* ================================================================== *)

(** ** Watermark placement *)

Lemma positions_keys : forall bw bh ww wh mx my,
  map fst (positions bw bh ww wh mx my) = anchors.
Proof. reflexivity. Qed.

Lemma lookup_not_key : forall (A : Type) (d : list (string * A)) (k : string),
  ~ In k (map fst d) -> lookup d k = None.
Proof.
  induction d as [|[k' v] d IH]; intros k Hk; simpl in *.
  - reflexivity.
  - destruct (String.eqb_spec k' k) as [->|Hne].
    + exfalso. apply Hk. now left.
    + apply IH. intro Hin. apply Hk. now right.
Qed.

(** C8. With the anchor "bottom_right", a base of 1000 by 800, a watermark of
    200 by 100 and margins (20, 20), [_calculate_position] gives (780, 680);
    and for an anchor name that is none of the nine it gives what
    "top_right" gives for the same dimensions and margins, namely
    (base_width - wm_width - margin_x, margin_y). *)
Theorem calculate_position_anchors :
  _calculate_position 1000 800 200 100 "bottom_right" 20 20 = (780, 680)%Z /\
  forall base_width base_height wm_width wm_height position margin_x margin_y,
    ~ In position anchors ->
    _calculate_position base_width base_height wm_width wm_height position margin_x margin_y
    = _calculate_position base_width base_height wm_width wm_height "top_right"
        margin_x margin_y
    /\ _calculate_position base_width base_height wm_width wm_height position
         margin_x margin_y
       = (base_width - wm_width - margin_x, margin_y)%Z.
Proof.
  split; [reflexivity|].
  intros bw bh ww wh position mx my Hnot.
  unfold _calculate_position, dict_get.
  rewrite (lookup_not_key _ (positions bw bh ww wh mx my) position)
    by (rewrite positions_keys; exact Hnot).
  split; reflexivity.
Qed.

Lemma calculate_position_anchors_witness :
  ~ In "middle" anchors /\
  _calculate_position 1920 1080 300 150 "middle" 20 30 = (1600, 30)%Z.
Proof.
  assert (H : ~ In "middle" anchors).
  { simpl. intros H. repeat (destruct H as [H|H]; [discriminate H|]). exact H. }
  split; [exact H|].
  exact (proj2 (proj2 calculate_position_anchors 1920 1080 300 150 "middle" 20 30 H))%Z.
Defined.

(** ** Embedding nothing *)

(** C10. [embed] with an empty mapping returns at once, whatever the path:
    no error is raised and the file system is the one it was given, be the
    suffix unsupported or the file missing. *)
Theorem embed_empty_mapping : forall keeps_exif fs path,
  embed keeps_exif fs path (PyDict []) = (Ok tt, fs).
Proof. intros. reflexivity. Qed.

(** ** The character list *)

Lemma mem_In : forall x l, mem x l = true <-> In x l.
Proof.
  intros x l. unfold mem. rewrite existsb_exists. split.
  - intros (y & Hy & Heq). apply String.eqb_eq in Heq. now subst.
  - intros H. exists x. split; [exact H|apply String.eqb_refl].
Qed.


Lemma first_seen_In : forall x l, In x (first_seen l) <-> In x l.
Proof.
  intros x l. unfold first_seen. rewrite <- in_rev, nodup_In, <- in_rev. reflexivity.
Qed.

Lemma first_seen_snoc : forall l x,
  first_seen (l ++ [x]) = add_name (first_seen l) x.
Proof.
  intros l x. unfold first_seen, add_name.
  rewrite rev_app_distr. simpl.
  destruct (in_dec string_dec x (rev l)) as [Hin|Hnin].
  - assert (Hm : mem x (rev (nodup string_dec (rev l))) = true).
    { apply mem_In. rewrite <- in_rev, nodup_In. exact Hin. }
    now rewrite Hm.
  - assert (Hm : mem x (rev (nodup string_dec (rev l))) = false).
    { apply not_true_is_false. intro H. apply mem_In in H.
      rewrite <- in_rev, nodup_In in H. contradiction. }
    rewrite Hm. reflexivity.
Qed.

Lemma fold_add_name : forall l, fold_left add_name l [] = first_seen l.
Proof.
  induction l as [|x l IH] using rev_ind.
  - reflexivity.
  - rewrite fold_left_app. simpl. rewrite IH. symmetry. apply first_seen_snoc.
Qed.

Lemma character_step_spec : forall characters image_meta,
  metadata_object image_meta ->
  character_step characters image_meta
  = Ok (fold_left add_name (character_name image_meta) characters).
Proof.
  intros characters image_meta (d & -> & Hstr).
  unfold character_step, getattr_get, dict_get, character_name.
  destruct (lookup d "character") as [v|] eqn:Hl.
  - destruct (truthy v) eqn:Ht.
    + destruct (Hstr v eq_refl Ht) as (s & ->).
      unfold getattr_replace. fold (clean s).
      destruct (clean s =? "") eqn:He; simpl.
      * reflexivity.
      * unfold add_name. destruct (mem (clean s) characters); reflexivity.
    + destruct v as [ |b|z|lit|s|l|d']; try reflexivity.
      simpl in Ht. apply negb_false_iff in Ht. apply String.eqb_eq in Ht. subst s.
      reflexivity.
  - reflexivity.
Qed.

Lemma character_loop_spec : forall metas characters,
  Forall metadata_object metas ->
  character_loop characters metas
  = Ok (fold_left add_name (flat_map character_name metas) characters).
Proof.
  induction metas as [|m metas IH]; intros characters H; simpl.
  - reflexivity.
  - inversion H as [|? ? Hm Hrest]; subst.
    rewrite (character_step_spec characters m Hm).
    rewrite (IH _ Hrest). rewrite fold_left_app. reflexivity.
Qed.

(** C9. For a pack whose metadata objects are mappings with a string for
    [character], [create_character_list] gives the character names (the
    [character] fields with underscores replaced by spaces and trimmed), each
    once and in first-seen order, letter case kept apart, joined by ", ".
    The pack a.png: Foo_Bar, b.png: foo_bar, c.png: nothing gives
    "Foo Bar, foo bar". *)
Theorem create_character_list_first_seen :
  (forall pack_metadata,
     Forall metadata_object (values pack_metadata) ->
     create_character_list pack_metadata = Ok (character_list pack_metadata))
  /\ create_character_list
       [ ("a.png", PyDict [("character", PyStr "Foo_Bar")]);
         ("b.png", PyDict [("character", PyStr "foo_bar")]);
         ("c.png", PyDict []) ]
     = Ok "Foo Bar, foo bar".
Proof.
  split; [|reflexivity].
  intros pack_metadata H. unfold create_character_list, character_list.
  rewrite (character_loop_spec _ [] H). rewrite fold_add_name. reflexivity.
Qed.

Lemma create_character_list_first_seen_witness :
  Forall metadata_object
    (values [ ("x.png", PyDict [("character", PyStr " Ann_Lee ")]);
              ("y.jpg", PyDict [("character", PyNone); ("artist", PyStr "z")]);
              ("z.png", PyDict [("character", PyStr "Ann Lee")]) ])
  /\ create_character_list
       [ ("x.png", PyDict [("character", PyStr " Ann_Lee ")]);
         ("y.jpg", PyDict [("character", PyNone); ("artist", PyStr "z")]);
         ("z.png", PyDict [("character", PyStr "Ann Lee")]) ]
     = Ok "Ann Lee".
Proof.
  assert (H : Forall metadata_object
    (values [ ("x.png", PyDict [("character", PyStr " Ann_Lee ")]);
              ("y.jpg", PyDict [("character", PyNone); ("artist", PyStr "z")]);
              ("z.png", PyDict [("character", PyStr "Ann Lee")]) ])).
  { simpl. repeat constructor.
    - eexists. split; [reflexivity|]. simpl. intros v Hv _. injection Hv as <-. now eexists.
    - eexists. split; [reflexivity|]. simpl. intros v Hv Ht. injection Hv as <-. discriminate Ht.
    - eexists. split; [reflexivity|]. simpl. intros v Hv _. injection Hv as <-. now eexists. }
  split; [exact H|].
  rewrite (proj1 create_character_list_first_seen _ H). reflexivity.
Defined.

(** ** Extraction *)

Lemma loads_raises_ValueError : forall s e,
  loads s = Raise e -> is_ValueError e = true.
Proof.
  intros s e. unfold loads, decode_error.
  destruct (startswith s BOM).
  - intros H. injection H as <-. reflexivity.
  - destruct (scan_once (S (String.length s)) (skip_ws s)) as [[msg rest]|[obj rest]].
    + intros H. injection H as <-. reflexivity.
    + destruct (skip_ws rest =? ""); intros H; [discriminate H|].
      injection H as <-. reflexivity.
Qed.

Lemma loads_empty_object : loads "{}" = Ok (PyDict []).
Proof. reflexivity. Qed.

Lemma extract_png_open : forall fs path img,
  Image_open fs path = Ok img ->
  extract_png fs path
  = match loads (metadata_source img) with
    | Ok parsed_metadata => Ok parsed_metadata
    | Raise e =>
        Ok (raw_fallback (fst (read_fields img)) (snd (read_fields img))
              (metadata_source img) e)
    end.
Proof.
  intros fs path img Hopen. unfold extract_png, metadata_source. rewrite Hopen.
  destruct (read_fields img) as [png_comment exif_description]. simpl.
  destruct (loads (or_else exif_description (or_else png_comment "{}"))) as [v|e] eqn:Hl.
  - reflexivity.
  - now rewrite (loads_raises_ValueError _ _ Hl).
Qed.




Lemma piexif_nothing : forall img,
  piexif_finds_nothing img ->
  (if img.(info_exif)
   then match img.(piexif_description) with
        | Found (Bytes raw_desc) =>
            match decode_utf8 raw_desc with Ok s => s | Raise _ => "" end
        | Found (NotBytes s) => s
        | Absent | Fails => ""
        end
   else "") = "".
Proof.
  intros img [H|[H|H]]; rewrite H; [reflexivity| |]; now destruct (info_exif img).
Qed.

Lemma getexif_nothing : forall img,
  getexif_finds_nothing img ->
  (if true && mem (upper img.(format)) ["JPEG"; "JPG"]
   then match img.(getexif_description) with
        | Found s => s
        | Absent | Fails => ""
        end
   else "") = "".
Proof.
  intros img [H|[H|H]]; rewrite H; [reflexivity| |];
    now destruct (mem (upper (format img)) ["JPEG"; "JPG"]).
Qed.


Lemma dumps_list : forall x r, dumps (PyList (x :: r)) = "[" ++ dumps x ++ list_tail r.
Proof. reflexivity. Qed.

Lemma dumps_dict : forall k x r,
  dumps (PyDict ((k, x) :: r)) = "{" ++ encode_basestring k ++ ":" ++ dumps x ++ dict_tail r.
Proof. reflexivity. Qed.

Lemma pyval_induction : forall P : pyval -> Prop,
  P PyNone -> (forall b, P (PyBool b)) -> (forall z, P (PyInt z)) ->
  (forall lit, P (PyFloat lit)) -> (forall s, P (PyStr s)) ->
  (forall l, Forall P l -> P (PyList l)) ->
  (forall d, Forall (fun kv => P (snd kv)) d -> P (PyDict d)) ->
  forall v, P v.
Proof.
  intros P Hn Hb Hi Hf Hs Hl Hd.
  fix IH 1. intros [ |b|z|lit|s|l|d].
  - apply Hn.
  - apply Hb.
  - apply Hi.
  - apply Hf.
  - apply Hs.
  - apply Hl. induction l as [|x l IHl]; constructor; [apply IH|exact IHl].
  - apply Hd. induction d as [|[k x] d IHd]; constructor; [apply IH|exact IHd].
Qed.

(** *** Strings *)


Lemma append_assoc : forall a b c : string, (a ++ b) ++ c = a ++ (b ++ c).
Proof. induction a as [|x a IH]; intros; simpl; [reflexivity|now rewrite IH]. Qed.

Lemma append_nil_r : forall a : string, a ++ "" = a.
Proof. induction a as [|x a IH]; simpl; [reflexivity|now rewrite IH]. Qed.

Lemma length_append : forall a b : string,
  String.length (a ++ b) = String.length a + String.length b.
Proof. induction a as [|x a IH]; intros; simpl; [reflexivity|now rewrite IH]. Qed.

Lemma byte_inv : forall c n, byte c = n -> c = ascii_of_N n.
Proof. intros c n <-. unfold byte. symmetry. apply ascii_N_embedding. Qed.

Lemma byte_bound : forall c, (byte c < 256)%N.
Proof. intros c. apply N_ascii_bounded. Qed.

Lemma hex_val_digit : forall k, (k < 16)%N -> hex_val (hex_digit k) = Some k.
Proof.
  intros k Hk. rewrite <- (N2Nat.id k). 
  assert (Hn : N.to_nat k < 16) by lia.
  revert Hn. generalize (N.to_nat k). intros n Hn.
  do 16 (destruct n as [|n]; [reflexivity|]). lia.
Qed.

Lemma control_case : forall n, (n < 32)%N ->
  forall P : N -> Prop, (forall m, m < 32 -> P (N.of_nat m)) -> P n.
Proof. intros n Hn P H. rewrite <- (N2Nat.id n). apply H. lia. Qed.

Lemma scanstring_unfold : forall fuel begin c r,
  scanstring (S fuel) begin (String c r) =
  let continue (piece rest : string) : scan_result string :=
    match scanstring fuel begin rest with
    | inl err => inl err
    | inr (t, rest') => inr (piece ++ t, rest')
    end in
  if (byte c =? 34)%N then inr (EmptyString, r)
  else if (byte c =? 92)%N then
    match r with
    | EmptyString => inl ("Unterminated string starting at", begin)
    | String e r2 =>
        if (byte e =? 117)%N then
          match hex4 r2 with
          | None => inl ("Invalid \uXXXX escape", r)
          | Some (uni, r6) =>
              if r6 =? "" then inl ("Invalid \uXXXX escape", r)
              else if ((55296 <=? uni) && (uni <=? 56319))%N
                      && (6 <? String.length r6)%nat
              then
                match r6 with
                | String b1 (String u1 r8) =>
                    if ((byte b1 =? 92) && (byte u1 =? 117))%N then
                      match hex4 r8 with
                      | None => inl ("Invalid \uXXXX escape", String u1 r8)
                      | Some (uni2, r12) =>
                          if ((56320 <=? uni2) && (uni2 <=? 57343))%N
                          then continue
                                 (chr (65536 + ((uni - 55296) * 1024 + (uni2 - 56320))))
                                 r12
                          else continue (chr uni) r6
                      end
                    else continue (chr uni) r6
                | _ => continue (chr uni) r6
                end
              else continue (chr uni) r6
          end
        else
          match unescape e with
          | None => inl ("Invalid \escape", String c r)
          | Some ch => continue (char ch) r2
          end
    end
  else if (byte c <? 32)%N then inl ("Invalid control character at", String c r)
  else continue (char c) r.
Proof. reflexivity. Qed.

Lemma scanstring_escape_char : forall fuel begin c tail,
  tail <> "" ->
  scanstring (S fuel) begin (escape_char c ++ tail) =
  match scanstring fuel begin tail with
  | inl err => inl err
  | inr (t, rest) => inr (String c t, rest)
  end.
Proof.
  intros fuel begin c tail Htail.
  assert (Ht : (tail =? "") = false) by (now apply String.eqb_neq).
  unfold escape_char.
  destruct (N.eqb_spec (byte c) 92) as [H|H92]; [apply byte_inv in H; subst c; reflexivity|].
  destruct (N.eqb_spec (byte c) 34) as [H|H34]; [apply byte_inv in H; subst c; reflexivity|].
  destruct (N.eqb_spec (byte c) 8) as [H|H8]; [apply byte_inv in H; subst c; reflexivity|].
  destruct (N.eqb_spec (byte c) 12) as [H|H12]; [apply byte_inv in H; subst c; reflexivity|].
  destruct (N.eqb_spec (byte c) 10) as [H|H10]; [apply byte_inv in H; subst c; reflexivity|].
  destruct (N.eqb_spec (byte c) 13) as [H|H13]; [apply byte_inv in H; subst c; reflexivity|].
  destruct (N.eqb_spec (byte c) 9) as [H|H9]; [apply byte_inv in H; subst c; reflexivity|].
  destruct (N.ltb_spec (byte c) 32) as [Hlt|Hge].
  - pose proof (byte_inv c _ eq_refl) as Hc.
    remember (byte c) as n eqn:Hn. clear Hn.
    cbn [append]. rewrite scanstring_unfold. cbv zeta.
    replace (byte backslash) with 92%N by reflexivity.
    cbn [N.eqb Pos.eqb].
    replace (byte "u") with 117%N by reflexivity. cbn [N.eqb Pos.eqb].
    unfold hex4, char. cbn [append].
    replace (hex_val "0") with (Some 0%N) by reflexivity.
    rewrite (hex_val_digit (n / 16)) by (apply N.Div0.div_lt_upper_bound; lia).
    rewrite (hex_val_digit (n mod 16)) by (apply N.mod_lt; lia).
    rewrite Ht.
    replace ((((0 * 16 + 0) * 16 + n / 16) * 16 + n mod 16))%N with n
      by (rewrite (N.div_mod n 16) at 1 by lia; lia).
    replace ((55296 <=? n)%N) with false by (symmetry; apply N.leb_gt; lia).
    cbn [andb].
    unfold chr. replace (n <? 128)%N with true by (symmetry; apply N.ltb_lt; lia).
    unfold char. rewrite <- Hc. reflexivity.
  - unfold char. cbn [append]. rewrite scanstring_unfold. cbv zeta.
    replace (byte c =? 34)%N with false by (symmetry; now apply N.eqb_neq).
    replace (byte c =? 92)%N with false by (symmetry; now apply N.eqb_neq).
    replace (byte c <? 32)%N with false by (symmetry; apply N.ltb_ge; lia).
    reflexivity.
Qed.

Lemma append_not_nil : forall a c r, a ++ String c r <> "".
Proof. intros [|x a] c r; simpl; discriminate. Qed.

Lemma scanstring_escape : forall s fuel begin rest,
  String.length s < fuel ->
  scanstring fuel begin (escape s ++ String dquote rest) = inr (s, rest).
Proof.
  induction s as [|c s IH]; intros fuel begin rest Hfuel.
  - destruct fuel as [|fuel]; [inversion Hfuel|]. reflexivity.
  - destruct fuel as [|fuel]; [inversion Hfuel|].
    cbn [escape]. rewrite append_assoc.
    rewrite scanstring_escape_char by apply append_not_nil.
    rewrite IH by (simpl in Hfuel; lia). reflexivity.
Qed.

Lemma length_escape_char : forall c, 1 <= String.length (escape_char c).
Proof.
  intros c. unfold escape_char.
  repeat match goal with |- context [if ?b then _ else _] => destruct b end;
    simpl; lia.
Qed.

Lemma length_escape : forall s, String.length s <= String.length (escape s).
Proof.
  induction s as [|c s IH]; simpl; [lia|].
  rewrite length_append. pose proof (length_escape_char c). lia.
Qed.

(** *** Integers *)


Lemma span_digits_uint : forall d rest,
  not_digit_first rest ->
  span_digits (NilEmpty.string_of_uint d ++ rest) = (NilEmpty.string_of_uint d, rest).
Proof.
  induction d; intros rest Hrest; cbn [NilEmpty.string_of_uint append];
    try (cbn [span_digits]; replace (is_digit _) with true by reflexivity;
         rewrite (IHd rest Hrest); reflexivity).
  destruct rest as [|c r]; [reflexivity|]. simpl in Hrest. cbn [span_digits].
  now rewrite Hrest.
Qed.

Lemma to_uint_canonical : forall p, canonical (Pos.to_uint p).
Proof.
  intros p. right.
  assert (Hu : unorm (Pos.to_uint p) = Pos.to_uint p).
  { rewrite <- (DecimalPos.Unsigned.to_of (Pos.to_uint p)).
    rewrite DecimalPos.Unsigned.of_to. reflexivity. }
  split.
  - apply DecimalPos.Unsigned.to_uint_nonnil.
  - intros d' Hd'.
    destruct (uint_eq_dec (nzhead (Pos.to_uint p)) Nil) as [Hnil|Hnn].
    + apply (DecimalPos.Unsigned.to_uint_nonzero p).
      rewrite <- Hu. apply unorm_0. exact Hnil.
    + rewrite (unorm_nzhead _ Hnn) in Hu.
      apply (nzhead_nonzero (Pos.to_uint p) d'). now rewrite Hu.
Qed.

Lemma str_int_shape : forall z,
  exists (neg : bool) (d : uint),
    canonical d
    /\ str_int z = (if neg then "-" else "") ++ NilEmpty.string_of_uint d
    /\ Z.of_int (if neg then Decimal.Neg d else Decimal.Pos d) = z.
Proof.
  intros z. pose proof (DecimalZ.of_to z) as Hz. unfold str_int.
  destruct z as [|p|p]; cbn [Z.to_int] in *.
  - exists false, (D0 Nil). split; [now left|]. split; reflexivity.
  - exists false, (Pos.to_uint p). split; [apply to_uint_canonical|].
    split; [|exact Hz].
    cbn [NilZero.string_of_int NilZero.string_of_uint].
    pose proof (DecimalPos.Unsigned.to_uint_nonnil p).
    destruct (Pos.to_uint p); [contradiction|reflexivity..].
  - exists true, (Pos.to_uint p). split; [apply to_uint_canonical|].
    split; [|exact Hz].
    cbn [NilZero.string_of_int NilZero.string_of_uint].
    pose proof (DecimalPos.Unsigned.to_uint_nonnil p).
    destruct (Pos.to_uint p); [contradiction|reflexivity..].
Qed.

Lemma delimited_not_digit : forall rest, delimited rest = true -> not_digit_first rest.
Proof.
  intros [|c r] H; simpl in *; [exact I|]. unfold is_digit.
  destruct (N.eqb_spec (byte c) 44) as [->|]; [reflexivity|].
  destruct (N.eqb_spec (byte c) 93) as [->|]; [reflexivity|].
  destruct (N.eqb_spec (byte c) 125) as [->|]; [reflexivity|]. discriminate H.
Qed.

Lemma delimited_cases : forall rest,
  delimited rest = true ->
  rest = "" \/ exists c r, rest = String c r /\ (byte c = 44 \/ byte c = 93 \/ byte c = 125)%N.
Proof.
  intros [|c r] H; [now left|right]. exists c, r. split; [reflexivity|].
  simpl in H.
  destruct (N.eqb_spec (byte c) 44); [now left|].
  destruct (N.eqb_spec (byte c) 93); [right; now left|].
  destruct (N.eqb_spec (byte c) 125); [right; now right|]. discriminate H.
Qed.

(** What [match_number] does once the integer part is read, before a
    delimiter. *)
Lemma match_number_after : forall sign ds rest,
  delimited rest = true ->
  (let (frac, s3) :=
     match rest with
     | String c r =>
         if (byte c =? 46)%N then
           let (fs, rest') := span_digits r in
           if fs =? "" then ("", rest) else ("." ++ fs, rest')
         else ("", rest)
     | EmptyString => ("", rest)
     end in
   let (exp, s4) :=
     match s3 with
     | String c r =>
         if ((byte c =? 101) || (byte c =? 69))%N then
           let (sg, r') :=
             match r with
             | String g r1 =>
                 if ((byte g =? 45) || (byte g =? 43))%N then (char g, r1) else ("", r)
             | EmptyString => ("", r)
             end in
           let (es, rest') := span_digits r' in
           if es =? "" then ("", s3) else (char c ++ sg ++ es, rest')
         else ("", s3)
     | EmptyString => ("", s3)
     end in
   Some (sign ++ ds, frac, exp, s4))
  = Some (sign ++ ds, "", "", rest).
Proof.
  intros sign ds rest H.
  destruct (delimited_cases rest H) as [->|(c & r & -> & Hc)]; [reflexivity|].
  assert (H46 : (byte c =? 46)%N = false) by (apply N.eqb_neq; lia).
  assert (H101 : (byte c =? 101)%N = false) by (apply N.eqb_neq; lia).
  assert (H69 : (byte c =? 69)%N = false) by (apply N.eqb_neq; lia).
  rewrite H46, H101, H69. reflexivity.
Qed.

Lemma match_number_int : forall (neg : bool) d rest,
  canonical d -> delimited rest = true ->
  match_number ((if neg then "-" else "") ++ NilEmpty.string_of_uint d ++ rest)
  = Some ((if neg then "-" else "") ++ NilEmpty.string_of_uint d, "", "", rest).
Proof.
  intros neg d rest Hd Hrest.
  pose proof (delimited_not_digit rest Hrest) as Hnd.
  pose proof (span_digits_uint d rest Hnd) as Hspan.
  pose proof (match_number_after (if neg then "-" else "") (NilEmpty.string_of_uint d)
                rest Hrest) as Hafter.
  unfold match_number.
  destruct Hd as [->|[Hnil Hnz]].
  - destruct neg; exact Hafter.
  - destruct d as [|d|d|d|d|d|d|d|d|d|d];
      [contradiction|exfalso; now apply (Hnz d)|..];
      destruct neg; cbn [append NilEmpty.string_of_uint] in *;
      known_chars; cbv beta iota; known_chars; cbv beta iota;
      rewrite Hspan; exact Hafter.
Qed.

Lemma parse_int_shape : forall (neg : bool) d,
  canonical d ->
  parse_int ((if neg then "-" else "") ++ NilEmpty.string_of_uint d)
  = Z.of_int (if neg then Decimal.Neg d else Decimal.Pos d).
Proof.
  intros neg d Hd. unfold parse_int.
  pose proof (NilEmpty.usu d) as Husu.
  destruct neg.
  - cbn [append]. known_chars. cbv beta iota. rewrite Husu. reflexivity.
  - cbn [append].
    destruct Hd as [->|[Hnil Hnz]]; [reflexivity|].
    destruct d; [contradiction|..]; cbn [NilEmpty.string_of_uint] in *;
      known_chars; cbv beta iota; rewrite Husu; reflexivity.
Qed.

Lemma match_number_str_int : forall z rest,
  delimited rest = true ->
  match_number (str_int z ++ rest) = Some (str_int z, "", "", rest)
  /\ parse_int (str_int z) = z.
Proof.
  intros z rest Hrest.
  destruct (str_int_shape z) as (neg & d & Hd & -> & Hz).
  rewrite append_assoc. split.
  - now apply match_number_int.
  - rewrite parse_int_shape by exact Hd. exact Hz.
Qed.

(** The first character of the text of an integer. *)
Lemma str_int_head : forall z,
  exists c r, str_int z = String c r /\ (byte c = 45%N \/ is_digit c = true).
Proof.
  intros z. destruct (str_int_shape z) as (neg & d & Hd & -> & _).
  destruct neg.
  - eexists _, _. split; [reflexivity|now left].
  - destruct Hd as [->|[Hnil Hnz]].
    + eexists _, _. split; [reflexivity|now right].
    + destruct d; [contradiction|..];
        (eexists _, _; split; [reflexivity|now right]).
Qed.

(** *** Values *)


Lemma substring_all : forall s, substring 0 (String.length s) s = s.
Proof. induction s as [|c s IH]; simpl; [reflexivity|now rewrite IH]. Qed.

Lemma substring_drop : forall a b : string,
  substring (String.length a) (String.length (a ++ b) - String.length a) (a ++ b) = b.
Proof.
  induction a as [|c a IH]; intros b.
  - simpl. rewrite Nat.sub_0_r. apply substring_all.
  - simpl. apply IH.
Qed.

Lemma skip_ws_id : forall c r, is_ws c = false -> skip_ws (String c r) = String c r.
Proof. intros c r H. simpl. now rewrite H. Qed.

Lemma skip_ws_delimited : forall rest, delimited rest = true -> skip_ws rest = rest.
Proof.
  intros rest H. destruct (delimited_cases rest H) as [->|(c & r & -> & Hc)]; [reflexivity|].
  apply skip_ws_id. unfold is_ws.
  destruct Hc as [->|[->| ->]]; reflexivity.
Qed.

Lemma dumps_head : forall v,
  json_ok v = true -> exists c r, dumps v = String c r /\ value_start c.
Proof.
  intros [ |[|]|z|lit|s|[|x l]|[|[k x] d]] H; try discriminate H;
    try (eexists _, _; split; [reflexivity|repeat split; reflexivity]).
  destruct (str_int_head z) as (c & r & Hz & Hc). exists c, r. split; [exact Hz|].
  unfold value_start, is_ws. unfold is_digit in Hc.
  destruct Hc as [->|Hc]; [repeat split; reflexivity|].
  apply andb_true_iff in Hc. destruct Hc as [H1 H2].
  apply N.leb_le in H1. apply N.leb_le in H2.
  repeat split;
    repeat (apply orb_false_intro); apply N.eqb_neq; lia.
Qed.

Lemma skip_ws_dumps : forall v rest,
  json_ok v = true -> skip_ws (dumps v ++ rest) = dumps v ++ rest.
Proof.
  intros v rest H. destruct (dumps_head v H) as (c & r & -> & Hws & _).
  cbn [append]. now apply skip_ws_id.
Qed.

Lemma scan_once_unfold : forall fuel c r,
  scan_once (S fuel) (String c r) =
  let s := String c r in
  if (byte c =? 34)%N then
    match scanstring (String.length r) s r with
    | inl err => inl err
    | inr (t, rest) => inr (PyStr t, rest)
    end
  else if (byte c =? 123)%N then JSONObject (scan_once fuel) r
  else if (byte c =? 91)%N then JSONArray (scan_once fuel) r
  else if String.prefix "null" s then inr (PyNone, substring 4 (String.length s - 4) s)
  else if String.prefix "true" s then inr (PyBool true, substring 4 (String.length s - 4) s)
  else if String.prefix "false" s then inr (PyBool false, substring 5 (String.length s - 5) s)
  else
    match match_number s with
    | Some (integer, frac, exp, rest) =>
        if (frac =? "") && (exp =? "") then inr (PyInt (parse_int integer), rest)
        else inr (PyFloat (integer ++ frac ++ exp), rest)
    | None =>
        if String.prefix "NaN" s then inr (PyFloat "NaN", substring 3 (String.length s - 3) s)
        else if String.prefix "Infinity" s
        then inr (PyFloat "Infinity", substring 8 (String.length s - 8) s)
        else if String.prefix "-Infinity" s
        then inr (PyFloat "-Infinity", substring 9 (String.length s - 9) s)
        else inl ("Expecting value", s)
    end.
Proof. reflexivity. Qed.

Lemma prefix_head : forall (a c : ascii) (p r : string),
  a <> c -> String.prefix (String a p) (String c r) = false.
Proof.
  intros a c p r H. cbn [String.prefix]. destruct (ascii_dec a c); [contradiction|reflexivity].
Qed.

Lemma prefix_append : forall a b : string, String.prefix a (a ++ b) = true.
Proof.
  induction a as [|c a IH]; intros b; [now destruct b|].
  cbn [append String.prefix]. destruct (ascii_dec c c); [apply IH|contradiction].
Qed.

Lemma scans_literal : forall fuel (lit : string) (v : pyval) rest,
  (lit = "null" /\ v = PyNone) \/ (lit = "true" /\ v = PyBool true)
  \/ (lit = "false" /\ v = PyBool false) ->
  scan_once (S fuel) (lit ++ rest) = inr (v, rest).
Proof.
  intros fuel lit v rest [[-> ->]|[[-> ->]|[-> ->]]].
  - change ("null" ++ rest) with (String "n" ("ull" ++ rest)).
    rewrite scan_once_unfold. cbv zeta. known_chars. cbv beta iota.
    change (String "n" ("ull" ++ rest)) with ("null" ++ rest).
    rewrite prefix_append. f_equal. f_equal. apply (substring_drop "null" rest).
  - change ("true" ++ rest) with (String "t" ("rue" ++ rest)).
    rewrite scan_once_unfold. cbv zeta. known_chars. cbv beta iota.
    rewrite (prefix_head "n" "t") by discriminate.
    change (String "t" ("rue" ++ rest)) with ("true" ++ rest).
    rewrite prefix_append. f_equal. f_equal. apply (substring_drop "true" rest).
  - change ("false" ++ rest) with (String "f" ("alse" ++ rest)).
    rewrite scan_once_unfold. cbv zeta. known_chars. cbv beta iota.
    rewrite (prefix_head "n" "f") by discriminate.
    rewrite (prefix_head "t" "f") by discriminate.
    change (String "f" ("alse" ++ rest)) with ("false" ++ rest).
    rewrite prefix_append. f_equal. f_equal. apply (substring_drop "false" rest).
Qed.

Lemma scans_int : forall fuel z rest,
  delimited rest = true ->
  scan_once (S fuel) (str_int z ++ rest) = inr (PyInt z, rest).
Proof.
  intros fuel z rest Hrest.
  destruct (match_number_str_int z rest Hrest) as [Hm Hp].
  destruct (str_int_head z) as (c & r & Hz & Hc).
  rewrite Hz in Hm, Hp |- *. cbn [append] in *.
  rewrite scan_once_unfold. cbv zeta. rewrite Hm.
  assert (Hb : (byte c = 45 \/ 48 <= byte c <= 57)%N).
  { destruct Hc as [Hc|Hc]; [now left|right]. unfold is_digit in Hc.
    apply andb_true_iff in Hc. destruct Hc as [H1 H2].
    apply N.leb_le in H1. apply N.leb_le in H2. lia. }
  replace (byte c =? 34)%N with false by (symmetry; apply N.eqb_neq; lia).
  replace (byte c =? 123)%N with false by (symmetry; apply N.eqb_neq; lia).
  replace (byte c =? 91)%N with false by (symmetry; apply N.eqb_neq; lia).
  rewrite !prefix_head; [|intros <-; cbn in Hb; lia..].
  cbn [String.eqb andb]. rewrite Hp. reflexivity.
Qed.

Lemma scans_str : forall fuel s rest,
  scan_once (S fuel) (encode_basestring s ++ rest) = inr (PyStr s, rest).
Proof.
  intros fuel s rest. unfold encode_basestring, char. cbn [append].
  rewrite scan_once_unfold. cbv zeta.
  replace (byte dquote =? 34)%N with true by reflexivity. cbv iota.
  rewrite append_assoc. cbn [append].
  rewrite scanstring_escape; [reflexivity|].
  rewrite length_append. cbn [String.length]. pose proof (length_escape s). lia.
Qed.

Lemma key_scan : forall k begin after,
  scanstring (String.length (escape k ++ String dquote after)) begin
    (escape k ++ String dquote after) = inr (k, after).
Proof.
  intros. apply scanstring_escape.
  rewrite length_append. cbn [String.length]. pose proof (length_escape k). lia.
Qed.

Lemma list_tail_delimited : forall l rest, delimited (list_tail l ++ rest) = true.
Proof. intros [|y l] rest; reflexivity. Qed.

Lemma dict_tail_delimited : forall d rest, delimited (dict_tail d ++ rest) = true.
Proof. intros [|[k y] d] rest; reflexivity. Qed.

Lemma list_tail_cons : forall y l rest,
  list_tail (y :: l) ++ rest = String "," (dumps y ++ list_tail l ++ rest).
Proof. intros. cbn [list_tail append]. now rewrite append_assoc. Qed.

Lemma dict_tail_cons : forall k y d rest,
  dict_tail ((k, y) :: d) ++ rest
  = String "," (String dquote (escape k ++ String dquote
                                 (String ":" (dumps y ++ dict_tail d ++ rest)))).
Proof.
  intros. cbn [dict_tail]. unfold encode_basestring, char. cbn [append].
  now rewrite !append_assoc; cbn [append]; rewrite !append_assoc.
Qed.

Lemma length_list_tail : forall l, List.length l < String.length (list_tail l).
Proof.
  induction l as [|y l IH]; cbn [list_tail List.length]; [simpl; lia|].
  rewrite !length_append. cbn [String.length]. lia.
Qed.

Lemma length_dict_tail : forall d, List.length d < String.length (dict_tail d).
Proof.
  induction d as [|[k y] d IH]; cbn [dict_tail List.length]; [simpl; lia|].
  rewrite !length_append. cbn [String.length]. lia.
Qed.

Lemma array_items_ok : forall scan l x n rest,
  read_back scan x -> Forall (read_back scan) l -> List.length l < n ->
  array_items scan n (dumps x ++ list_tail l ++ rest) = inr ((x :: l)%list, rest).
Proof.
  intros scan l. induction l as [|y l IH]; intros x n rest [Hok Hx] Hl Hn;
    (destruct n as [|n]; [inversion Hn|]); cbn [array_items].
  - rewrite (Hx _ (list_tail_delimited [] rest)). reflexivity.
  - rewrite (Hx _ (list_tail_delimited (y :: l) rest)).
    rewrite (skip_ws_delimited _ (list_tail_delimited (y :: l) rest)).
    rewrite list_tail_cons. known_chars. cbv beta iota.
    inversion Hl as [|? ? Hy Hl']; subst.
    rewrite (skip_ws_dumps y _ (proj1 Hy)).
    rewrite (IH y n rest Hy Hl') by (simpl in Hn; lia). reflexivity.
Qed.

Lemma JSONArray_ok : forall scan x l rest,
  read_back scan x -> Forall (read_back scan) l ->
  JSONArray scan (dumps x ++ list_tail l ++ rest) = inr (PyList (x :: l), rest).
Proof.
  intros scan x l rest Hx Hl. unfold JSONArray.
  rewrite (skip_ws_dumps x _ (proj1 Hx)).
  rewrite (array_items_ok scan l x _ rest Hx Hl).
  - destruct (dumps_head x (proj1 Hx)) as (c & r & -> & _ & H93 & _).
    cbn [append]. now rewrite H93.
  - rewrite !length_append. pose proof (length_list_tail l). lia.
Qed.

Lemma object_items_ok : forall scan d k x n begin rest,
  read_back scan x -> Forall (fun kv => read_back scan (snd kv)) d -> List.length d < n ->
  object_items scan n begin
    (escape k ++ String dquote (String ":" (dumps x ++ dict_tail d ++ rest)))
  = inr (((k, x) :: d)%list, rest).
Proof.
  intros scan d. induction d as [|[k' y] d IH]; intros k x n begin rest [Hok Hx] Hd Hn;
    (destruct n as [|n]; [inversion Hn|]); cbn [object_items];
    rewrite key_scan; rewrite (skip_ws_id ":") by reflexivity; known_chars; cbv beta iota;
    rewrite (skip_ws_dumps x _ Hok).
  - rewrite (Hx _ (dict_tail_delimited [] rest)). reflexivity.
  - rewrite (Hx _ (dict_tail_delimited ((k', y) :: d) rest)).
    rewrite (skip_ws_delimited _ (dict_tail_delimited ((k', y) :: d) rest)).
    rewrite dict_tail_cons. known_chars. cbv beta iota.
    rewrite (skip_ws_id dquote) by reflexivity.
    replace (byte dquote =? 34)%N with true by reflexivity. cbv beta iota.
    inversion Hd as [|? ? Hy Hd']; subst. cbn [snd] in Hy.
    rewrite (IH k' y n _ rest Hy Hd') by (simpl in Hn; lia). reflexivity.
Qed.

Lemma JSONObject_ok : forall scan k x d rest,
  read_back scan x -> Forall (fun kv => read_back scan (snd kv)) d ->
  JSONObject scan (encode_basestring k ++ ":" ++ dumps x ++ dict_tail d ++ rest)
  = inr (PyDict (dict_of_pairs ((k, x) :: d)), rest).
Proof.
  intros scan k x d rest Hx Hd. unfold JSONObject, encode_basestring, char.
  cbn [append]. rewrite !append_assoc. cbn [append].
  rewrite (skip_ws_id dquote) by reflexivity.
  replace (byte dquote =? 34)%N with true by reflexivity. cbv beta iota.
  rewrite (object_items_ok scan d k x _ _ rest Hx Hd); [reflexivity|].
  cbn [String.length]. rewrite !length_append. cbn [String.length].
  rewrite !length_append. pose proof (length_dict_tail d). lia.
Qed.

(** *** Mappings without a repeated key *)


Lemma lookup_none_keys : forall (d : list (string * pyval)) k,
  mem k (map fst d) = false -> forall v, setitem d k v = (d ++ [(k, v)])%list.
Proof.
  induction d as [|[k' v'] d IH]; intros k Hk v; [reflexivity|].
  cbn [map fst mem existsb] in Hk. unfold mem in IH.
  apply orb_false_iff in Hk. destruct Hk as [Hne Hk].
  cbn [setitem]. rewrite String.eqb_sym, Hne. cbn [app]. now rewrite (IH k Hk v).
Qed.

Lemma fold_setitem : forall d acc,
  distinct_keys d = true ->
  (forall k, In k (map fst d) -> mem k (map fst acc) = false) ->
  fold_left (fun a kv => setitem a (fst kv) (snd kv)) d acc = (acc ++ d)%list.
Proof.
  induction d as [|[k v] d IH]; intros acc Hd Hacc; cbn [fold_left fst snd].
  - now rewrite List.app_nil_r.
  - cbn [distinct_keys] in Hd. apply andb_true_iff in Hd. destruct Hd as [Hk Hd].
    apply negb_true_iff in Hk.
    rewrite lookup_none_keys by (apply Hacc; now left).
    rewrite IH; [now rewrite <- List.app_assoc|exact Hd|].
    intros k' Hin. rewrite map_app. unfold mem. rewrite existsb_app.
    apply orb_false_iff. split.
    + apply Hacc. now right.
    + cbn [map fst existsb]. rewrite orb_false_r.
      destruct (String.eqb_spec k' k) as [->|]; [|reflexivity].
      exfalso. apply (proj2 (mem_In k (map fst d))) in Hin. congruence.
Qed.

Lemma dict_of_pairs_distinct : forall d, distinct_keys d = true -> dict_of_pairs d = d.
Proof.
  intros d Hd. unfold dict_of_pairs. now rewrite fold_setitem.
Qed.

(** *** The round trip *)


Lemma json_ok_list : forall l,
  json_ok (PyList l) = true -> Forall (fun x => json_ok x = true) l.
Proof.
  induction l as [|x l IH]; intros H; constructor.
  - cbn in H. now apply andb_true_iff in H.
  - apply IH. cbn in H. apply andb_true_iff in H. exact (proj2 H).
Qed.

Lemma json_ok_dict : forall d,
  json_ok (PyDict d) = true ->
  Forall (fun kv => json_ok (snd kv) = true) d /\ distinct_keys d = true.
Proof.
  induction d as [|[k x] d IH]; intros H; [split; [constructor|reflexivity]|].
  cbn in H. apply andb_true_iff in H. destruct H as [H Hd].
  apply andb_true_iff in H. destruct H as [Hk Hx].
  destruct (IH Hd) as [IH1 IH2]. split.
  - constructor; [exact Hx|exact IH1].
  - cbn [distinct_keys]. now rewrite Hk, IH2.
Qed.

Lemma depth_list : forall l x, In x l -> depth x < depth (PyList l).
Proof.
  induction l as [|y l IH]; intros x Hin; [contradiction|].
  destruct Hin as [->|Hin].
  - cbn. lia.
  - specialize (IH x Hin). cbn in *. lia.
Qed.

Lemma depth_dict : forall d kv, In kv d -> depth (snd kv) < depth (PyDict d).
Proof.
  induction d as [|[k y] d IH]; intros kv Hin; [contradiction|].
  destruct Hin as [<-|Hin].
  - cbn. lia.
  - specialize (IH kv Hin). cbn in *. lia.
Qed.

Lemma scan_once_dumps : forall v,
  json_ok v = true -> forall fuel, depth v < fuel -> scans fuel v.
Proof.
  induction v as [ |b|z|lit|s|l IH|d IH] using pyval_induction;
    intros Hok fuel Hfuel rest Hrest;
    (destruct fuel as [|fuel]; [inversion Hfuel|]).
  - apply (scans_literal fuel "null"). now left.
  - destruct b.
    + apply (scans_literal fuel "true"). right. now left.
    + apply (scans_literal fuel "false"). right. now right.
  - now apply scans_int.
  - discriminate Hok.
  - apply scans_str.
  - assert (Hall : Forall (read_back (scan_once fuel)) l).
    { pose proof (json_ok_list l Hok) as Hoks.
      rewrite Forall_forall in *. intros x Hin. split; [now apply Hoks|].
      apply (IH x Hin (Hoks x Hin)). pose proof (depth_list l x Hin). lia. }
    destruct l as [|x l]; [reflexivity|].
    rewrite dumps_list. rewrite !append_assoc.
    match goal with
    | |- context [("[" ++ ?X)] => change ("[" ++ X) with (String "[" X)
    end.
    rewrite scan_once_unfold. cbv zeta. known_chars. cbv beta iota.
    inversion Hall; subst. now apply JSONArray_ok.
  - assert (Hall : Forall (fun kv => read_back (scan_once fuel) (snd kv)) d).
    { destruct (json_ok_dict d Hok) as [Hoks _].
      rewrite Forall_forall in *. intros kv Hin. split; [now apply Hoks|].
      apply (IH kv Hin (Hoks kv Hin)). pose proof (depth_dict d kv Hin). lia. }
    destruct (json_ok_dict d Hok) as [_ Hkeys].
    destruct d as [|[k x] d]; [reflexivity|].
    rewrite dumps_dict. rewrite !append_assoc.
    match goal with
    | |- context [("{" ++ ?X)] => change ("{" ++ X) with (String "{" X)
    end.
    rewrite scan_once_unfold. cbv zeta. known_chars. cbv beta iota.
    inversion Hall; subst.
    rewrite JSONObject_ok by assumption.
    now rewrite dict_of_pairs_distinct.
Qed.

Lemma depth_le_length : forall v, depth v <= String.length (dumps v).
Proof.
  induction v as [ |b|z|lit|s|l IH|d IH] using pyval_induction; try (cbn [depth]; lia).
  - destruct l as [|x l]; [cbn; lia|]. rewrite dumps_list.
    inversion IH as [|? ? Hx Hl]; subst.
    assert (Hmost : forall l, Forall (fun v => depth v <= String.length (dumps v)) l ->
              (fix most (l : list pyval) : nat :=
                 match l with [] => 0 | x :: r => Nat.max (depth x) (most r) end) l
              <= String.length (list_tail l)).
    { clear. induction l as [|y l IHl]; intros H; [cbn; lia|].
      inversion H; subst. cbn [list_tail]. rewrite !length_append.
      specialize (IHl ltac:(assumption)). cbn [String.length]. lia. }
    specialize (Hmost l Hl). cbn [depth]. rewrite !length_append. cbn [String.length].
    lia.
  - destruct d as [|[k x] d]; [cbn; lia|]. rewrite dumps_dict.
    inversion IH as [|? ? Hx Hd]; subst. cbn [snd] in Hx.
    assert (Hmost : forall d,
              Forall (fun kv => depth (snd kv) <= String.length (dumps (snd kv))) d ->
              (fix most (d : list (string * pyval)) : nat :=
                 match d with
                 | [] => 0
                 | (_, x) :: r => Nat.max (depth x) (most r)
                 end) d
              <= String.length (dict_tail d)).
    { clear. induction d as [|[k y] d IHd]; intros H; [cbn; lia|].
      inversion H; subst. cbn [list_tail snd] in *. cbn [dict_tail].
      rewrite !length_append.
      specialize (IHd ltac:(assumption)). cbn [String.length]. lia. }
    specialize (Hmost d Hd). cbn [depth]. rewrite !length_append. cbn [String.length].
    lia.
Qed.

(** A value without floats and without repeated keys is read back from
    its serialization. *)
Theorem loads_dumps : forall v, json_ok v = true -> loads (dumps v) = Ok v.
Proof.
  intros v Hok. unfold loads.
  destruct (dumps_head v Hok) as (c & r & Hd & Hws & _ & H239).
  assert (Hbom : startswith (dumps v) BOM = false).
  { rewrite Hd. unfold startswith, BOM. apply prefix_head.
    intros <-. discriminate H239. }
  rewrite Hbom.
  replace (skip_ws (dumps v)) with (dumps v)
    by (rewrite Hd; symmetry; now apply skip_ws_id).
  rewrite <- (append_nil_r (dumps v)) at 2.
  rewrite (scan_once_dumps v Hok (S (String.length (dumps v)))
             ltac:(pose proof (depth_le_length v); lia) "" eq_refl).
  reflexivity.
Qed.

(** ** Embedding and reading back *)

Lemma path_eqb_refl : forall p, path_eqb p p = true.
Proof. induction p as [|a p IH]; simpl; [reflexivity|]. now rewrite String.eqb_refl. Qed.

Lemma path_eqb_eq : forall p q, path_eqb p q = true <-> p = q.
Proof.
  induction p as [|a p IH]; intros [|b q]; simpl; split; intros H;
    try reflexivity; try discriminate H.
  - apply andb_true_iff in H. destruct H as [H1 H2].
    apply String.eqb_eq in H1. apply IH in H2. now subst.
  - injection H as -> ->. rewrite String.eqb_refl. now apply IH.
Qed.

Lemma find_set_entry_same : forall (fs : filesystem) (p : path) (n : node),
  OS.find (set_entry fs p n) p = Some n.
Proof.
  intros fs. induction fs as [|[q m] fs IH]; intros p n; simpl.
  - now rewrite path_eqb_refl.
  - destruct (path_eqb q p) eqn:E; simpl.
    + now rewrite path_eqb_refl.
    + rewrite E. apply IH.
Qed.

Lemma find_set_entry_other : forall (fs : filesystem) (p q : path) (n : node),
  path_eqb p q = false -> OS.find (set_entry fs p n) q = OS.find fs q.
Proof.
  intros fs. induction fs as [|[r m] fs IH]; intros p q n Hpq; simpl.
  - now rewrite Hpq.
  - destruct (path_eqb r p) eqn:E; simpl.
    + apply path_eqb_eq in E. subst r. now rewrite Hpq.
    + destruct (path_eqb r q); [reflexivity|now apply IH].
Qed.

Lemma Image_open_path : forall fs p img,
  Image_open fs p = Ok img -> p <> [] /\ OS.find fs p = Some (File (Picture img)).
Proof.
  intros fs p img H. unfold Image_open, stat in H.
  destruct p as [|a p]; [discriminate H|]. split; [discriminate|].
  destruct (OS.find fs (a :: p)) as [[[i|b]|]|]; try discriminate H.
  now injection H as ->.
Qed.

Lemma stat_set_entry_same : forall fs p n, p <> [] -> stat (set_entry fs p n) p = Some n.
Proof.
  intros fs p n Hp. unfold stat. destruct p; [contradiction|apply find_set_entry_same].
Qed.

Lemma dumps_not_empty : forall v, json_ok v = true -> dumps v <> "".
Proof. intros v H. destruct (dumps_head v H) as (c & r & -> & _). discriminate. Qed.

(** What [embed] does to a PNG file when the serialization is within the
    ceiling. *)
Lemma embed_png_file : forall keeps_exif fs path img metadata,
  png_file fs path img ->
  truthy metadata = true ->
  within_limit metadata ->
  embed keeps_exif fs path metadata
  = (Ok tt,
     set_entry fs path
       (File (Picture (saved keeps_exif img "PNG" None None
                         [("Comment", dumps metadata)])))).
Proof.
  intros keeps fs path img metadata (Hopen & Hdir & Hsuf & Hmode) Ht Hsize.
  destruct (Image_open_path _ _ _ Hopen) as [Hne Hfind].
  unfold embed. rewrite Ht. cbn [negb].
  replace (size_limit <? Z.of_nat (String.length (dumps metadata)))%Z with false
    by (symmetry; apply Z.ltb_ge; exact Hsize).
  rewrite Hsuf. cbn [String.eqb Ascii.eqb Bool.eqb andb].
  unfold _embed_png. rewrite Hopen.
  unfold format_of_extension. rewrite Hsuf. cbn [String.eqb Ascii.eqb Bool.eqb andb].
  unfold Image_save, write.
  assert (Hstat : stat fs path = Some (File (Picture img))).
  { unfold stat. destruct path; [contradiction|exact Hfind]. }
  rewrite Hstat. unfold is_dir in Hdir.
  destruct (stat fs (parent path)) as [[c|]|]; try discriminate Hdir.
  rewrite Hmode. reflexivity.
Qed.




(** ** Pack discovery *)

(** [_discover_packs] answers with the input directory alone whatever the
    directory holds: each [glob] is a generator, true before it has looked at
    anything. *)
Lemma discover_packs_always_single : forall input_dir w,
  _discover_packs input_dir w
  = (Ok [input_dir],
     snd (log "Modo de pasta única detectado. Processando a pasta de entrada diretamente."
            INFO w)).
Proof. intros. reflexivity. Qed.

(** C4 fails on the code.  For a root with two pack directories and no image
    of its own, the specification asks for the two directories;
    [_discover_packs] returns the root. *)
Theorem discover_packs_root_of_packs :
  discover_spec sample_root ["packs"] = [["packs"; "p1"]; ["packs"; "p2"]]
  /\ fst (_discover_packs ["packs"] (start sample_root)) = Ok [["packs"]]
  /\ discover_spec [(["empty"], Dir)] ["empty"] = []
  /\ fst (_discover_packs ["empty"] (start [(["empty"], Dir)])) = Ok [["empty"]].
Proof. repeat split. Qed.

(** ** Running a computation *)

Lemma bind_Ok : forall (A B : Type) (m : M A) (k : A -> M B) w b w',
  bind m k w = (Ok b, w') -> exists a w1, m w = (Ok a, w1) /\ k a w1 = (Ok b, w').
Proof.
  intros A B m k w b w' H. unfold bind in H.
  destruct (m w) as [[a|e] w1]; [eauto|discriminate H].
Qed.

Lemma on_fs_Ok : forall (A : Type) (f : filesystem -> result A) w a w',
  on_fs f w = (Ok a, w') -> f w.(fs) = Ok a /\ w' = w.
Proof. intros A f w a w' H. unfold on_fs in H. injection H as H1 H2. now split. Qed.

Lemma lift_Ok : forall (A : Type) (r : result A) w a w',
  lift r w = (Ok a, w') -> r = Ok a /\ w' = w.
Proof. intros A r w a w' H. unfold lift in H. injection H as H1 H2. now split. Qed.

Lemma save_Ok : forall keeps img p fmt q e w w',
  save keeps img p fmt q e w = (Ok tt, w') ->
  w' = with_fs w (set_entry w.(fs) p (File (Picture (saved keeps img fmt q e [])))).
Proof.
  intros keeps img p fmt q e w w' H. unfold save, run_fs, Image_save in H.
  destruct (write (fs w) p (Data "")) as [opened|x]; [|discriminate H].
  destruct (writable fmt (mode img)); [|discriminate H].
  now injection H as <-.
Qed.

(** ** Paths *)

Lemma div_inj : forall p q a b, div p a = div q b -> p = q /\ a = b.
Proof. intros p q a b H. unfold div in H. now apply app_inj_tail in H. Qed.

Lemma div_not_root : forall p a, div p a <> [].
Proof. intros p a H. unfold div in H. now destruct p. Qed.

Lemma name_div : forall p a, name (div p a) = a.
Proof. intros p a. unfold name, div. apply last_last. Qed.

Lemma path_eqb_neq : forall p q, p <> q -> path_eqb p q = false.
Proof.
  intros p q H. destruct (path_eqb p q) eqn:E; [|reflexivity].
  apply path_eqb_eq in E. contradiction.
Qed.

Lemma stat_set_entry_other : forall fs p q n,
  p <> q -> stat (set_entry fs p n) q = stat fs q.
Proof.
  intros fs0 p q n H. unfold stat. destruct q; [reflexivity|].
  apply find_set_entry_other. now apply path_eqb_neq.
Qed.

Lemma rfind_dot_append : forall s t i,
  rfind_dot t = Some i -> rfind_dot (s ++ t) = Some (String.length s + i)%nat.
Proof.
  induction s as [|c s IH]; intros t i H; simpl; [exact H|].
  now rewrite (IH t i H).
Qed.

Lemma substring_append : forall s t,
  substring (String.length s) (String.length t) (s ++ t) = t.
Proof.
  induction s as [|c s IH]; intros t; simpl; [|apply IH].
  induction t as [|d t IHt]; simpl; [reflexivity|]. now rewrite IHt.
Qed.

Lemma suffix_webp : forall s, s <> "" -> suffix [s ++ ".webp"] = ".webp".
Proof.
  intros s Hs. unfold suffix, name. cbn [last].
  rewrite (rfind_dot_append s ".webp" 0 eq_refl).
  rewrite Nat.add_0_r, length_append. cbn [String.length].
  destruct s as [|c s]; [contradiction|]. cbn [String.length].
  replace ((0 <? S (String.length s))%nat) with true by (symmetry; apply Nat.ltb_lt; lia).
  replace ((S (String.length s) <? S (String.length s) + 5 - 1)%nat) with true
    by (symmetry; apply Nat.ltb_lt; lia).
  cbn [andb].
  replace (S (String.length s) + 5 - S (String.length s))%nat with (String.length ".webp")
    by (cbn [String.length]; lia).
  apply (substring_append (String c s) ".webp").
Qed.

Lemma suffix_name_webp : forall p s, name p = s ++ ".webp" -> s <> "" -> suffix p = ".webp".
Proof.
  intros p s Hn Hs. rewrite <- (suffix_webp s Hs). unfold suffix. rewrite Hn. reflexivity.
Qed.

Lemma try_reraise_Ok : forall (A : Type) (m : M A) (h : exn -> M unit) w a w',
  try_except m (fun e => h e ;; raise e) w = (Ok a, w') -> m w = (Ok a, w').
Proof.
  intros A m h w a w' H. unfold try_except in H.
  destruct (m w) as [[x|e] w1]; [exact H|].
  unfold bind, raise in H. destruct (h e w1) as [[u|e'] w2]; discriminate H.
Qed.

(** ** The copies of [_process_single_image] *)

Lemma metadata_source_piexif : forall img d,
  d <> "" ->
  img.(info_exif) = true ->
  img.(piexif_description) = Found (Bytes d) ->
  valid_utf8 d = true ->
  metadata_source img = d.
Proof.
  intros img d Hd Hi Hp Hu.
  assert (Hd' : (d =? "") = false) by (now apply String.eqb_neq).
  assert (Hsnd : snd (read_fields img) = d).
  { unfold read_fields. cbv zeta. cbn [snd].
    rewrite Hi, Hp. unfold decode_utf8. rewrite Hu, Hd'. cbn [andb].
    rewrite Hd'. reflexivity. }
  unfold metadata_source. destruct (read_fields img) as [c d0]. simpl in Hsnd. subst d0.
  unfold or_else. now rewrite Hd'.
Qed.

Lemma extract_description : forall keeps fs p img fmt q md,
  Image_open fs p = Ok (saved keeps img fmt q (Some (Description (dumps md))) []) ->
  json_ok md = true ->
  valid_utf8 (dumps md) = true ->
  extract_png fs p = Ok md.
Proof.
  intros keeps fs0 p img fmt q md Hopen Hok Hutf.
  rewrite (extract_png_open _ _ _ Hopen).
  rewrite (metadata_source_piexif
             (saved keeps img fmt q (Some (Description (dumps md))) []) (dumps md)
             (dumps_not_empty md Hok) eq_refl eq_refl Hutf).
  now rewrite loads_dumps.
Qed.

(** C7, as amended.  When [_process_single_image] completes (the folder of
    the watermarked copies being another than the one of the ZIP stage), the
    ZIP-stage copy is there under the index of the image: for a [.jpg] or
    [.jpeg] source a JPEG of quality 95 and for a [.webp] source a WEBP of
    quality 95, each given the staged EXIF block, so that [extract_png]
    reads the metadata of the image back from the copy when there is
    metadata, it is within the ceiling and it is read back from its
    serialization; for any other source a PNG written by a plain [save] of
    the source file as it is on disk, with no text chunk and no EXIF block
    given, from which [extract_png] reads the empty mapping unless the
    writer has kept an EXIF block of the source. *)
Theorem process_single_image_zip_copy :
  forall keeps config image_file index pack_metadata preview free_post temp_zip w w',
    _process_single_image keeps config image_file index (PyDict pack_metadata)
      preview free_post temp_zip w = (Ok tt, w') ->
    free_post <> temp_zip ->
    let md := dict_get pack_metadata (name image_file) (PyDict []) in
    let ext := lower (suffix image_file) in
    let base := "image_" ++ str_int index in
    let carried (p : path) :=
      truthy md = true -> validate_metadata_size md = true ->
      json_ok md = true -> valid_utf8 (dumps md) = true ->
      extract_png w'.(fs) p = Ok md in
    if mem ext [".jpg"; ".jpeg"] then
      (exists img,
         Image_open w'.(fs) (div temp_zip (base ++ ".jpeg"))
         = Ok (saved keeps img "JPEG" (Some 95%Z) (Some (staged_exif md)) []))
      /\ carried (div temp_zip (base ++ ".jpeg"))
    else if ext =? ".webp" then
      (exists img,
         Image_open w'.(fs) (div temp_zip (base ++ ".webp"))
         = Ok (saved keeps img "WEBP" (Some 95%Z) (Some (staged_exif md)) []))
      /\ carried (div temp_zip (base ++ ".webp"))
    else
      exists orig,
        Image_open w.(fs) image_file = Ok orig
        /\ Image_open w'.(fs) (div temp_zip (base ++ ".png"))
           = Ok (saved keeps orig "PNG" None None [])
        /\ (keeps && orig.(info_exif) = false ->
            extract_png w'.(fs) (div temp_zip (base ++ ".png")) = Ok (PyDict [])).
Proof.
  intros keeps config image_file index pack_metadata preview free_post temp_zip w w' H Hfolders.
  unfold _process_single_image in H. apply try_reraise_Ok in H.
  apply bind_Ok in H. destruct H as (img0 & w1 & Hopen & H).
  apply on_fs_Ok in Hopen. destruct Hopen as [Hopen ->].
  cbv zeta in H.
  apply bind_Ok in H. destruct H as (md & w1 & Hmd & H).
  apply lift_Ok in Hmd. destruct Hmd as [Hmd ->]. injection Hmd as <-.
  apply bind_Ok in H. destruct H as ([] & w1 & Hprev & H).
  apply save_Ok in Hprev.
  apply bind_Ok in H. destruct H as ([] & w2 & Hzip & H).
  apply bind_Ok in H. destruct H as (wmk & w3 & Hwm & H).
  apply on_fs_Ok in Hwm. destruct Hwm as [_ ->].
  apply bind_Ok in H. destruct H as ([] & w3 & Hfree & H).
  apply save_Ok in Hfree.
  assert (Hfs : fs w' = fs w3) by (unfold log in H; now injection H as <-).
  intros md ext base carried.
  match type of Hprev with context [convert ?i "RGB"] => set (img := i) in * end.
  fold md in Hprev, Hzip, Hfree. fold (staged_exif md) in Hprev, Hzip, Hfree.
  fold ext in Hzip. fold base in Hprev, Hzip, Hfree.
  assert (Hstaged : forall fmt q path,
            Image_open (fs w2) path = Ok (saved keeps img fmt q (Some (staged_exif md)) []) ->
            path <> div free_post (base ++ ".jpeg") ->
            (exists i, Image_open (fs w') path
                       = Ok (saved keeps i fmt q (Some (staged_exif md)) []))
            /\ carried path).
  { intros fmt q path Hz Hp.
    assert (Hz' : Image_open (fs w') path
                  = Ok (saved keeps img fmt q (Some (staged_exif md)) [])).
    { rewrite Hfs, Hfree. unfold Image_open. cbn [fs with_fs].
      rewrite stat_set_entry_other by (intros E; now apply Hp). exact Hz. }
    split; [now exists img|].
    intros Ht Hv Hok Hutf. unfold staged_exif in Hz'. rewrite Ht, Hv in Hz'. cbn [andb] in Hz'.
    exact (extract_description _ _ _ _ _ _ _ Hz' Hok Hutf). }
  assert (Hother : forall e, div temp_zip (base ++ e) <> div free_post (base ++ ".jpeg")).
  { intros e E. apply div_inj in E. destruct E as [E _]. now apply Hfolders. }
  destruct (mem ext [".jpg"; ".jpeg"]) eqn:E1.
  - apply save_Ok in Hzip. apply Hstaged; [|apply Hother].
    rewrite Hzip. unfold Image_open. cbn [fs with_fs].
    now rewrite stat_set_entry_same by apply div_not_root.
  - destruct (ext =? ".webp") eqn:E2.
    + apply save_Ok in Hzip. apply Hstaged; [|apply Hother].
      rewrite Hzip. unfold Image_open. cbn [fs with_fs].
      now rewrite stat_set_entry_same by apply div_not_root.
    + apply bind_Ok in Hzip. destruct Hzip as (orig & w1' & Horig & Hzip).
      apply on_fs_Ok in Horig. destruct Horig as [Horig ->].
      apply save_Ok in Hzip.
      assert (Hsrc : Image_open (fs w) image_file = Ok orig).
      { rewrite Hprev in Horig. unfold Image_open in Horig |- *. cbn [fs with_fs] in Horig.
        rewrite stat_set_entry_other in Horig; [exact Horig|].
        intros E. unfold ext in E2. rewrite <- E in E2.
        rewrite (suffix_name_webp _ base (name_div _ _)) in E2 by discriminate.
        discriminate E2. }
      exists orig. split; [exact Hsrc|].
      assert (Hz : Image_open (fs w') (div temp_zip (base ++ ".png"))
                   = Ok (saved keeps orig "PNG" None None [])).
      { rewrite Hfs, Hfree. unfold Image_open. cbn [fs with_fs].
        rewrite stat_set_entry_other by (intros E; now apply (Hother ".png")).
        rewrite Hzip. cbn [fs with_fs].
        now rewrite stat_set_entry_same by apply div_not_root. }
      split; [exact Hz|].
      intros Hk. rewrite (extract_png_open _ _ _ Hz).
      unfold metadata_source, read_fields, saved.
      cbn [String.eqb Ascii.eqb Bool.eqb andb]. rewrite Hk. reflexivity.
Qed.

Lemma process_single_image_zip_copy_witness :
  exists w',
    _process_single_image false sample_config ["pack"; "b.jpg"] 2
      (PyDict sample_pack_metadata)
      ["pack"; "preview_Images"] ["pack"; "free_post"] ["pack"; "temp_for_zip"]
      (start sample_studio) = (Ok tt, w')
    /\ (exists img,
          Image_open w'.(fs) ["pack"; "temp_for_zip"; "image_2.jpeg"]
          = Ok (saved false img "JPEG" (Some 95%Z)
                  (Some (Description (dumps (PyDict sample_metadata)))) []))
    /\ extract_png w'.(fs) ["pack"; "temp_for_zip"; "image_2.jpeg"]
       = Ok (PyDict sample_metadata).
Proof.
  eexists. split; [vm_compute; reflexivity|].
  assert (Hrun : _process_single_image false sample_config ["pack"; "b.jpg"] 2
                   (PyDict sample_pack_metadata)
                   ["pack"; "preview_Images"] ["pack"; "free_post"] ["pack"; "temp_for_zip"]
                   (start sample_studio)
                 = (Ok tt, snd (_process_single_image false sample_config ["pack"; "b.jpg"] 2
                                  (PyDict sample_pack_metadata)
                                  ["pack"; "preview_Images"] ["pack"; "free_post"]
                                  ["pack"; "temp_for_zip"] (start sample_studio))))
    by (vm_compute; reflexivity).
  assert (Hfolders : ["pack"; "free_post"] <> ["pack"; "temp_for_zip"]) by discriminate.
  destruct (process_single_image_zip_copy _ _ _ _ _ _ _ _ _ _ Hrun Hfolders) as [Hcopy Hcarried].
  split; [exact Hcopy|].
  exact (Hcarried eq_refl eq_refl eq_refl eq_refl).
Defined.

(** C7 as it is stated fails for a PNG source: the image has metadata in
    the pack, the preview carries it, and the ZIP-stage copy is a PNG without
    text chunk or EXIF block, from which the empty mapping is read. *)
Lemma process_single_image_zip_copy_counterexample :
  exists w',
    _process_single_image false sample_config ["pack"; "a.png"] 1
      (PyDict sample_pack_metadata)
      ["pack"; "preview_Images"] ["pack"; "free_post"] ["pack"; "temp_for_zip"]
      (start sample_studio) = (Ok tt, w')
    /\ dict_get sample_pack_metadata "a.png" (PyDict []) = PyDict sample_metadata
    /\ extract_png w'.(fs) ["pack"; "preview_Images"; "image_1.webp"]
       = Ok (PyDict sample_metadata)
    /\ (exists copy,
          Image_open w'.(fs) ["pack"; "temp_for_zip"; "image_1.png"] = Ok copy
          /\ copy.(format) = "PNG" /\ copy.(text) = [] /\ copy.(info_exif) = false)
    /\ extract_png w'.(fs) ["pack"; "temp_for_zip"; "image_1.png"] = Ok (PyDict [])
    /\ extract_png w'.(fs) ["pack"; "temp_for_zip"; "image_1.png"]
       <> Ok (PyDict sample_metadata).
Proof.
  eexists. split; [vm_compute; reflexivity|].
  split; [reflexivity|]. split; [vm_compute; reflexivity|].
  split; [eexists; split; [vm_compute; reflexivity|repeat split]|].
  split; [vm_compute; reflexivity|]. vm_compute. discriminate.
Qed.

(** ** What a computation adds to the log *)

Lemma grows_ret : forall (A : Type) (a : A), grows (ret a).
Proof. intros A a w. exists []. now rewrite List.app_nil_r. Qed.

Lemma grows_raise : forall (A : Type) (e : exn), grows (@raise A e).
Proof. intros A e w. exists []. now rewrite List.app_nil_r. Qed.

Lemma grows_lift : forall (A : Type) (r : result A), grows (lift r).
Proof. intros A r w. exists []. now rewrite List.app_nil_r. Qed.

Lemma grows_get_fs : grows get_fs.
Proof. intros w. exists []. now rewrite List.app_nil_r. Qed.

Lemma grows_on_fs : forall (A : Type) (f : filesystem -> result A), grows (on_fs f).
Proof. intros A f w. exists []. now rewrite List.app_nil_r. Qed.

Lemma grows_change_fs : forall f, grows (change_fs f).
Proof.
  intros f w. exists []. rewrite List.app_nil_r. unfold change_fs.
  now destruct (f (fs w)).
Qed.

Lemma grows_run_fs : forall (A : Type) (f : filesystem -> result A * filesystem),
  grows (run_fs f).
Proof.
  intros A f w. exists []. rewrite List.app_nil_r. unfold run_fs.
  now destruct (f (fs w)).
Qed.

Lemma grows_log : forall m l, grows (log m l).
Proof. intros m l w. now exists [(l, m)]. Qed.

Lemma grows_update_progress : forall v, grows (update_progress v).
Proof. intros v w. exists []. now rewrite List.app_nil_r. Qed.

Lemma grows_update_status : forall s, grows (update_status s).
Proof. intros s w. exists []. now rewrite List.app_nil_r. Qed.

Lemma grows_subprocess_run : forall mosaic i o, grows (subprocess_run mosaic i o).
Proof.
  intros mosaic i o w. exists []. rewrite List.app_nil_r. unfold subprocess_run.
  now destruct (run_ending (mosaic (List.length (runs w)) (fs w) i o)).
Qed.

Lemma grows_bind : forall (A B : Type) (m : M A) (k : A -> M B),
  grows m -> (forall a, grows (k a)) -> grows (bind m k).
Proof.
  intros A B m k Hm Hk w. unfold bind. destruct (Hm w) as [l Hl].
  destruct (m w) as [[a|e] w1]; simpl in Hl.
  - destruct (Hk a w1) as [l' Hl']. exists (l ++ l')%list.
    now rewrite Hl', Hl, List.app_assoc.
  - now exists l.
Qed.

Lemma grows_try_except : forall (A : Type) (m : M A) (h : exn -> M A),
  grows m -> (forall e, grows (h e)) -> grows (try_except m h).
Proof.
  intros A m h Hm Hh w. unfold try_except. destruct (Hm w) as [l Hl].
  destruct (m w) as [[a|e] w1]; simpl in Hl.
  - now exists l.
  - destruct (Hh e w1) as [l' Hl']. exists (l ++ l')%list.
    now rewrite Hl', Hl, List.app_assoc.
Qed.

Lemma grows_if : forall (A : Type) (b : bool) (m1 m2 : M A),
  grows m1 -> grows m2 -> grows (if b then m1 else m2).
Proof. intros A b m1 m2 H1 H2. now destruct b. Qed.

Create HintDb grows.
#[export] Hint Resolve grows_ret grows_raise grows_lift grows_get_fs grows_on_fs
  grows_change_fs grows_run_fs grows_log grows_update_progress grows_update_status
  grows_subprocess_run grows_bind grows_try_except grows_if : grows.

Lemma grows_preserve : forall keeps o md a b, grows (preserve keeps o md a b).
Proof. intros. unfold preserve. auto 10 with grows. Qed.

#[export] Hint Resolve grows_preserve : grows.

Lemma grows_process_image : forall keeps mosaic self i o p md,
  grows (process_image keeps mosaic self i o p md).
Proof.
  intros. unfold process_image.
  apply grows_bind; [auto with grows|]. intros fs0.
  apply grows_if; [auto with grows|].
  apply grows_bind; [auto with grows|]. intros _.
  apply grows_try_except.
  - apply grows_bind; [auto with grows|]. intros _.
    apply grows_bind; [auto with grows|]. intros r.
    apply grows_if; [auto with grows|].
    apply grows_bind; [auto with grows|]. intros fs1.
    apply grows_if; auto 10 with grows.
  - intros e. destruct e; auto with grows.
Qed.

Lemma warnings_app : forall a b, warnings (a ++ b) = (warnings a + warnings b)%nat.
Proof. intros a b. unfold warnings. now rewrite filter_app, length_app. Qed.

Lemma grows_warnings : forall (A : Type) (m : M A) w r w',
  grows m -> m w = (r, w') -> (warnings (logged w) <= warnings (logged w'))%nat.
Proof.
  intros A m w r w' Hm H. destruct (Hm w) as [l Hl]. rewrite H in Hl. simpl in Hl.
  rewrite Hl, warnings_app. lia.
Qed.

Lemma log_WARN : forall m w r w',
  log m WARN w = (r, w') ->
  r = Ok tt /\ fs w' = fs w /\ warnings (logged w') = S (warnings (logged w)).
Proof.
  intros m w r w' H. unfold log in H. injection H as <- <-. cbn [fs logged].
  rewrite warnings_app. cbn. repeat split. lia.
Qed.

(** Each attempt that fails leaves a warning. *)
Lemma attempts_warnings : forall keeps mosaic self i o p md n range w w1,
  attempts keeps mosaic self i o p md n range w = (Ok false, w1) ->
  (warnings (logged w) + List.length range <= warnings (logged w1))%nat.
Proof.
  intros keeps mosaic self i o p md n range.
  induction range as [|a rest IH]; intros w w1 H; cbn [attempts List.length] in H |- *.
  - unfold ret in H. injection H as <-. lia.
  - apply bind_Ok in H. destruct H as ([] & wa & Ha & H).
    apply bind_Ok in H. destruct H as (success & wb & Hb & H).
    assert (Hwa : (warnings (logged w) <= warnings (logged wa))%nat).
    { revert Ha. apply grows_warnings. auto with grows. }
    assert (Hwb : (warnings (logged wa) <= warnings (logged wb))%nat).
    { revert Hb. apply grows_warnings, grows_process_image. }
    destruct success.
    + apply bind_Ok in H. destruct H as ([] & wc & _ & H). discriminate H.
    + apply bind_Ok in H. destruct H as ([] & wc & Hc & H).
      apply log_WARN in Hc. destruct Hc as (_ & _ & Hc).
      apply IH in H. lia.
Qed.

(** ** The retrying transform *)

Lemma mkdir_keeps_files : forall fs p fs' q c,
  mkdir fs p = Ok fs' -> stat fs' q = Some (File c) -> stat fs q = Some (File c).
Proof.
  intros fs0 p fs' q c H Hq. unfold mkdir in H.
  destruct (stat fs0 p) as [[x|]|] eqn:Ep; try discriminate H.
  - now injection H as <-.
  - destruct (stat fs0 (parent p)) as [[x|]|]; try discriminate H.
    injection H as <-. destruct q as [|b q]; [discriminate Hq|].
    unfold stat in Hq |- *. destruct (path_eqb p (b :: q)) eqn:E.
    + apply path_eqb_eq in E. subst p. rewrite find_set_entry_same in Hq. discriminate Hq.
    + now rewrite find_set_entry_other in Hq.
Qed.

Lemma mkdir_climb_keeps_files : forall n fs p fs' q c,
  mkdir_climb n fs p = Ok fs' -> stat fs' q = Some (File c) -> stat fs q = Some (File c).
Proof.
  induction n as [|n IH]; intros fs0 p fs' q c H Hq; cbn [mkdir_climb] in H.
  - exact (mkdir_keeps_files _ _ _ _ _ H Hq).
  - destruct (stat fs0 p) as [x|]; [exact (mkdir_keeps_files _ _ _ _ _ H Hq)|].
    destruct (stat fs0 (parent p)) as [x|]; [exact (mkdir_keeps_files _ _ _ _ _ H Hq)|].
    destruct (mkdir_climb n fs0 (parent p)) as [fs1|e] eqn:E; [|discriminate H].
    apply (IH _ _ _ _ _ E). exact (mkdir_keeps_files _ _ _ _ _ H Hq).
Qed.

Lemma copy2_Ok : forall fs src dst fs',
  copy2 fs src dst = Ok fs' ->
  exists c, stat fs src = Some (File c)
            /\ fs' = set_entry fs (copy_target fs src dst) (File c).
Proof.
  intros fs0 src dst fs' H. unfold copy2 in H. fold (copy_target fs0 src dst) in H.
  destruct (stat fs0 src) as [[c|]|]; try discriminate H.
  destruct (path_eqb src (copy_target fs0 src dst)); [discriminate H|].
  unfold write in H. exists c. split; [reflexivity|].
  destruct (stat fs0 (copy_target fs0 src dst)) as [[x|]|];
    destruct (stat fs0 (parent (copy_target fs0 src dst))) as [[y|]|];
    try discriminate H; now injection H as <-.
Qed.

Lemma div_longer : forall p a, div p a <> p.
Proof.
  intros p a H. apply (f_equal (@List.length string)) in H.
  unfold div in H. rewrite length_app in H. simpl in H. lia.
Qed.

Lemma copy_target_not_root : forall fs i o, copy_target fs i o <> [].
Proof.
  intros fs0 i o. unfold copy_target, is_dir. destruct o as [|x o].
  - cbn. discriminate.
  - destruct (stat fs0 (x :: o)) as [[c|]|]; try discriminate.
Qed.

Lemma preserve_runs : forall keeps o md a b w,
  exists w',
    preserve keeps o md a b w = (Ok tt, w')
    /\ fs w' = snd (embed keeps (fs w) o md)
    /\ (warnings (logged w) <= warnings (logged w'))%nat.
Proof.
  intros keeps o md a b w. unfold preserve, try_except, bind, run_fs, log.
  destruct (embed keeps (fs w) o md) as [[[]|e] fs']; cbn [fs logged with_fs snd]; eexists;
    (split; [reflexivity|]); (split; [reflexivity|]); cbn [logged];
    rewrite warnings_app; lia.
Qed.



(** ** What a transform touches *)

Lemma touches_only_refl : forall o fs, touches_only o fs fs.
Proof. intros o fs0. split; auto. Qed.

Lemma touches_only_trans : forall o fs1 fs2 fs3,
  touches_only o fs1 fs2 -> touches_only o fs2 fs3 -> touches_only o fs1 fs3.
Proof.
  intros o fs1 fs2 fs3 [H1 H1'] [H2 H2']. split.
  - intros q Hq. now rewrite H2, H1.
  - auto.
Qed.

Lemma touches_only_set_entry : forall o fs n, touches_only o fs (set_entry fs o n).
Proof.
  intros o fs0 n. split.
  - intros q Hq. apply stat_set_entry_other. congruence.
  - intros _. unfold exists_, stat. destruct o; [reflexivity|].
    now rewrite find_set_entry_same.
Qed.

Lemma write_Ok : forall fs p c fs', write fs p c = Ok fs' -> fs' = set_entry fs p (File c).
Proof.
  intros fs0 p c fs' H. unfold write in H.
  destruct (stat fs0 p) as [[x|]|]; destruct (stat fs0 (parent p)) as [[y|]|];
    try discriminate H; now injection H as <-.
Qed.

Lemma touches_only_Image_save : forall keeps fs img p fmt q e info,
  touches_only p fs (snd (Image_save keeps fs img p fmt q e info)).
Proof.
  intros keeps fs0 img p fmt q e info. unfold Image_save.
  destruct (write fs0 p (Data "")) as [opened|x] eqn:E; [|apply touches_only_refl].
  apply write_Ok in E. subst opened.
  destruct (writable fmt (mode img)); cbn [snd]; [apply touches_only_set_entry|].
  destruct (exists_ fs0 p); [apply touches_only_set_entry|apply touches_only_refl].
Qed.

Lemma touches_only_embed : forall keeps fs o md,
  touches_only o fs (snd (embed keeps fs o md)).
Proof.
  intros keeps fs0 o md. unfold embed.
  destruct (negb (truthy md)); [apply touches_only_refl|].
  destruct (size_limit <? Z.of_nat (String.length (dumps md)))%Z; [apply touches_only_refl|].
  cbv zeta.
  assert (H : forall a : result unit * filesystem,
            touches_only o fs0 (snd a) ->
            touches_only o fs0
              (snd (let (r, fs') := a in
                    match r with
                    | Ok u => match u with tt => (Ok tt, fs') end
                    | Raise e =>
                        (Raise (MetadataError ("Failed to embed metadata in " ++ name o
                                                 ++ ": " ++ str_exn e)), fs')
                    end))).
  { intros [[[]|e] fs'] Ha; exact Ha. }
  apply H.
  destruct (lower (suffix o) =? ".png").
  - unfold _embed_png. destruct (Image_open fs0 o); [|apply touches_only_refl].
    destruct (format_of_extension o); [|apply touches_only_refl].
    apply touches_only_Image_save.
  - destruct (mem (lower (suffix o)) [".jpg"; ".jpeg"; ".webp"]); [|apply touches_only_refl].
    unfold _embed_exif. destruct (Image_open fs0 o); [|apply touches_only_refl].
    destruct (format_of_extension o); [|apply touches_only_refl].
    apply touches_only_Image_save.
Qed.

Lemma mkdir_parents_dir : forall fs p, is_dir fs p = true -> mkdir_parents fs p = Ok fs.
Proof.
  intros fs0 p H. unfold is_dir in H. unfold mkdir_parents.
  destruct (stat fs0 p) as [[c|]|] eqn:E; try discriminate H.
  destruct (List.length p); cbn [mkdir_climb]; rewrite ?E; unfold mkdir; now rewrite E.
Qed.

Lemma preserve_frame : forall keeps o md a b w,
  exists w',
    preserve keeps o md a b w = (Ok tt, w')
    /\ fs w' = snd (embed keeps (fs w) o md)
    /\ runs w' = runs w /\ progressed w' = progressed w /\ statuses w' = statuses w.
Proof.
  intros keeps o md a b w. unfold preserve, try_except, bind, run_fs, log.
  destruct (embed keeps (fs w) o md) as [[[]|e] fs']; cbn [fs logged with_fs snd]; eexists;
    (split; [reflexivity|]); repeat split.
Qed.

Lemma maybe_preserve_frame : forall keeps (c : bool) o md a b w,
  exists w',
    (if c then preserve keeps o md a b else ret tt) w = (Ok tt, w')
    /\ touches_only o (fs w) (fs w')
    /\ runs w' = runs w /\ progressed w' = progressed w /\ statuses w' = statuses w.
Proof.
  intros keeps c o md a b w. destruct c.
  - destruct (preserve_frame keeps o md a b w) as (w' & H1 & H2 & H3).
    exists w'. split; [exact H1|]. split; [|exact H3].
    rewrite H2. apply touches_only_embed.
  - exists w. split; [reflexivity|]. split; [apply touches_only_refl|now repeat split].
Qed.

(** One transform of an image whose output directory is there: it does not
    raise, runs the script once if the input exists, touches the output file
    alone, and calls neither the progress nor the status callback. *)
Lemma process_image_frame : forall keeps mosaic self i o p md w,
  is_dir (fs w) (parent o) = true ->
  exists b w',
    process_image keeps mosaic self i o p md w = (Ok b, w')
    /\ touches_only o (fs w) (fs w')
    /\ runs w' = (runs w ++ if exists_ (fs w) i then [(i, o)] else [])%list
    /\ progressed w' = progressed w
    /\ statuses w' = statuses w.
Proof.
  intros keeps mosaic self i o p md w Hdir.
  unfold process_image. unfold bind at 1. unfold get_fs.
  destruct (exists_ (fs w) i) eqn:Ei; cbn [negb].
  - unfold bind at 1. unfold change_fs. rewrite (mkdir_parents_dir _ _ Hdir).
    unfold try_except. unfold bind at 1. unfold log at 1. unfold bind at 1.
    unfold subprocess_run. cbn [fs runs logged progressed statuses with_fs].
    set (r := mosaic (List.length (runs w)) (fs w) i o).
    set (fs1 := match run_output r with
                | Some c => match write (fs w) o c with Ok fs' => fs' | Raise _ => fs w end
                | None => fs w
                end).
    assert (Ht : touches_only o (fs w) fs1).
    { unfold fs1. destruct (run_output r) as [c|]; [|apply touches_only_refl].
      destruct (write (fs w) o c) as [fs'|e] eqn:E; [|apply touches_only_refl].
      apply write_Ok in E. subst fs'. apply touches_only_set_entry. }
    destruct (run_ending r) as [rc err| |e].
    + cbn [fst snd]. destruct (rc =? 0)%Z; cbn [negb].
      * unfold bind at 1. cbn [fs].
        destruct (exists_ fs1 o) eqn:Eo; cbn [negb].
        -- unfold bind at 1.
           match goal with
           | |- context [(if p && truthy md then preserve ?k ?o' ?m ?a ?b else ret tt) ?w0] =>
               destruct (maybe_preserve_frame k (p && truthy md) o' m a b w0)
                 as (wp & Hp1 & Hp2 & Hp3 & Hp4 & Hp5)
           end.
           cbn [fs runs progressed statuses] in Hp2, Hp3, Hp4, Hp5.
           rewrite Hp1. unfold bind, log, ret. eexists. eexists. split; [reflexivity|].
           cbn [fs runs progressed statuses].
           split; [exact (touches_only_trans _ _ _ _ Ht Hp2)|]. now repeat split.
        -- unfold bind, log, ret. eexists. eexists. split; [reflexivity|].
           cbn [fs runs progressed statuses]. split; [exact Ht|now repeat split].
      * unfold bind, log, ret. eexists. eexists. split; [reflexivity|].
        cbn [fs runs progressed statuses]. split; [exact Ht|now repeat split].
    + unfold bind, log, ret. eexists. eexists. split; [reflexivity|].
      cbn [fs runs progressed statuses]. split; [exact Ht|now repeat split].
    + destruct e; unfold bind, log, ret; eexists; eexists; (split; [reflexivity|]);
        cbn [fs runs progressed statuses]; (split; [exact Ht|now repeat split]).
  - unfold bind, log, ret. eexists. eexists. split; [reflexivity|].
    cbn [fs runs progressed statuses]. rewrite List.app_nil_r.
    split; [apply touches_only_refl|now repeat split].
Qed.

(** ** The pack driver *)

Lemma touches_only_exists : forall o fs fs' q,
  touches_only o fs fs' -> exists_ fs q = true -> exists_ fs' q = true.
Proof.
  intros o fs0 fs' q [H1 H2] Hq. destruct (path_eqb q o) eqn:E.
  - apply path_eqb_eq in E. subst q. now apply H2.
  - unfold exists_. rewrite H1; [exact Hq|].
    intros ->. now rewrite path_eqb_refl in E.
Qed.

Lemma touches_only_is_dir : forall o fs fs' q,
  touches_only o fs fs' -> q <> o -> is_dir fs' q = is_dir fs q.
Proof. intros o fs0 fs' q [H1 _] Hq. unfold is_dir. now rewrite H1. Qed.

Lemma parent_div : forall p a, parent (div p a) = p.
Proof. intros p a. unfold parent, div. apply removelast_last. Qed.

Lemma pack_loop_counts : forall keeps mosaic self pixiv_safe_dir metadata_map total_files
    png_files i processed_count failed_count w,
  is_dir (fs w) pixiv_safe_dir = true ->
  (forall f, In f png_files -> exists_ (fs w) f = true) ->
  exists processed failed w',
    pack_loop keeps mosaic self pixiv_safe_dir (PyDict metadata_map) total_files i png_files
      processed_count failed_count w = (Ok (processed, failed), w')
    /\ (processed + failed = processed_count + failed_count + List.length png_files)%nat
    /\ runs w' = (runs w ++ map (fun f => (f, div pixiv_safe_dir (name f))) png_files)%list
    /\ progressed w'
       = (progressed w
          ++ map (fun k => Z.max 0 (Z.min 100 (percent (Z.of_nat k) (Z.of_nat total_files))))
               (seq i (List.length png_files)))%list.
Proof.
  intros keeps mosaic self pixiv mm total files.
  induction files as [|src rest IH]; intros i pc fc w Hdir Hfiles.
  - exists pc, fc, w. cbn. rewrite !List.app_nil_r. repeat split. lia.
  - cbn [pack_loop]. unfold bind at 1. unfold lift. cbn [getattr_get].
    set (md := dict_get mm (name src) (PyDict [])).
    assert (Hparent : is_dir (fs w) (parent (div pixiv (name src))) = true)
      by (now rewrite parent_div).
    destruct (process_image_frame keeps mosaic self src (div pixiv (name src)) true
                (if truthy md then md else PyNone) w Hparent)
      as (b & w1 & Hrun & Ht & Hr & Hp & Hs).
    rewrite (Hfiles src (or_introl eq_refl)) in Hr.
    unfold bind at 1. rewrite Hrun.
    unfold bind at 1. unfold update_progress at 1.
    unfold bind at 1. unfold update_status at 1.
    match goal with
    | |- context [pack_loop _ _ _ _ _ _ _ _ ?pc' ?fc' ?w2] =>
        destruct (IH (S i) pc' fc' w2) as (pc2 & fc2 & w' & Hloop & Hsum & Hruns & Hprog)
    end.
    + cbn [fs]. rewrite (touches_only_is_dir _ _ _ _ Ht); [exact Hdir|].
      intros E. symmetry in E. now apply div_longer in E.
    + intros f Hf. cbn [fs]. apply (touches_only_exists _ _ _ _ Ht).
      apply Hfiles. now right.
    + exists pc2, fc2, w'. split; [exact Hloop|].
      cbn [runs progressed] in Hruns, Hprog. cbn [List.length seq map].
      split; [destruct b; lia|].
      split.
      * rewrite Hruns, Hr, <- List.app_assoc. reflexivity.
      * rewrite Hprog, Hp, <- List.app_assoc. reflexivity.
Qed.

Lemma validate_setup_frame : forall self w r wv,
  validate_setup self w = (r, wv) ->
  fs wv = fs w /\ runs wv = runs w /\ progressed wv = progressed w
  /\ statuses wv = statuses w.
Proof.
  intros self w r wv H. unfold validate_setup, bind, get_fs, log, ret in H.
  repeat match type of H with
         | context [if ?c then _ else _] => destruct c
         | context [match ?x with _ => _ end] => destruct x
         end;
    injection H as <- <-; now repeat split.
Qed.

Lemma load_metadata_map_frame : forall f w,
  exists v w',
    load_metadata_map f w = (Ok v, w')
    /\ fs w' = fs w /\ runs w' = runs w /\ progressed w' = progressed w
    /\ statuses w' = statuses w.
Proof.
  intros f w. unfold load_metadata_map, bind, get_fs, log, ret.
  repeat match goal with
         | |- context [if ?c then _ else _] => destruct c
         | |- context [match ?x with _ => _ end] => destruct x
         end;
    eexists; eexists; (split; [reflexivity|]); now repeat split.
Qed.

Lemma load_metadata_map_stat : forall f w w0,
  stat (fs w0) f = stat (fs w) f ->
  fst (load_metadata_map f w0) = fst (load_metadata_map f w).
Proof.
  intros f w w0 H. unfold load_metadata_map, bind, get_fs, log, ret, exists_, read_text.
  rewrite H.
  repeat match goal with
         | |- context [if ?c then _ else _] => destruct c
         | |- context [match ?x with _ => _ end] => destruct x
         end; reflexivity.
Qed.

Lemma set_entry_new : forall fs p n,
  OS.find fs p = None -> set_entry fs p n = (fs ++ [(p, n)])%list.
Proof.
  intros fs0. induction fs0 as [|[q m] fs0 IH]; intros p n H; simpl in *; [reflexivity|].
  destruct (path_eqb q p); [discriminate H|]. now rewrite IH.
Qed.

Lemma mkdir_Ok : forall fs p,
  is_dir fs (parent p) = true -> is_file fs p = false ->
  exists made,
    mkdir fs p = Ok made /\ is_dir made p = true /\ touches_only p fs made
    /\ (forall d pattern, parent p <> d -> p <> d -> glob made d pattern = glob fs d pattern).
Proof.
  intros fs0 p Hparent Hfile. unfold mkdir. unfold is_dir in Hparent. unfold is_file in Hfile.
  destruct (stat fs0 p) as [[c|]|] eqn:E; [discriminate Hfile| |].
  - exists fs0. split; [reflexivity|]. split; [unfold is_dir; now rewrite E|].
    split; [apply touches_only_refl|reflexivity].
  - destruct (stat fs0 (parent p)) as [[c|]|]; try discriminate Hparent.
    exists (set_entry fs0 p Dir). split; [reflexivity|].
    destruct p as [|a p]; [discriminate E|].
    split; [unfold is_dir, stat; now rewrite find_set_entry_same|].
    split; [apply touches_only_set_entry|].
    intros d pattern Hd1 Hd2. unfold glob, is_dir.
    rewrite stat_set_entry_other by exact Hd2.
    unfold children. unfold stat in E. rewrite (set_entry_new _ _ Dir E).
    rewrite filter_app. cbn [filter fst].
    rewrite (path_eqb_neq _ _ Hd1). now rewrite List.app_nil_r.
Qed.

Lemma find_In : forall fs p n, In (p, n) fs -> exists m, OS.find fs p = Some m.
Proof.
  intros fs0. induction fs0 as [|[q m] fs0 IH]; intros p n H; [contradiction|].
  simpl. destruct (path_eqb q p) eqn:E; [now exists m|].
  destruct H as [H|H]; [|exact (IH _ _ H)].
  injection H as -> ->. now rewrite path_eqb_refl in E.
Qed.

Lemma children_exist : forall fs d f, In f (children fs d) -> exists_ fs f = true.
Proof.
  intros fs0 d f H. unfold children in H. apply in_map_iff in H.
  destruct H as ([q n] & <- & H). apply filter_In in H. destruct H as [H Hq].
  cbn [fst] in *. destruct q as [|a q]; [discriminate Hq|].
  destruct (find_In _ _ _ H) as [m Hm]. unfold exists_, stat. now rewrite Hm.
Qed.

Lemma glob_exist : forall fs d pattern f,
  In f (iterate (glob fs d pattern)) -> exists_ fs f = true.
Proof.
  intros fs0 d pattern f H. unfold glob, iterate in H.
  destruct (is_dir fs0 d); [|contradiction].
  apply filter_In in H. destruct H as [H _]. exact (children_exist _ _ _ H).
Qed.

(** C2, as amended.  For a pack directory whose setup validation succeeds,
    whose [original_images] exists, where [pixiv_safe] is not a file and
    whose metadata, as loaded, is a mapping: [process_pack] returns [True]
    whatever the transforms do; it runs the mosaic script once, through the
    single-attempt [process_image], for each [*.png] of [original_images] in
    the order of the listing, with the output in [pixiv_safe] under the same
    name, and for no other file; each image counts once, as a success or as
    a failure; the progress reported after image [i] of [total] is the
    integer part of [i / total * 100], then 0 at the end; and the last
    status carries the two tallies. *)
Theorem process_pack_transforms_each_png :
  forall keeps mosaic self pack_path metadata_map w wv,
    validate_setup self w = (Ok true, wv) ->
    exists_ (fs w) (div pack_path "original_images") = true ->
    is_dir (fs w) pack_path = true ->
    is_file (fs w) (div pack_path "pixiv_safe") = false ->
    fst (load_metadata_map (div pack_path "metadata.json") w) = Ok (PyDict metadata_map) ->
    let png_files := iterate (glob (fs w) (div pack_path "original_images") "*.png") in
    exists processed failed w',
      process_pack keeps mosaic self pack_path w = (Ok true, w')
      /\ (processed + failed = List.length png_files)%nat
      /\ runs w'
         = (runs w
            ++ map (fun f => (f, div (div pack_path "pixiv_safe") (name f))) png_files)%list
      /\ progressed w' = (progressed w ++ pack_progress (List.length png_files))%list
      /\ (png_files <> [] -> last (statuses w') "" = final_status processed failed).
Proof.
  intros keeps mosaic self pack mm w wv Hvalid Horig Hpack Hsafe Hmap png_files.
  destruct (validate_setup_frame _ _ _ _ Hvalid) as (Hvf & Hvr & Hvp & Hvs).
  unfold process_pack. unfold bind at 1. rewrite Hvalid. cbn [negb].
  unfold bind at 1. unfold get_fs. rewrite Hvf, Horig. cbn [negb].
  destruct (mkdir_Ok (fs w) (div pack "pixiv_safe")) as (made & Hmk & Hmd & Hmt & Hglob);
    [now rewrite parent_div|exact Hsafe|].
  unfold bind at 1. unfold change_fs. rewrite Hvf, Hmk.
  destruct (load_metadata_map_frame (div pack "metadata.json") (with_fs wv made))
    as (v & wl & Hload & Hlf & Hlr & Hlp & Hls).
  assert (Hv : v = PyDict mm).
  { assert (E : fst (load_metadata_map (div pack "metadata.json") (with_fs wv made))
                = Ok (PyDict mm)).
    { rewrite <- Hmap. apply load_metadata_map_stat. cbn [fs with_fs].
      apply (proj1 Hmt). intros E. apply div_inj in E. destruct E as [_ E]. discriminate E. }
    rewrite Hload in E. cbn [fst] in E. now injection E. }
  subst v. cbn [fs runs progressed statuses with_fs] in Hlf, Hlr, Hlp, Hls.
  unfold bind at 1. rewrite Hload. unfold bind at 1. rewrite Hlf.
  assert (Hfiles : iterate (glob made (div pack "original_images") "*.png") = png_files).
  { unfold png_files. rewrite Hglob; [reflexivity| |].
    - rewrite parent_div. intros E. symmetry in E. now apply div_longer in E.
    - intros E. apply div_inj in E. destruct E as [_ E]. discriminate E. }
  rewrite Hfiles.
  assert (Hex : forall f, In f png_files -> exists_ made f = true).
  { intros f Hf. apply (touches_only_exists _ _ _ _ Hmt).
    exact (glob_exist _ _ _ _ Hf). }
  destruct png_files as [|f0 rest] eqn:Epng.
  - exists O, O. unfold bind, log, ret. eexists. split; [reflexivity|].
    cbn [runs progressed statuses List.length map pack_progress].
    rewrite !List.app_nil_r. repeat split; try congruence.
  - unfold bind at 1. unfold update_status at 1. unfold bind at 1.
    match goal with
    | |- context [pack_loop _ _ _ ?pix _ ?t ?i ?files ?pc ?fc ?w2] =>
        destruct (pack_loop_counts keeps mosaic self pix mm t files i pc fc w2)
          as (processed & failed & w3 & Hloop & Hsum & Hruns & Hprog)
    end.
    + cbn [fs]. now rewrite Hlf.
    + intros f Hf. cbn [fs]. rewrite Hlf. now apply Hex.
    + rewrite Hloop. cbn [runs progressed] in Hruns, Hprog.
      exists processed, failed.
      unfold bind at 1. unfold update_progress at 1. unfold bind at 1.
      destruct (failed =? 0)%nat eqn:Ef.
      * unfold bind, update_status, log, ret. eexists. split; [reflexivity|].
        cbn [runs progressed statuses]. split; [cbn in Hsum |- *; lia|].
        split; [rewrite Hruns; congruence|].
        split; [rewrite Hprog, Hlp, Hvp, <- List.app_assoc; reflexivity|].
        intros _. rewrite last_last. unfold final_status. now rewrite Ef.
      * unfold bind, update_status, log, ret. eexists. split; [reflexivity|].
        cbn [runs progressed statuses]. split; [cbn in Hsum |- *; lia|].
        split; [rewrite Hruns; congruence|].
        split; [rewrite Hprog, Hlp, Hvp, <- List.app_assoc; reflexivity|].
        intros _. rewrite last_last. unfold final_status. now rewrite Ef.
Qed.

Lemma process_pack_transforms_each_png_witness :
  exists w',
    process_pack true service_up sample_processor ["pack"] (start sample_mosaic_pack)
    = (Ok true, w')
    /\ runs w'
       = [ (["pack"; "original_images"; "a.png"], ["pack"; "pixiv_safe"; "a.png"]);
           (["pack"; "original_images"; "c.png"], ["pack"; "pixiv_safe"; "c.png"]) ]
    /\ progressed w' = [50; 100; 0]%Z
    /\ last (statuses w') "" = "✅ Processamento completo: 2 imagens processadas com sucesso!"
    /\ extract_png (fs w') ["pack"; "pixiv_safe"; "a.png"] = Ok (PyDict sample_metadata).
Proof.
  assert (Hvalid : validate_setup sample_processor (start sample_mosaic_pack)
                   = (Ok true, snd (validate_setup sample_processor (start sample_mosaic_pack))))
    by (vm_compute; reflexivity).
  assert (Hmap : fst (load_metadata_map (div ["pack"] "metadata.json")
                        (start sample_mosaic_pack))
                 = Ok (PyDict sample_pack_metadata))
    by (vm_compute; reflexivity).
  destruct (process_pack_transforms_each_png true service_up sample_processor ["pack"]
              sample_pack_metadata (start sample_mosaic_pack) _
              Hvalid eq_refl eq_refl eq_refl Hmap)
    as (processed & failed & w' & Hrun & Hsum & Hruns & Hprog & Hlast).
  exists w'. split; [exact Hrun|]. split; [exact Hruns|]. split; [exact Hprog|].
  assert (Hw : w' = snd (process_pack true service_up sample_processor ["pack"]
                           (start sample_mosaic_pack)))
    by (now rewrite Hrun).
  rewrite Hw. split; vm_compute; reflexivity.
Defined.

(** C2 as it is stated fails.  With the mosaic service down and a pack of
    two PNG files and one JPEG: [process_pack] runs the script once for each
    PNG and never for the JPEG, leaves no output for any of them and ends
    with two failures; the retrying transform, on the first PNG in the same
    world, runs the script twice, copies the original to the output and
    returns [True]. *)
Lemma process_pack_counterexample :
  fst (validate_setup sample_processor (start sample_mosaic_pack)) = Ok true
  /\ iterate (glob sample_mosaic_pack ["pack"; "original_images"] "*.jpg")
     = [["pack"; "original_images"; "b.jpg"]]
  /\ (exists w',
        process_pack true service_down sample_processor ["pack"] (start sample_mosaic_pack)
        = (Ok true, w')
        /\ runs w'
           = [ (["pack"; "original_images"; "a.png"], ["pack"; "pixiv_safe"; "a.png"]);
               (["pack"; "original_images"; "c.png"], ["pack"; "pixiv_safe"; "c.png"]) ]
        /\ exists_ (fs w') ["pack"; "pixiv_safe"; "a.png"] = false
        /\ exists_ (fs w') ["pack"; "pixiv_safe"; "b.jpg"] = false
        /\ last (statuses w') "" = "⚠️ Processamento completo: 0 sucessos, 2 falhas")
  /\ (exists w2,
        process_image_with_retry true service_down sample_processor
          ["pack"; "original_images"; "a.png"] ["pack"; "pixiv_safe"; "a.png"] true
          (PyDict sample_metadata) 2 (start sample_mosaic_pack)
        = (Ok true, w2)
        /\ runs w2
           = [ (["pack"; "original_images"; "a.png"], ["pack"; "pixiv_safe"; "a.png"]);
               (["pack"; "original_images"; "a.png"], ["pack"; "pixiv_safe"; "a.png"]) ]
        /\ exists_ (fs w2) ["pack"; "pixiv_safe"; "a.png"] = true).
Proof.
  split; [vm_compute; reflexivity|]. split; [vm_compute; reflexivity|].
  split; eexists; (split; [vm_compute; reflexivity|]); repeat split; vm_compute; reflexivity.
Qed.

(** The progress is the integer part of a floating-point product. *)
Example percent_truncates :
  percent 29 100 = 28%Z /\ percent 1 3 = 33%Z /\ percent 2 3 = 66%Z /\ percent 3 3 = 100%Z.
Proof. repeat split; vm_compute; reflexivity. Qed.


(** ** Embedding in the EXIF block *)

Lemma format_of_extension_suffix : forall p fmt,
  format_of_extension p = Some fmt ->
  (lower (suffix p) =? ".png") = (fmt =? "PNG")
  /\ ((fmt =? "PNG") = false -> mem (lower (suffix p)) [".jpg"; ".jpeg"; ".webp"] = true).
Proof.
  intros p fmt H. unfold format_of_extension in H. unfold mem. cbn [existsb].
  destruct (lower (suffix p) =? ".png") eqn:E1; [injection H as <-; now split|].
  destruct (lower (suffix p) =? ".jpg") eqn:E2; cbn [orb] in H |- *;
    [injection H as <-; now split|].
  destruct (lower (suffix p) =? ".jpeg") eqn:E3; cbn [orb] in H |- *;
    [injection H as <-; now split|].
  destruct (lower (suffix p) =? ".webp") eqn:E4; [injection H as <-; now split|discriminate H].
Qed.

Lemma Image_save_on_file : forall keeps fs img0 img p fmt q e info,
  Image_open fs p = Ok img0 ->
  is_dir fs (parent p) = true ->
  Image_save keeps fs img p fmt q e info
  = if writable fmt img.(mode)
    then (Ok tt, set_entry fs p (File (Picture (saved keeps img fmt q e info))))
    else (Raise (OSError ("cannot write mode " ++ img.(mode) ++ " as " ++ fmt)),
          set_entry fs p (File (Data ""))).
Proof.
  intros keeps fs0 img0 img p fmt q e info Hopen Hdir.
  destruct (Image_open_path _ _ _ Hopen) as [Hne Hfind].
  assert (Hstat : stat fs0 p = Some (File (Picture img0))).
  { unfold stat. destruct p; [contradiction|exact Hfind]. }
  unfold Image_save, write, exists_. rewrite Hstat. unfold is_dir in Hdir.
  destruct (stat fs0 (parent p)) as [[c|]|]; try discriminate Hdir.
  reflexivity.
Qed.

(** What [embed] does to an image file in a format it supports: the file
    is written with the metadata when the writer accepts the mode of the
    image, and is left empty when it does not. *)
Lemma embed_on_image : forall keeps fs path img fmt metadata,
  Image_open fs path = Ok img ->
  is_dir fs (parent path) = true ->
  format_of_extension path = Some fmt ->
  truthy metadata = true ->
  within_limit metadata ->
  embed keeps fs path metadata
  = if writable fmt img.(mode)
    then (Ok tt,
          set_entry fs path
            (File (Picture
                     (if fmt =? "PNG"
                      then saved keeps img fmt None None [("Comment", dumps metadata)]
                      else saved keeps img fmt None
                             (Some (Description (dumps metadata))) []))))
    else (Raise (MetadataError ("Failed to embed metadata in " ++ name path
                                  ++ ": cannot write mode " ++ img.(mode) ++ " as " ++ fmt)),
          set_entry fs path (File (Data ""))).
Proof.
  intros keeps fs0 path img fmt md Hopen Hdir Hfmt Ht Hsize.
  destruct (format_of_extension_suffix _ _ Hfmt) as [Hs1 Hs2].
  unfold embed. rewrite Ht. cbn [negb].
  replace (size_limit <? Z.of_nat (String.length (dumps md)))%Z with false
    by (symmetry; apply Z.ltb_ge; exact Hsize).
  cbv zeta. rewrite Hs1.
  destruct (fmt =? "PNG") eqn:Hpng.
  - unfold _embed_png. rewrite Hopen, Hfmt.
    rewrite (Image_save_on_file _ _ _ _ _ _ _ _ _ Hopen Hdir).
    now destruct (writable fmt (mode img)).
  - rewrite (Hs2 eq_refl). unfold _embed_exif. rewrite Hopen, Hfmt.
    rewrite (Image_save_on_file _ _ _ _ _ _ _ _ _ Hopen Hdir).
    now destruct (writable fmt (mode img)).
Qed.

Lemma Image_open_set_entry : forall fs p c,
  p <> [] -> Image_open (set_entry fs p (File (Picture c))) p = Ok c.
Proof. intros fs0 p c Hp. unfold Image_open. now rewrite stat_set_entry_same. Qed.





(** X3.  [validate_metadata_size] answers [False] exactly for the metadata
    [embed] refuses as too large, whatever the path and the file system;
    [embed] then leaves the file system as it is. *)
Theorem validate_metadata_size_guards_embed : forall keeps_exif fs path metadata,
  validate_metadata_size metadata = false
  <-> embed keeps_exif fs path metadata
      = (Raise (MetadataError ("Metadata too large for " ++ name path ++ " (>60KB)")), fs).
Proof.
  intros keeps fs0 path md. unfold validate_metadata_size, embed.
  destruct (negb (truthy md)); [split; discriminate|].
  destruct (Z.ltb_spec size_limit (Z.of_nat (String.length (dumps md)))) as [H|H].
  - replace (Z.of_nat (String.length (dumps md)) <=? size_limit)%Z with false
      by (symmetry; apply Z.leb_gt; exact H).
    split; reflexivity.
  - replace (Z.of_nat (String.length (dumps md)) <=? size_limit)%Z with true
      by (symmetry; apply Z.leb_le; exact H).
    split; [discriminate|]. cbv zeta.
    match goal with
    | |- (let (r, fs') := ?a in _) = _ -> _ => destruct a as [[[]|e] fs']
    end; intros E; discriminate E.
Qed.


(** ** Extraction never fails on an image *)


(** X6.  An image with no comment to read (it is not a PNG, or has no Comment
    chunk, or an empty one) and for which none of the three lookups finds a
    description gives the empty mapping. *)
Theorem extract_png_nothing_found : forall fs path img,
  Image_open fs path = Ok img ->
  upper img.(format) <> "PNG" \/ lookup img.(text) "Comment" = None
  \/ lookup img.(text) "Comment" = Some "" ->
  piexif_finds_nothing img ->
  getexif_finds_nothing img ->
  img.(has__getexif) = false \/ img.(legacy_description) = Absent
  \/ img.(legacy_description) = Fails ->
  extract_png fs path = Ok (PyDict []).
Proof.
  intros fs0 path img Hopen Hcomment Hp Hg Hl.
  rewrite (extract_png_open _ _ _ Hopen).
  assert (Hsrc : metadata_source img = "{}").
  { unfold metadata_source, read_fields. cbv zeta.
    rewrite (piexif_nothing img Hp). rewrite String.eqb_refl.
    rewrite (getexif_nothing img Hg). rewrite String.eqb_refl. cbn [andb].
    assert (Hleg : (if has__getexif img
                    then match legacy_description img with
                         | Found s => s
                         | Absent | Fails => ""
                         end
                    else "") = "").
    { destruct Hl as [H|[H|H]]; rewrite H; [reflexivity| |]; now destruct (has__getexif img). }
    rewrite Hleg.
    assert (Hc : (if upper (PIL.format img) =? "PNG"
                  then dict_get (text img) "Comment" "" else "") = "").
    { destruct (String.eqb_spec (upper (PIL.format img)) "PNG") as [E|E]; [|reflexivity].
      unfold dict_get. destruct Hcomment as [H|[H|H]]; [contradiction| |]; now rewrite H. }
    rewrite Hc. reflexivity. }
  rewrite Hsrc. reflexivity.
Qed.

Lemma extract_png_nothing_found_witness :
  extract_png sample_album ["album"; "photo.jpg"] = Ok (PyDict []).
Proof.
  apply (extract_png_nothing_found sample_album ["album"; "photo.jpg"] sample_jpeg).
  - reflexivity.
  - left. discriminate.
  - left. reflexivity.
  - right. left. reflexivity.
  - right. left. reflexivity.
Defined.

(** ** The character list of a pack that is not well formed *)

Lemma character_step_cases : forall characters image_meta,
  (metadata_object image_meta
   /\ exists characters', character_step characters image_meta = Ok characters')
  \/ exists msg, character_step characters image_meta = Raise (AttributeError msg).
Proof.
  intros characters m. unfold character_step.
  destruct m as [|b|z|lit|s|l|d]; try (right; cbn; now eexists).
  cbn [getattr_get]. unfold dict_get.
  destruct (lookup d "character") as [v|] eqn:Hl.
  - destruct (truthy v) eqn:Ht.
    + destruct v as [|b|z|lit|s|l|d']; try (right; cbn; now eexists).
      left. split.
      * exists d. split; [reflexivity|]. intros v Hv _. rewrite Hl in Hv.
        injection Hv as <-. now exists s.
      * cbn [getattr_replace].
        destruct (negb (strip (replace_char "_" " " s) =? "")
                  && negb (mem (strip (replace_char "_" " " s)) characters)); now eexists.
    + left. split; [|now eexists].
      exists d. split; [reflexivity|]. intros v' Hv Hv'. rewrite Hl in Hv.
      injection Hv as <-. rewrite Ht in Hv'. discriminate Hv'.
  - left. cbn [truthy String.eqb negb]. split; [|now eexists].
    exists d. split; [reflexivity|]. intros v Hv. rewrite Hl in Hv. discriminate Hv.
Qed.

Lemma character_loop_cases : forall metas characters,
  Forall metadata_object metas
  \/ exists msg, character_loop characters metas = Raise (AttributeError msg).
Proof.
  induction metas as [|m metas IH]; intros characters; [now left|].
  cbn [character_loop].
  destruct (character_step_cases characters m) as [[Hm [c' Hc]]|[msg Hmsg]].
  - rewrite Hc. destruct (IH c') as [H|H]; [left; now constructor|now right].
  - right. exists msg. now rewrite Hmsg.
Qed.

(** X7.  [create_character_list] either finds every entry of the pack to be a
    metadata object (a mapping whose [character], when it is not empty, is a
    string) and returns a list, or raises an [AttributeError]: one entry
    that is no mapping, or whose [character] is a non-empty value other than
    a string, costs the whole list. *)
Theorem create_character_list_or_AttributeError : forall pack_metadata,
  (Forall metadata_object (values pack_metadata)
   /\ exists names, create_character_list pack_metadata = Ok names)
  \/ exists msg, create_character_list pack_metadata = Raise (AttributeError msg).
Proof.
  intros pm. unfold create_character_list.
  destruct (character_loop_cases (values pm) []) as [H|[msg H]].
  - left. split; [exact H|]. rewrite (character_loop_spec _ [] H). now eexists.
  - right. exists msg. now rewrite H.
Qed.

(** ** The watermark stays inside the image *)

(** X8.  When the margins are not negative and the watermark fits in the image
    beside its margin (wm_width + margin_x <= base_width, and likewise in
    height), the position [_calculate_position] gives, for any anchor name
    whatever, keeps the whole watermark inside the image. *)
Theorem calculate_position_inside :
  forall base_width base_height wm_width wm_height position margin_x margin_y,
    (0 <= margin_x)%Z -> (0 <= margin_y)%Z ->
    (wm_width + margin_x <= base_width)%Z ->
    (wm_height + margin_y <= base_height)%Z ->
    let (x, y) := _calculate_position base_width base_height wm_width wm_height
                    position margin_x margin_y in
    (0 <= x /\ x + wm_width <= base_width /\ 0 <= y /\ y + wm_height <= base_height)%Z.
Proof.
  intros bw bh ww wh position mx my Hmx Hmy Hw Hh.
  unfold _calculate_position, getitem, positions, dict_get.
  cbn [lookup String.eqb Ascii.eqb Bool.eqb andb].
  assert (Hcx : (0 <= (bw - ww) / 2 /\ (bw - ww) / 2 + ww <= bw)%Z)
    by (Z.div_mod_to_equations; lia).
  assert (Hcy : (0 <= (bh - wh) / 2 /\ (bh - wh) / 2 + wh <= bh)%Z)
    by (Z.div_mod_to_equations; lia).
  repeat match goal with
         | |- context [if ?b then _ else _] => destruct b
         end; lia.
Qed.

Lemma calculate_position_inside_witness :
  let (x, y) := _calculate_position 1000 800 200 100 "center" 20 20 in
  (0 <= x /\ x + 200 <= 1000 /\ 0 <= y /\ y + 100 <= 800)%Z.
Proof.
  apply (calculate_position_inside 1000 800 200 100 "center" 20 20); lia.
Defined.

(** ** What [apply_watermark] returns *)

(** X9.  When [apply_watermark] returns an image, it is an RGB image of the size
    of the base image, without text chunks, and the watermark file has
    opened as an image of non-zero height; when it raises, what it raises is
    a [WatermarkError]; and a watermark file that is missing gives the error
    'Watermark file not found'. *)
Theorem apply_watermark_result : forall fs base_image config,
  match apply_watermark fs base_image config with
  | Ok out =>
      out.(mode) = "RGB" /\ out.(size) = base_image.(size) /\ out.(text) = []
      /\ exists wm, Image_open fs config.(wm_path) = Ok wm /\ snd wm.(size) <> 0%Z
  | Raise e => exists msg, e = WatermarkError msg
  end
  /\ (exists_ fs config.(wm_path) = false ->
      apply_watermark fs base_image config
      = Raise (WatermarkError ("Watermark file not found: " ++ str_path config.(wm_path)))).
Proof.
  intros fs0 base config. split.
  - unfold apply_watermark.
    destruct (negb (exists_ fs0 (wm_path config))); [now eexists|].
    cbv zeta.
    destruct (Image_open fs0 (wm_path config)) as [wm|e]; [|now eexists].
    cbn [convert size].
    destruct (size base) as [base_width base_height] eqn:Hsize.
    destruct (py_int _) as [watermark_size|e]; [|now eexists].
    destruct (Z.eqb_spec (snd (size wm)) 0) as [Hz|Hz]; [now eexists|].
    destruct (PrimFloat.leb 1 _).
    + destruct (py_int _) as [new_height|e]; [|now eexists].
      destruct ((watermark_size <=? 0) || (new_height <=? 0))%Z; [now eexists|].
      cbn [mode size text convert with_pixels]. rewrite Hsize.
      repeat split. now exists wm.
    + destruct (py_int _) as [new_width|e]; [|now eexists].
      destruct ((new_width <=? 0) || (watermark_size <=? 0))%Z; [now eexists|].
      cbn [mode size text convert with_pixels]. rewrite Hsize.
      repeat split. now exists wm.
  - intros H. unfold apply_watermark. now rewrite H.
Qed.


(** ** The setup *)

(** X10.  [validate_setup] never raises and leaves the file system alone; it
    logs one entry, a SUCCESS when it answers [True] and an ERROR otherwise;
    and it answers [True] exactly when the external directory, the script
    and the workflow file exist and the workflow file is UTF-8 text that
    parses as JSON. *)
Theorem validate_setup_checks : forall (self : AutoMosaicProcessor) (w : world),
  exists (valid : bool) (message : string),
    validate_setup self w
    = (Ok valid, snd (log message (if valid then SUCCESS else ERROR) w))
    /\ (valid = true
        <-> exists_ (fs w) self.(external_dir) = true
            /\ exists_ (fs w) self.(script_path) = true
            /\ exists_ (fs w) self.(workflow_path) = true
            /\ exists text workflow,
                 read_text (fs w) self.(workflow_path) = Ok text
                 /\ loads text = Ok workflow).
Proof.
  intros self w. unfold validate_setup. unfold bind at 1. unfold get_fs.
  destruct (exists_ (fs w) (external_dir self)) eqn:E1; cbn [negb].
  2:{ eexists false, _. split; [reflexivity|]. split; [discriminate|].
      intros (H & _). discriminate H. }
  destruct (exists_ (fs w) (script_path self)) eqn:E2; cbn [negb].
  2:{ eexists false, _. split; [reflexivity|]. split; [discriminate|].
      intros (_ & H & _). discriminate H. }
  destruct (exists_ (fs w) (workflow_path self)) eqn:E3; cbn [negb].
  2:{ eexists false, _. split; [reflexivity|]. split; [discriminate|].
      intros (_ & _ & H & _). discriminate H. }
  destruct (read_text (fs w) (workflow_path self)) as [text|e] eqn:E4.
  2:{ eexists false, _. split; [reflexivity|]. split; [discriminate|].
      intros (_ & _ & _ & text & v & H & _). discriminate H. }
  destruct (loads text) as [v|e] eqn:E5.
  - eexists true, _. split; [reflexivity|]. split; [|reflexivity].
    intros _. repeat split. now exists text, v.
  - eexists false, _. split; [reflexivity|]. split; [discriminate|].
    intros (_ & _ & _ & text' & v & H & H'). injection H as <-. rewrite E5 in H'.
    discriminate H'.
Qed.

(** ** One transform *)

(** What [subprocess_run] leaves of the file system. *)
Lemma subprocess_run_touches : forall mosaic i o w,
  touches_only o (fs w) (fs (snd (subprocess_run mosaic i o w))).
Proof.
  intros mosaic i o w. unfold subprocess_run.
  assert (H : touches_only o (fs w)
                match run_output (mosaic (List.length (runs w)) (fs w) i o) with
                | Some c => match write (fs w) o c with Ok fs' => fs' | Raise _ => fs w end
                | None => fs w
                end).
  { destruct (run_output _) as [c|]; [|apply touches_only_refl].
    destruct (write (fs w) o c) as [fs'|e] eqn:E; [|apply touches_only_refl].
    apply write_Ok in E. subst fs'. apply touches_only_set_entry. }
  destruct (run_ending _); exact H.
Qed.

(** A transform that returns [True] has run the script, which has ended
    with code 0, and has found the output. *)
Lemma process_image_True_inv : forall keeps mosaic self i o p md w w',
  process_image keeps mosaic self i o p md w = (Ok true, w') ->
  exists_ (fs w) i = true
  /\ exists_ (fs w') o = true
  /\ runs w' = (runs w ++ [(i, o)])%list
  /\ exists made stderr,
       mkdir_parents (fs w) (parent o) = Ok made
       /\ run_ending (mosaic (List.length (runs w)) made i o) = Completed 0 stderr.
Proof.
  intros keeps mosaic self i o p md w w' H.
  unfold process_image in H. unfold bind at 1 in H. unfold get_fs in H.
  destruct (exists_ (fs w) i) eqn:Ei; cbn [negb] in H.
  2:{ unfold bind, log, ret in H. discriminate H. }
  split; [reflexivity|].
  unfold bind at 1 in H. unfold change_fs in H.
  destruct (mkdir_parents (fs w) (parent o)) as [made|e] eqn:Emk; [|discriminate H].
  unfold try_except in H. unfold bind at 1 in H. unfold log at 1 in H.
  unfold bind at 1 in H.
  match type of H with
  | context [subprocess_run ?m ?a ?b ?w0] =>
      pose proof (subprocess_run_touches m a b w0) as Ht;
      assert (Hr : runs (snd (subprocess_run m a b w0)) = (runs w ++ [(i, o)])%list)
        by (unfold subprocess_run; cbn [runs with_fs fs]; now destruct (run_ending _));
      assert (He : forall rc err ws, subprocess_run m a b w0 = (Ok (rc, err), ws) ->
                     run_ending (mosaic (List.length (runs w)) made i o) = Completed rc err)
        by (unfold subprocess_run; cbn [runs with_fs fs];
            destruct (run_ending _); intros rc err ws E; [now injection E as <- <-|
              discriminate E|discriminate E]);
      destruct (subprocess_run m a b w0) as [[[rc err]|e] ws]
  end.
  2:{ destruct e; unfold bind, log, ret in H; discriminate H. }
  cbn [fst snd] in H, Ht, Hr. specialize (He rc err ws eq_refl).
  destruct (Z.eqb_spec rc 0) as [Hrc|Hrc]; cbn [negb] in H.
  2:{ unfold bind, log, ret in H. discriminate H. }
  subst rc. unfold bind at 1 in H. unfold get_fs in H.
  destruct (exists_ (fs ws) o) eqn:Eo; cbn [negb] in H.
  2:{ unfold bind, log, ret in H. discriminate H. }
  unfold bind at 1 in H.
  match type of H with
  | context [(if p && truthy md then preserve ?k ?o' ?m ?a ?b else ret tt) ?w0] =>
      destruct (maybe_preserve_frame k (p && truthy md) o' m a b w0)
        as (wp & Hp1 & Hp2 & Hp3 & Hp4 & Hp5)
  end.
  rewrite Hp1 in H. unfold bind, log, ret in H. injection H as <-. cbn [fs runs].
  split; [exact (touches_only_exists _ _ _ _ Hp2 Eo)|].
  split; [now rewrite Hp3|]. now exists made, err.
Qed.

(** ** The runs of the script and the callbacks *)

Lemma launches_weaken : forall (A : Type) n n' i o (m : M A),
  launches n i o m -> (n <= n')%nat -> launches n' i o m.
Proof.
  intros A n n' i o m H Hn w. destruct (H w) as (l & H1 & H2 & H3).
  exists l. repeat split; [exact H1|lia|exact H3].
Qed.

Lemma launches_same : forall (A : Type) i o (m : M A),
  (forall w, runs (snd (m w)) = runs w) -> launches 0 i o m.
Proof.
  intros A i o m H w. exists []. rewrite List.app_nil_r. split; [apply H|]. split; [apply Nat.le_refl|constructor].
Qed.

Lemma launches_ret : forall (A : Type) i o (a : A), launches 0 i o (ret a).
Proof. intros. now apply launches_same. Qed.

Lemma launches_raise : forall (A : Type) i o (e : exn), launches 0 i o (@raise A e).
Proof. intros. now apply launches_same. Qed.

Lemma launches_lift : forall (A : Type) i o (r : result A), launches 0 i o (lift r).
Proof. intros. now apply launches_same. Qed.

Lemma launches_get_fs : forall i o, launches 0 i o get_fs.
Proof. intros. now apply launches_same. Qed.

Lemma launches_on_fs : forall (A : Type) i o (f : filesystem -> result A),
  launches 0 i o (on_fs f).
Proof. intros. now apply launches_same. Qed.

Lemma launches_change_fs : forall i o f, launches 0 i o (change_fs f).
Proof.
  intros. apply launches_same. intros w. unfold change_fs. now destruct (f (fs w)).
Qed.

Lemma launches_run_fs : forall (A : Type) i o (f : filesystem -> result A * filesystem),
  launches 0 i o (run_fs f).
Proof.
  intros. apply launches_same. intros w. unfold run_fs. now destruct (f (fs w)).
Qed.

Lemma launches_log : forall i o m l, launches 0 i o (log m l).
Proof. intros. now apply launches_same. Qed.

Lemma launches_update_progress : forall i o v, launches 0 i o (update_progress v).
Proof. intros. now apply launches_same. Qed.

Lemma launches_update_status : forall i o s, launches 0 i o (update_status s).
Proof. intros. now apply launches_same. Qed.

Lemma launches_subprocess_run : forall mosaic i o, launches 1 i o (subprocess_run mosaic i o).
Proof.
  intros mosaic i o w. exists [(i, o)]. unfold subprocess_run.
  destruct (run_ending _); cbn [snd runs]; repeat split; auto.
Qed.

Lemma launches_bind : forall (A B : Type) n1 n2 i o (m : M A) (k : A -> M B),
  launches n1 i o m -> (forall a, launches n2 i o (k a)) -> launches (n1 + n2) i o (bind m k).
Proof.
  intros A B n1 n2 i o m k Hm Hk w. unfold bind.
  destruct (Hm w) as (l1 & H1 & H2 & H3).
  destruct (m w) as [[a|e] w1]; cbn [snd] in H1.
  - destruct (Hk a w1) as (l2 & H4 & H5 & H6). exists (l1 ++ l2)%list.
    rewrite H4, H1, List.app_assoc, length_app. repeat split; [lia|].
    apply Forall_app. now split.
  - exists l1. repeat split; [exact H1|lia|exact H3].
Qed.

Lemma launches_try_except : forall (A : Type) n1 n2 i o (m : M A) (h : exn -> M A),
  launches n1 i o m -> (forall e, launches n2 i o (h e)) ->
  launches (n1 + n2) i o (try_except m h).
Proof.
  intros A n1 n2 i o m h Hm Hh w. unfold try_except.
  destruct (Hm w) as (l1 & H1 & H2 & H3).
  destruct (m w) as [[a|e] w1]; cbn [snd] in H1.
  - exists l1. repeat split; [exact H1|lia|exact H3].
  - destruct (Hh e w1) as (l2 & H4 & H5 & H6). exists (l1 ++ l2)%list.
    rewrite H4, H1, List.app_assoc, length_app. repeat split; [lia|].
    apply Forall_app. now split.
Qed.

Lemma launches_if : forall (A : Type) n i o (b : bool) (m1 m2 : M A),
  launches n i o m1 -> launches n i o m2 -> launches n i o (if b then m1 else m2).
Proof. intros A n i o b m1 m2 H1 H2. now destruct b. Qed.

Create HintDb launches.
#[export] Hint Resolve launches_ret launches_raise launches_lift launches_get_fs
  launches_on_fs launches_change_fs launches_run_fs launches_log launches_update_progress
  launches_update_status launches_if : launches.

(** A step that does not start the script, then the rest. *)
Lemma launches_then : forall (A B : Type) n i o (m : M A) (k : A -> M B),
  launches 0 i o m -> (forall a, launches n i o (k a)) -> launches n i o (bind m k).
Proof. intros A B n i o m k Hm Hk. exact (launches_bind _ _ 0 n i o m k Hm Hk). Qed.

Lemma launches_handled : forall (A : Type) n i o (m : M A) (h : exn -> M A),
  launches n i o m -> (forall e, launches 0 i o (h e)) -> launches n i o (try_except m h).
Proof.
  intros A n i o m h Hm Hh.
  apply (launches_weaken _ (n + 0) n); [|lia]. now apply launches_try_except.
Qed.

Lemma launches_preserve : forall keeps i o p md a b, launches 0 i o (preserve keeps p md a b).
Proof.
  intros. unfold preserve. apply launches_handled; [|auto with launches].
  apply launches_then; auto with launches.
Qed.

#[export] Hint Resolve launches_preserve : launches.

Lemma launches_process_image : forall keeps mosaic self i o p md,
  launches 1 i o (process_image keeps mosaic self i o p md).
Proof.
  intros. unfold process_image.
  apply launches_then; [auto with launches|]. intros fs0.
  apply launches_if.
  { apply (launches_weaken _ 0); [|lia]. apply launches_then; auto with launches. }
  apply launches_then; [auto with launches|]. intros _.
  apply launches_handled.
  - apply launches_then; [auto with launches|]. intros _.
    apply (launches_bind _ _ 1 0); [apply launches_subprocess_run|]. intros r.
    apply launches_if; [apply launches_then; auto with launches|].
    apply launches_then; [auto with launches|]. intros fs1.
    apply launches_if; [apply launches_then; auto with launches|].
    apply launches_then; [auto with launches|]. intros _.
    apply launches_then; auto with launches.
  - intros e. destruct e; apply launches_then; auto with launches.
Qed.

Lemma launches_attempts : forall keeps mosaic self i o p md n range,
  launches (List.length range) i o (attempts keeps mosaic self i o p md n range).
Proof.
  intros keeps mosaic self i o p md n range.
  induction range as [|a rest IH]; cbn [attempts List.length]; [auto with launches|].
  apply launches_then; [auto with launches|]. intros _.
  apply (launches_bind _ _ 1 (List.length rest)); [apply launches_process_image|].
  intros success. destruct success.
  - apply (launches_weaken _ 0); [|lia].
    apply launches_then; [auto with launches|]. intros _. auto with launches.
  - apply launches_then; [auto with launches|]. intros _. exact IH.
Qed.

Lemma launches_process_image_with_retry : forall keeps mosaic self i o p md n,
  launches (Z.to_nat n) i o (process_image_with_retry keeps mosaic self i o p md n).
Proof.
  intros. unfold process_image_with_retry.
  apply launches_then; [auto with launches|]. intros fs0.
  apply launches_if.
  { apply (launches_weaken _ 0); [|lia]. apply launches_then; auto with launches. }
  apply (launches_weaken _ (List.length (range n) + 0)).
  2:{ unfold range. rewrite length_seq. lia. }
  apply launches_bind; [apply launches_attempts|]. intros done.
  destruct done; [auto with launches|].
  apply launches_then; [auto with launches|]. intros _.
  apply launches_handled.
  - apply launches_then; [auto with launches|]. intros _.
    apply launches_then; [auto with launches|]. intros _.
    apply launches_then; [auto with launches|]. intros _.
    apply launches_then; auto with launches.
  - intros e. apply launches_then; auto with launches.
Qed.

(** X11.  Whatever happens, even when it raises, the retrying transform starts
    the script [max_retries] times at most, each time for the input and the
    output it was given. *)
Theorem process_image_with_retry_bounded : forall keeps_exif mosaic self input output
    preserve_metadata metadata max_retries w,
  exists started,
    runs (snd (process_image_with_retry keeps_exif mosaic self input output
                 preserve_metadata metadata max_retries w))
    = (runs w ++ started)%list
    /\ (List.length started <= Z.to_nat max_retries)%nat
    /\ Forall (eq (input, output)) started.
Proof. intros. apply launches_process_image_with_retry. Qed.

(** X12.  When [process_image] returns [True]: the input existed, the directory
    of the output could be made, the script was started exactly once and
    ended with code 0, and there is something at the output path. *)
Theorem process_image_success : forall keeps_exif mosaic self input output preserve_metadata
    metadata w w',
  process_image keeps_exif mosaic self input output preserve_metadata metadata w
  = (Ok true, w') ->
  exists_ (fs w) input = true
  /\ exists_ (fs w') output = true
  /\ runs w' = (runs w ++ [(input, output)])%list
  /\ exists made stderr,
       mkdir_parents (fs w) (parent output) = Ok made
       /\ run_ending (mosaic (List.length (runs w)) made input output) = Completed 0 stderr.
Proof. intros keeps mosaic self i o p md w w' H. exact (process_image_True_inv _ _ _ _ _ _ _ _ _ H). Qed.

Lemma process_image_success_witness :
  exists w',
    process_image true service_up sample_processor
      ["pack"; "original_images"; "a.png"] ["pack"; "pixiv_safe"; "a.png"] true
      (PyDict sample_metadata) (start sample_mosaic_pack) = (Ok true, w')
    /\ exists_ (fs w') ["pack"; "pixiv_safe"; "a.png"] = true
    /\ runs w'
       = [(["pack"; "original_images"; "a.png"], ["pack"; "pixiv_safe"; "a.png"])].
Proof.
  assert (H : process_image true service_up sample_processor
                ["pack"; "original_images"; "a.png"] ["pack"; "pixiv_safe"; "a.png"] true
                (PyDict sample_metadata) (start sample_mosaic_pack)
              = (Ok true,
                 snd (process_image true service_up sample_processor
                        ["pack"; "original_images"; "a.png"] ["pack"; "pixiv_safe"; "a.png"]
                        true (PyDict sample_metadata) (start sample_mosaic_pack))))
    by (vm_compute; reflexivity).
  eexists. split; [exact H|].
  destruct (process_image_success _ _ _ _ _ _ _ _ _ H) as (_ & H2 & H3 & _).
  split; [exact H2|exact H3].
Defined.

(** ** The retrying transform on a regular file *)

Lemma quiet_same : forall (A : Type) (m : M A),
  (forall w, progressed (snd (m w)) = progressed w) ->
  (forall w, statuses (snd (m w)) = statuses w) -> quiet m.
Proof. intros A m H1 H2 w. now split. Qed.

Lemma quiet_ret : forall (A : Type) (a : A), quiet (ret a).
Proof. intros. now apply quiet_same. Qed.

Lemma quiet_raise : forall (A : Type) (e : exn), quiet (@raise A e).
Proof. intros. now apply quiet_same. Qed.

Lemma quiet_lift : forall (A : Type) (r : result A), quiet (lift r).
Proof. intros. now apply quiet_same. Qed.

Lemma quiet_get_fs : quiet get_fs.
Proof. now apply quiet_same. Qed.

Lemma quiet_on_fs : forall (A : Type) (f : filesystem -> result A), quiet (on_fs f).
Proof. intros. now apply quiet_same. Qed.

Lemma quiet_change_fs : forall f, quiet (change_fs f).
Proof. intros f w. unfold change_fs. now destruct (f (fs w)). Qed.

Lemma quiet_run_fs : forall (A : Type) (f : filesystem -> result A * filesystem),
  quiet (run_fs f).
Proof. intros A f w. unfold run_fs. now destruct (f (fs w)). Qed.

Lemma quiet_log : forall m l, quiet (log m l).
Proof. intros. now apply quiet_same. Qed.

Lemma quiet_subprocess_run : forall mosaic i o, quiet (subprocess_run mosaic i o).
Proof. intros mosaic i o w. unfold subprocess_run. now destruct (run_ending _). Qed.

Lemma quiet_bind : forall (A B : Type) (m : M A) (k : A -> M B),
  quiet m -> (forall a, quiet (k a)) -> quiet (bind m k).
Proof.
  intros A B m k Hm Hk w. unfold bind. destruct (Hm w) as [H1 H2].
  destruct (m w) as [[a|e] w1]; cbn [snd] in *; [|now split].
  destruct (Hk a w1) as [H3 H4]. split; congruence.
Qed.

Lemma quiet_try_except : forall (A : Type) (m : M A) (h : exn -> M A),
  quiet m -> (forall e, quiet (h e)) -> quiet (try_except m h).
Proof.
  intros A m h Hm Hh w. unfold try_except. destruct (Hm w) as [H1 H2].
  destruct (m w) as [[a|e] w1]; cbn [snd] in *; [now split|].
  destruct (Hh e w1) as [H3 H4]. split; congruence.
Qed.

Lemma quiet_if : forall (A : Type) (b : bool) (m1 m2 : M A),
  quiet m1 -> quiet m2 -> quiet (if b then m1 else m2).
Proof. intros A b m1 m2 H1 H2. now destruct b. Qed.

Create HintDb quiet.
#[export] Hint Resolve quiet_ret quiet_raise quiet_lift quiet_get_fs quiet_on_fs
  quiet_change_fs quiet_run_fs quiet_log quiet_subprocess_run quiet_bind quiet_try_except
  quiet_if : quiet.

Lemma quiet_preserve : forall keeps o md a b, quiet (preserve keeps o md a b).
Proof. intros. unfold preserve. auto 10 with quiet. Qed.

#[export] Hint Resolve quiet_preserve : quiet.

Lemma quiet_process_image : forall keeps mosaic self i o p md,
  quiet (process_image keeps mosaic self i o p md).
Proof.
  intros. unfold process_image.
  apply quiet_bind; [auto with quiet|]. intros fs0.
  apply quiet_if; [auto with quiet|].
  apply quiet_bind; [auto with quiet|]. intros _.
  apply quiet_try_except.
  - apply quiet_bind; [auto with quiet|]. intros _.
    apply quiet_bind; [auto with quiet|]. intros r.
    apply quiet_if; [auto with quiet|].
    apply quiet_bind; [auto with quiet|]. intros fs1.
    apply quiet_if; auto 10 with quiet.
  - intros e. destruct e; auto with quiet.
Qed.

#[export] Hint Resolve quiet_process_image : quiet.

Lemma quiet_attempts : forall keeps mosaic self i o p md n range,
  quiet (attempts keeps mosaic self i o p md n range).
Proof.
  intros keeps mosaic self i o p md n range.
  induction range as [|a rest IH]; cbn [attempts]; [auto with quiet|].
  apply quiet_bind; [auto with quiet|]. intros _.
  apply quiet_bind; [auto with quiet|]. intros success.
  destruct success; auto 10 with quiet.
Qed.

#[export] Hint Resolve quiet_attempts : quiet.

Lemma quiet_process_image_with_retry : forall keeps mosaic self i o p md n,
  quiet (process_image_with_retry keeps mosaic self i o p md n).
Proof.
  intros. unfold process_image_with_retry.
  apply quiet_bind; [auto with quiet|]. intros fs0.
  apply quiet_if; [auto with quiet|].
  apply quiet_bind; [auto with quiet|]. intros done.
  destruct done; [auto with quiet|].
  apply quiet_bind; [auto with quiet|]. intros _.
  apply quiet_try_except; [|auto with quiet].
  apply quiet_bind; [auto with quiet|]. intros _.
  apply quiet_bind; [auto with quiet|]. intros _.
  apply quiet_bind; auto 10 with quiet.
Qed.

Lemma file_written_refl : forall o fs, file_written o fs fs.
Proof. intros o fs0. split; auto. Qed.

Lemma file_written_trans : forall o fs1 fs2 fs3,
  file_written o fs1 fs2 -> file_written o fs2 fs3 -> file_written o fs1 fs3.
Proof.
  intros o fs1 fs2 fs3 [H1 H1'] [H2 H2']. split.
  - intros q Hq. now rewrite H2, H1.
  - destruct H2' as [H|H]; [rewrite H; exact H1'|now right].
Qed.

Lemma file_written_set_entry : forall o fs c, file_written o fs (set_entry fs o (File c)).
Proof.
  intros o fs0 c. split.
  - intros q Hq. apply stat_set_entry_other. congruence.
  - destruct o as [|a o]; [now left|]. right. exists c. now apply stat_set_entry_same.
Qed.

Lemma file_written_exists : forall o fs fs' q,
  file_written o fs fs' -> exists_ fs q = true -> exists_ fs' q = true.
Proof.
  intros o fs0 fs' q [H1 H2] Hq. unfold exists_ in *. destruct (path_eqb q o) eqn:E.
  - apply path_eqb_eq in E. subst q. destruct H2 as [H|[c H]]; now rewrite H.
  - rewrite H1; [exact Hq|]. intros ->. now rewrite path_eqb_refl in E.
Qed.

Lemma file_written_not_dir : forall o fs fs',
  file_written o fs fs' -> is_dir fs o = false -> is_dir fs' o = false.
Proof.
  intros o fs0 fs' [_ H2] Hd. unfold is_dir in *. destruct H2 as [H|[c H]]; now rewrite H.
Qed.

Lemma file_written_Image_save : forall keeps fs img p fmt q e info,
  file_written p fs (snd (Image_save keeps fs img p fmt q e info)).
Proof.
  intros keeps fs0 img p fmt q e info. unfold Image_save.
  destruct (write fs0 p (Data "")) as [opened|x] eqn:E; [|apply file_written_refl].
  apply write_Ok in E. subst opened.
  destruct (writable fmt (mode img)); cbn [snd]; [apply file_written_set_entry|].
  destruct (exists_ fs0 p); [apply file_written_set_entry|apply file_written_refl].
Qed.

Lemma file_written_embed : forall keeps fs o md,
  file_written o fs (snd (embed keeps fs o md)).
Proof.
  intros keeps fs0 o md. unfold embed.
  destruct (negb (truthy md)); [apply file_written_refl|].
  destruct (size_limit <? Z.of_nat (String.length (dumps md)))%Z; [apply file_written_refl|].
  cbv zeta.
  assert (H : forall a : result unit * filesystem,
            file_written o fs0 (snd a) ->
            file_written o fs0
              (snd (let (r, fs') := a in
                    match r with
                    | Ok u => match u with tt => (Ok tt, fs') end
                    | Raise e =>
                        (Raise (MetadataError ("Failed to embed metadata in " ++ name o
                                                 ++ ": " ++ str_exn e)), fs')
                    end))).
  { intros [[[]|e] fs'] Ha; exact Ha. }
  apply H.
  destruct (lower (suffix o) =? ".png").
  - unfold _embed_png. destruct (Image_open fs0 o); [|apply file_written_refl].
    destruct (format_of_extension o); [|apply file_written_refl].
    apply file_written_Image_save.
  - destruct (mem (lower (suffix o)) [".jpg"; ".jpeg"; ".webp"]); [|apply file_written_refl].
    unfold _embed_exif. destruct (Image_open fs0 o); [|apply file_written_refl].
    destruct (format_of_extension o); [|apply file_written_refl].
    apply file_written_Image_save.
Qed.

Lemma file_written_subprocess_run : forall mosaic i o w,
  file_written o (fs w) (fs (snd (subprocess_run mosaic i o w))).
Proof.
  intros mosaic i o w. unfold subprocess_run.
  assert (H : file_written o (fs w)
                match run_output (mosaic (List.length (runs w)) (fs w) i o) with
                | Some c => match write (fs w) o c with Ok fs' => fs' | Raise _ => fs w end
                | None => fs w
                end).
  { destruct (run_output _) as [c|]; [|apply file_written_refl].
    destruct (write (fs w) o c) as [fs'|e] eqn:E; [|apply file_written_refl].
    apply write_Ok in E. subst fs'. apply file_written_set_entry. }
  destruct (run_ending _); exact H.
Qed.

Lemma file_written_preserve : forall keeps (c : bool) o md a b w,
  exists w',
    (if c then preserve keeps o md a b else ret tt) w = (Ok tt, w')
    /\ file_written o (fs w) (fs w').
Proof.
  intros keeps c o md a b w. destruct c.
  - destruct (preserve_frame keeps o md a b w) as (w' & H1 & H2 & _).
    exists w'. split; [exact H1|]. rewrite H2. apply file_written_embed.
  - exists w. split; [reflexivity|apply file_written_refl].
Qed.

(** One transform, when the directory of the output is there: it does not
    raise and writes a file at the output or nothing. *)
Lemma process_image_writes : forall keeps mosaic self i o p md w,
  is_dir (fs w) (parent o) = true ->
  exists b w',
    process_image keeps mosaic self i o p md w = (Ok b, w')
    /\ file_written o (fs w) (fs w')
    /\ (b = true -> exists_ (fs w') o = true).
Proof.
  intros keeps mosaic self i o p md w Hdir.
  unfold process_image. unfold bind at 1. unfold get_fs.
  destruct (exists_ (fs w) i) eqn:Ei; cbn [negb].
  2:{ unfold bind, log, ret. eexists. eexists. split; [reflexivity|].
      split; [apply file_written_refl|discriminate]. }
  unfold bind at 1. unfold change_fs. rewrite (mkdir_parents_dir _ _ Hdir).
  unfold try_except. unfold bind at 1. unfold log at 1. unfold bind at 1.
  match goal with
  | |- context [subprocess_run ?m ?a ?b ?w0] =>
      pose proof (file_written_subprocess_run m a b w0) as Ht;
      destruct (subprocess_run m a b w0) as [[[rc err]|e] ws]
  end; cbn [fs snd with_fs] in Ht.
  2:{ destruct e; unfold bind, log, ret; eexists; eexists; (split; [reflexivity|]);
        (split; [exact Ht|discriminate]). }
  cbn [fst snd].
  destruct (rc =? 0)%Z; cbn [negb].
  2:{ unfold bind, log, ret. eexists. eexists. split; [reflexivity|].
      split; [exact Ht|discriminate]. }
  unfold bind at 1. unfold get_fs.
  destruct (exists_ (fs ws) o) eqn:Eo; cbn [negb].
  2:{ unfold bind, log, ret. eexists. eexists. split; [reflexivity|].
      split; [exact Ht|discriminate]. }
  unfold bind at 1.
  match goal with
  | |- context [(if p && truthy md then preserve ?k ?o' ?m ?a ?b else ret tt) ?w0] =>
      destruct (file_written_preserve k (p && truthy md) o' m a b w0) as (wp & Hp1 & Hp2)
  end.
  rewrite Hp1. unfold bind, log, ret. eexists. eexists. split; [reflexivity|].
  cbn [fs]. split; [exact (file_written_trans _ _ _ _ Ht Hp2)|].
  intros _. exact (file_written_exists _ _ _ _ Hp2 Eo).
Qed.

Lemma parent_shorter : forall o : path, o <> [] -> parent o <> o.
Proof.
  intros o Ho E. destruct (exists_last Ho) as (p & a & ->).
  unfold parent in E. rewrite removelast_last in E.
  apply (f_equal (@List.length string)) in E. rewrite length_app in E. simpl in E. lia.
Qed.

Lemma not_dir_not_root : forall fs (o : path), is_dir fs o = false -> o <> [].
Proof. intros fs0 o H E. subst o. discriminate H. Qed.

Lemma attempts_write : forall keeps mosaic self i o p md n range w,
  is_dir (fs w) (parent o) = true ->
  o <> [] ->
  exists b w',
    attempts keeps mosaic self i o p md n range w = (Ok b, w')
    /\ file_written o (fs w) (fs w')
    /\ (b = true -> exists_ (fs w') o = true).
Proof.
  intros keeps mosaic self i o p md n range.
  induction range as [|a rest IH]; intros w Hdir Ho; cbn [attempts].
  - exists false, w. split; [reflexivity|]. split; [apply file_written_refl|discriminate].
  - unfold bind at 1.
    assert (H0 : exists w0,
              (if (0 <? a)%nat
               then log ("Tentativa " ++ str_nat (S a) ++ "/" ++ str_int n ++ " para "
                           ++ name i ++ "...") WARN
               else ret tt) w = (Ok tt, w0) /\ fs w0 = fs w).
    { destruct (0 <? a)%nat; eexists; split; reflexivity. }
    destruct H0 as (w0 & H0 & Hf0). rewrite H0.
    destruct (process_image_writes keeps mosaic self i o p md w0) as (b & w1 & Hp & Ht & Hb);
      [now rewrite Hf0|].
    rewrite Hf0 in Ht.
    unfold bind at 1. rewrite Hp. destruct b.
    + unfold bind at 1.
      assert (H2 : exists w2,
                (if (0 <? a)%nat
                 then log ("✅ Sucesso na tentativa " ++ str_nat (S a) ++ " para "
                             ++ name i) SUCCESS
                 else ret tt) w1 = (Ok tt, w2) /\ fs w2 = fs w1).
      { destruct (0 <? a)%nat; eexists; split; reflexivity. }
      destruct H2 as (w2 & H2 & Hf2). rewrite H2.
      exists true, w2. split; [reflexivity|]. rewrite Hf2. split; [exact Ht|].
      intros _. now apply Hb.
    + unfold bind at 1. unfold log at 1.
      match goal with
      | |- context [attempts _ _ _ _ _ _ _ _ rest ?w2] =>
          destruct (IH w2) as (b & w' & Ha & Ht' & Hb')
      end.
      * cbn [fs]. destruct Ht as [Ht _]. unfold is_dir. rewrite Ht; [exact Hdir|].
        now apply parent_shorter.
      * exact Ho.
      * exists b, w'. split; [exact Ha|]. cbn [fs] in Ht'.
        split; [exact (file_written_trans _ _ _ _ Ht Ht')|exact Hb'].
Qed.

(** The retrying transform of a regular file whose output directory is
    there, to an output that is no directory: it returns [True] and the
    output is a file, whatever the script does. *)
Lemma retry_on_file : forall keeps mosaic self i o p md n w c,
  stat (fs w) i = Some (File c) ->
  is_dir (fs w) (parent o) = true ->
  is_dir (fs w) o = false ->
  i <> o ->
  exists w',
    process_image_with_retry keeps mosaic self i o p md n w = (Ok true, w')
    /\ file_written o (fs w) (fs w')
    /\ is_file (fs w') o = true.
Proof.
  intros keeps mosaic self i o p md n w c Hi Hdir Ho Hio.
  pose proof (not_dir_not_root _ _ Ho) as Hne.
  assert (Hfile : forall fs', exists_ fs' o = true -> is_dir fs' o = false ->
                              is_file fs' o = true).
  { intros fs'. unfold exists_, is_dir, is_file.
    destruct (stat fs' o) as [[x|]|]; congruence. }
  unfold process_image_with_retry. unfold bind at 1. unfold get_fs.
  assert (Hex : exists_ (fs w) i = true) by (unfold exists_; now rewrite Hi).
  rewrite Hex. cbn [negb].
  destruct (attempts_write keeps mosaic self i o p md n (range n) w Hdir Hne)
    as (b & w1 & Ha & Ht & Hb).
  unfold bind at 1. rewrite Ha. destruct b.
  - exists w1. split; [reflexivity|]. split; [exact Ht|].
    apply Hfile; [now apply Hb|exact (file_written_not_dir _ _ _ Ht Ho)].
  - unfold bind at 1. unfold log at 1. unfold try_except.
    unfold bind at 1. unfold change_fs at 1. cbn [fs].
    assert (Hdir1 : is_dir (fs w1) (parent o) = true).
    { destruct Ht as [Ht _]. unfold is_dir. rewrite Ht; [exact Hdir|].
      now apply parent_shorter. }
    rewrite (mkdir_parents_dir _ _ Hdir1).
    unfold bind at 1. unfold change_fs at 1. cbn [fs with_fs].
    assert (Hi1 : stat (fs w1) i = Some (File c)).
    { destruct Ht as [Ht _]. now rewrite Ht. }
    assert (Ho1 : is_dir (fs w1) o = false) by exact (file_written_not_dir _ _ _ Ht Ho).
    assert (Hcopy : copy2 (fs w1) i o = Ok (set_entry (fs w1) o (File c))).
    { unfold copy2. rewrite Ho1, Hi1, (path_eqb_neq _ _ Hio). unfold write.
      unfold is_dir in Ho1, Hdir1.
      destruct (stat (fs w1) o) as [[x|]|]; try discriminate Ho1;
        destruct (stat (fs w1) (parent o)) as [[y|]|]; try discriminate Hdir1; reflexivity. }
    rewrite Hcopy. unfold bind at 1.
    match goal with
    | |- context [(if p && truthy md then preserve ?k ?o' ?m ?a ?b else ret tt) ?w0] =>
        destruct (file_written_preserve k (p && truthy md) o' m a b w0) as (wp & Hp1 & Hp2)
    end.
    rewrite Hp1. cbn [fs with_fs] in Hp2.
    unfold bind, log, ret. eexists. split; [reflexivity|]. cbn [fs].
    assert (Hall : file_written o (fs w) (fs wp)).
    { apply (file_written_trans _ _ _ _ Ht).
      exact (file_written_trans _ _ _ _ (file_written_set_entry _ _ _) Hp2). }
    split; [exact Hall|].
    apply Hfile; [|exact (file_written_not_dir _ _ _ Hall Ho)].
    apply (file_written_exists _ _ _ _ Hp2).
    unfold exists_. now rewrite stat_set_entry_same.
Qed.

(** X13.  Whatever the mosaic service does (any outcome of any run), the
    retrying transform of a regular file, to an output that is no directory,
    is another path and lies in an existing directory, returns [True] and
    leaves a file at the output; the input is as it was, no other path is
    touched, and neither the progress nor the status callback is called. *)
Theorem retry_gives_an_output : forall keeps_exif mosaic self input output preserve_metadata
    metadata max_retries w c,
  stat (fs w) input = Some (File c) ->
  is_dir (fs w) (parent output) = true ->
  is_dir (fs w) output = false ->
  input <> output ->
  exists w',
    process_image_with_retry keeps_exif mosaic self input output preserve_metadata metadata
      max_retries w = (Ok true, w')
    /\ is_file (fs w') output = true
    /\ stat (fs w') input = Some (File c)
    /\ file_written output (fs w) (fs w')
    /\ progressed w' = progressed w /\ statuses w' = statuses w.
Proof.
  intros keeps mosaic self i o p md n w c Hi Hdir Ho Hio.
  destruct (retry_on_file keeps mosaic self i o p md n w c Hi Hdir Ho Hio)
    as (w' & Hrun & Ht & Hf).
  exists w'. split; [exact Hrun|]. split; [exact Hf|].
  split; [destruct Ht as [Ht _]; now rewrite Ht|]. split; [exact Ht|].
  pose proof (quiet_process_image_with_retry keeps mosaic self i o p md n w) as Hq.
  rewrite Hrun in Hq. exact Hq.
Qed.

Lemma retry_gives_an_output_witness :
  exists w',
    process_image_with_retry true service_down sample_processor
      ["pack"; "original_images"; "b.jpg"] ["pack"; "b.jpg"] true (PyDict sample_metadata) 2
      (start sample_mosaic_pack) = (Ok true, w')
    /\ is_file (fs w') ["pack"; "b.jpg"] = true
    /\ extract_png (fs w') ["pack"; "b.jpg"] = Ok (PyDict sample_metadata).
Proof.
  destruct (retry_gives_an_output true service_down sample_processor
              ["pack"; "original_images"; "b.jpg"] ["pack"; "b.jpg"] true
              (PyDict sample_metadata) 2 (start sample_mosaic_pack) (Picture sample_jpeg))
    as (w' & Hrun & Hfile & _); try reflexivity; [discriminate|].
  exists w'. split; [exact Hrun|]. split; [exact Hfile|].
  assert (Hw : w' = snd (process_image_with_retry true service_down sample_processor
                           ["pack"; "original_images"; "b.jpg"] ["pack"; "b.jpg"] true
                           (PyDict sample_metadata) 2 (start sample_mosaic_pack)))
    by (now rewrite Hrun).
  rewrite Hw. vm_compute. reflexivity.
Defined.

Lemma attempts_True : forall keeps mosaic self i o p md n range w w',
  attempts keeps mosaic self i o p md n range w = (Ok true, w') ->
  exists_ (fs w') o = true.
Proof.
  intros keeps mosaic self i o p md n range.
  induction range as [|a rest IH]; intros w w' H; cbn [attempts] in H; [discriminate H|].
  apply bind_Ok in H. destruct H as ([] & w0 & _ & H).
  apply bind_Ok in H. destruct H as (success & w1 & Hp & H).
  destruct success.
  - apply process_image_True_inv in Hp. destruct Hp as (_ & Hex & _).
    apply bind_Ok in H. destruct H as ([] & w2 & Hl & H).
    unfold ret in H. injection H as <-.
    destruct (0 <? a)%nat; [unfold log in Hl|unfold ret in Hl]; injection Hl as <-; exact Hex.
  - apply bind_Ok in H. destruct H as ([] & w2 & _ & H). exact (IH _ _ H).
Qed.

(** X14.  When the retrying transform answers [True], the input existed and
    there is something at the output; for an input that is missing it
    answers [False] and does nothing but log the error. *)
Theorem process_image_with_retry_outcome : forall keeps_exif mosaic self input output
    preserve_metadata metadata max_retries w,
  (forall w',
     process_image_with_retry keeps_exif mosaic self input output preserve_metadata metadata
       max_retries w = (Ok true, w') ->
     exists_ (fs w) input = true /\ exists_ (fs w') output = true)
  /\ (exists_ (fs w) input = false ->
      process_image_with_retry keeps_exif mosaic self input output preserve_metadata
        metadata max_retries w
      = (Ok false,
         snd (log ("Arquivo de entrada não encontrado: " ++ str_path input) ERROR w))).
Proof.
  intros keeps mosaic self i o p md n w. split.
  - intros w' H. unfold process_image_with_retry in H. unfold bind at 1 in H.
    unfold get_fs in H.
    destruct (exists_ (fs w) i) eqn:Ei; cbn [negb] in H.
    2:{ unfold bind, log, ret in H. discriminate H. }
    split; [reflexivity|].
    apply bind_Ok in H. destruct H as (finished & w1 & Ha & H).
    destruct finished.
    + unfold ret in H. injection H as <-. exact (attempts_True _ _ _ _ _ _ _ _ _ _ _ Ha).
    + apply bind_Ok in H. destruct H as ([] & wl & Hl & H).
      unfold try_except in H.
      match type of H with
      | context [match ?m wl with _ => _ end] => destruct (m wl) as [[b|e] w2] eqn:E
      end.
      2:{ unfold bind, log, ret in H. discriminate H. }
      injection H as -> ->.
      apply bind_Ok in E. destruct E as ([] & w3 & Hmk & E).
      apply bind_Ok in E. destruct E as ([] & w4 & Hcp & E).
      apply bind_Ok in E. destruct E as ([] & w5 & Hpr & E).
      apply bind_Ok in E. destruct E as ([] & w6 & Hlg & E).
      unfold ret in E. injection E as <-.
      unfold log in Hlg. injection Hlg as <-. cbn [fs].
      unfold change_fs in Hcp.
      destruct (copy2 (fs w3) i o) as [copied|e] eqn:Ecp; [|discriminate Hcp].
      injection Hcp as <-.
      assert (Hex : exists_ copied o = true).
      { destruct (copy2_Ok _ _ _ _ Ecp) as (c & _ & ->).
        unfold copy_target. destruct (is_dir (fs w3) o) eqn:Ed.
        - apply (touches_only_exists _ _ _ _ (touches_only_set_entry _ _ _)).
          unfold is_dir in Ed. unfold exists_. now destruct (stat (fs w3) o).
        - unfold exists_. rewrite stat_set_entry_same; [reflexivity|].
          exact (not_dir_not_root _ _ Ed). }
      match type of Hpr with
      | (if p && truthy md then preserve ?k ?o' ?m ?a ?b else ret tt) ?w0 = _ =>
          destruct (maybe_preserve_frame k (p && truthy md) o' m a b w0)
            as (wp & Hp1 & Hp2 & _)
      end.
      rewrite Hp1 in Hpr. injection Hpr as <-.
      exact (touches_only_exists _ _ _ _ Hp2 Hex).
  - intros H. unfold process_image_with_retry. unfold bind at 1. unfold get_fs.
    rewrite H. reflexivity.
Qed.

(** ** The text chunks of a PNG *)

Lemma extract_all_open : forall fs path img,
  Image_open fs path = Ok img ->
  extract_all_png_metadata fs path
  = match lookup (text_chunks img) "Comment" with
    | Some comment_json =>
        if comment_json =? "" then
          Ok (PyDict (map (fun kv => (fst kv, PyStr (snd kv))) (text_chunks img)))
        else
          match loads comment_json with
          | Ok parsed => Ok parsed
          | Raise _ => Ok (PyDict (map (fun kv => (fst kv, PyStr (snd kv))) (text_chunks img)))
          end
    | None => Ok (PyDict (map (fun kv => (fst kv, PyStr (snd kv))) (text_chunks img)))
    end.
Proof.
  intros fs0 path img Hopen. unfold extract_all_png_metadata. rewrite Hopen. cbv zeta.
  destruct (lookup (text_chunks img) "Comment") as [c|]; [|reflexivity].
  destruct (c =? ""); cbn [negb]; [reflexivity|].
  destruct (loads c) as [v|e] eqn:El; [reflexivity|].
  unfold loads in El.
  destruct (startswith c BOM); [injection El as <-; reflexivity|].
  destruct (scan_once _ _) as [[msg rest]|[obj rest]]; [injection El as <-; reflexivity|].
  destruct (skip_ws rest =? ""); [discriminate El|injection El as <-; reflexivity].
Qed.



(** X16.  On a PNG whose Comment chunk parses as JSON and for which neither
    [piexif] nor [_getexif()] finds a description, [extract_png] and
    [extract_all_png_metadata] return the same value, the one the comment
    parses to. *)
Theorem extractors_agree_on_comment : forall fs path img comment_json parsed,
  Image_open fs path = Ok img ->
  img.(format) = "PNG" ->
  lookup img.(text) "Comment" = Some comment_json ->
  loads comment_json = Ok parsed ->
  piexif_finds_nothing img ->
  img.(has__getexif) = false \/ img.(legacy_description) = Absent
  \/ img.(legacy_description) = Fails ->
  extract_png fs path = Ok parsed /\ extract_all_png_metadata fs path = Ok parsed.
Proof.
  intros fs0 path img c v Hopen Hfmt Hc Hl Hp Hleg.
  assert (Hne : (c =? "") = false).
  { destruct (String.eqb_spec c "") as [E|E]; [|reflexivity]. subst c. discriminate Hl. }
  assert (Hup : upper (PIL.format img) = "PNG") by (now rewrite Hfmt).
  split.
  - rewrite (extract_png_open _ _ _ Hopen).
    assert (Hsrc : metadata_source img = c).
    { unfold metadata_source, read_fields. cbv zeta.
      rewrite (piexif_nothing img Hp). rewrite String.eqb_refl. rewrite Hup.
      cbn [mem existsb String.eqb Ascii.eqb Bool.eqb orb andb].
      assert (Hl' : (if has__getexif img
                     then match legacy_description img with
                          | Found s => s
                          | Absent | Fails => ""
                          end
                     else "") = "").
      { destruct Hleg as [H|[H|H]]; rewrite H; [reflexivity| |];
          now destruct (has__getexif img). }
      rewrite Hl'. unfold dict_get. rewrite Hc. cbn [or_else String.eqb].
      unfold or_else. cbn [String.eqb]. now rewrite Hne. }
    now rewrite Hsrc, Hl.
  - rewrite (extract_all_open _ _ _ Hopen). unfold text_chunks. rewrite Hfmt.
    cbn [String.eqb Ascii.eqb Bool.eqb andb]. now rewrite Hc, Hne, Hl.
Qed.

Lemma extractors_agree_on_comment_witness :
  extract_png sample_pack ["pack"; "a.png"] = Ok (PyDict sample_metadata)
  /\ extract_all_png_metadata sample_pack ["pack"; "a.png"] = Ok (PyDict sample_metadata).
Proof.
  apply (extractors_agree_on_comment sample_pack ["pack"; "a.png"]
           (sample_png [("Comment", dumps (PyDict sample_metadata))])
           (dumps (PyDict sample_metadata))).
  - reflexivity.
  - reflexivity.
  - reflexivity.
  - vm_compute. reflexivity.
  - left. reflexivity.
  - right. left. reflexivity.
Defined.

(** ** A pack that is refused *)

(** X17.  [process_pack] answers [False] for a setup that is not valid and for a
    pack without [original_images], in no other case, and has then done
    nothing but log: the file system, the runs, the progress and the
    statuses are as they were. *)
Theorem process_pack_refuses : forall keeps_exif mosaic self pack_path w w',
  process_pack keeps_exif mosaic self pack_path w = (Ok false, w') ->
  (fst (validate_setup self w) = Ok false
   \/ exists_ (fs w) (div pack_path "original_images") = false)
  /\ fs w' = fs w /\ runs w' = runs w
  /\ progressed w' = progressed w /\ statuses w' = statuses w.
Proof.
  intros keeps mosaic self pack w w' H.
  unfold process_pack in H. apply bind_Ok in H. destruct H as (valid & wv & Hv & H).
  destruct (validate_setup_frame _ _ _ _ Hv) as (Hvf & Hvr & Hvp & Hvs).
  destruct valid; cbn [negb] in H.
  - apply bind_Ok in H. destruct H as (fs0 & w1 & Hg & H).
    unfold get_fs in Hg. injection Hg as <- <-. rewrite Hvf in H.
    destruct (exists_ (fs w) (div pack "original_images")) eqn:Eo; cbn [negb] in H.
    + exfalso.
      apply bind_Ok in H. destruct H as ([] & w2 & _ & H).
      apply bind_Ok in H. destruct H as (mm & w3 & _ & H).
      apply bind_Ok in H. destruct H as (fs3 & w4 & _ & H).
      destruct (iterate (glob fs3 (div pack "original_images") "*.png")).
      * apply bind_Ok in H. destruct H as ([] & w5 & _ & H). discriminate H.
      * apply bind_Ok in H. destruct H as ([] & w5 & _ & H).
        apply bind_Ok in H. destruct H as ([pc fc] & w6 & _ & H).
        apply bind_Ok in H. destruct H as ([] & w7 & _ & H).
        apply bind_Ok in H. destruct H as ([] & w8 & _ & H). discriminate H.
    + split; [now right|].
      unfold bind, log, ret in H. injection H as <-. cbn [fs runs progressed statuses].
      now repeat split.
  - unfold ret in H. injection H as <-. split; [left; now rewrite Hv|now repeat split].
Qed.

Lemma process_pack_refuses_witness :
  exists w',
    process_pack true service_up sample_processor ["pack"] (start sample_pack)
    = (Ok false, w')
    /\ fs w' = sample_pack /\ runs w' = [] /\ progressed w' = [] /\ statuses w' = [].
Proof.
  assert (H : process_pack true service_up sample_processor ["pack"] (start sample_pack)
              = (Ok false,
                 snd (process_pack true service_up sample_processor ["pack"]
                        (start sample_pack))))
    by (vm_compute; reflexivity).
  eexists. split; [exact H|].
  exact (proj2 (process_pack_refuses _ _ _ _ _ _ H)).
Defined.

(** ** The preview and the watermarked copy *)

Lemma apply_watermark_Ok : forall fs base_image config out,
  apply_watermark fs base_image config = Ok out ->
  out.(mode) = "RGB" /\ out.(size) = base_image.(size).
Proof.
  intros fs0 base config out H. unfold apply_watermark in H.
  destruct (negb (exists_ fs0 (wm_path config))); [discriminate H|].
  cbv zeta in H.
  destruct (Image_open fs0 (wm_path config)) as [wm|e]; [|discriminate H].
  cbn [convert size] in H.
  destruct (size base) as [base_width base_height] eqn:Hsize.
  destruct (py_int _) as [watermark_size|e]; [|discriminate H].
  destruct (snd (size wm) =? 0)%Z; [discriminate H|].
  destruct (PrimFloat.leb 1 _).
  - destruct (py_int _) as [new_height|e]; [|discriminate H].
    destruct ((watermark_size <=? 0) || (new_height <=? 0))%Z; [discriminate H|].
    injection H as <-. cbn [mode size convert with_pixels]. now rewrite Hsize.
  - destruct (py_int _) as [new_width|e]; [|discriminate H].
    destruct ((new_width <=? 0) || (watermark_size <=? 0))%Z; [discriminate H|].
    injection H as <-. cbn [mode size convert with_pixels]. now rewrite Hsize.
Qed.

(** X18.  When [_process_single_image] completes, the three folders being
    distinct: the preview is a WEBP of quality 85 of the image converted to
    RGB; the free-post copy is a JPEG of quality 90 of the watermarked
    image, which is RGB and has the size of the source; both are given the
    staged EXIF block, and [extract_png] reads the metadata of the image
    back from each of them when there is metadata, within the ceiling and
    read back from its serialization. *)
Theorem process_single_image_preview_and_free_post :
  forall keeps_exif config image_file index pack_metadata preview free_post temp_zip w w',
    _process_single_image keeps_exif config image_file index (PyDict pack_metadata)
      preview free_post temp_zip w = (Ok tt, w') ->
    preview <> free_post ->
    preview <> temp_zip ->
    let md := dict_get pack_metadata (name image_file) (PyDict []) in
    let base := "image_" ++ str_int index in
    exists source img watermarked,
      Image_open w.(fs) image_file = Ok source
      /\ img.(size) = source.(size)
      /\ Image_open w'.(fs) (div preview (base ++ ".webp"))
         = Ok (saved keeps_exif (convert img "RGB") "WEBP" (Some 85%Z)
                 (Some (staged_exif md)) [])
      /\ watermarked.(mode) = "RGB" /\ watermarked.(size) = source.(size)
      /\ Image_open w'.(fs) (div free_post (base ++ ".jpeg"))
         = Ok (saved keeps_exif watermarked "JPEG" (Some 90%Z) (Some (staged_exif md)) [])
      /\ (truthy md = true -> validate_metadata_size md = true ->
          json_ok md = true -> valid_utf8 (dumps md) = true ->
          extract_png w'.(fs) (div preview (base ++ ".webp")) = Ok md
          /\ extract_png w'.(fs) (div free_post (base ++ ".jpeg")) = Ok md).
Proof.
  intros keeps config image_file index pack_metadata preview free_post temp_zip w w' H
    Hpf Hpz.
  unfold _process_single_image in H. apply try_reraise_Ok in H.
  apply bind_Ok in H. destruct H as (img0 & w1 & Hopen & H).
  apply on_fs_Ok in Hopen. destruct Hopen as [Hopen ->].
  cbv zeta in H.
  apply bind_Ok in H. destruct H as (md & w1 & Hmd & H).
  apply lift_Ok in Hmd. destruct Hmd as [Hmd ->]. injection Hmd as <-.
  apply bind_Ok in H. destruct H as ([] & w1 & Hprev & H).
  apply save_Ok in Hprev.
  apply bind_Ok in H. destruct H as ([] & w2 & Hzip & H).
  apply bind_Ok in H. destruct H as (wmk & w3 & Hwm & H).
  apply on_fs_Ok in Hwm. destruct Hwm as [Hwm ->].
  apply bind_Ok in H. destruct H as ([] & w3 & Hfree & H).
  apply save_Ok in Hfree.
  assert (Hfs : fs w' = fs w3) by (unfold log in H; now injection H as <-).
  intros md base.
  match type of Hprev with context [convert ?i "RGB"] => set (img := i) in * end.
  fold md in Hprev, Hzip, Hfree. fold (staged_exif md) in Hprev, Hzip, Hfree.
  fold base in Hprev, Hzip, Hfree.
  assert (Hsize : size img = size img0).
  { unfold img. destruct (mem (mode img0) ["RGBA"; "P"]); reflexivity. }
  (* the ZIP stage writes in its own folder *)
  assert (Hzfs : exists e n,
            fs w2 = set_entry (fs w1) (div temp_zip (base ++ e)) n).
  { destruct (mem (lower (suffix image_file)) [".jpg"; ".jpeg"]).
    - apply save_Ok in Hzip. rewrite Hzip. cbn [fs with_fs]. now eexists _, _.
    - destruct (lower (suffix image_file) =? ".webp").
      + apply save_Ok in Hzip. rewrite Hzip. cbn [fs with_fs]. now eexists _, _.
      + apply bind_Ok in Hzip. destruct Hzip as (orig & w1' & Horig & Hzip).
        apply on_fs_Ok in Horig. destruct Horig as [_ ->].
        apply save_Ok in Hzip. rewrite Hzip. cbn [fs with_fs]. now eexists _, _. }
  destruct Hzfs as (e & n & Hzfs).
  destruct (apply_watermark_Ok _ _ _ _ Hwm) as [Hwmode Hwsize].
  assert (Hp : Image_open (fs w') (div preview (base ++ ".webp"))
               = Ok (saved keeps (convert img "RGB") "WEBP" (Some 85%Z)
                       (Some (staged_exif md)) [])).
  { rewrite Hfs, Hfree. unfold Image_open. cbn [fs with_fs].
    rewrite stat_set_entry_other
      by (intros E; apply div_inj in E; destruct E as [E _]; now apply Hpf).
    rewrite Hzfs.
    rewrite stat_set_entry_other
      by (intros E; apply div_inj in E; destruct E as [E _]; now apply Hpz).
    rewrite Hprev. cbn [fs with_fs].
    now rewrite stat_set_entry_same by apply div_not_root. }
  assert (Hf : Image_open (fs w') (div free_post (base ++ ".jpeg"))
               = Ok (saved keeps wmk "JPEG" (Some 90%Z) (Some (staged_exif md)) [])).
  { rewrite Hfs, Hfree. unfold Image_open. cbn [fs with_fs].
    now rewrite stat_set_entry_same by apply div_not_root. }
  exists img0, img, wmk.
  split; [exact Hopen|]. split; [exact Hsize|]. split; [exact Hp|].
  split; [exact Hwmode|]. split; [now rewrite Hwsize|]. split; [exact Hf|].
  intros Ht Hv Hok Hutf. unfold staged_exif in Hp, Hf. rewrite Ht, Hv in Hp, Hf.
  cbn [andb] in Hp, Hf.
  split; [exact (extract_description _ _ _ _ _ _ _ Hp Hok Hutf)
         |exact (extract_description _ _ _ _ _ _ _ Hf Hok Hutf)].
Qed.

Lemma process_single_image_preview_and_free_post_witness :
  exists w',
    _process_single_image false sample_config ["pack"; "a.png"] 1
      (PyDict sample_pack_metadata)
      ["pack"; "preview_Images"] ["pack"; "free_post"] ["pack"; "temp_for_zip"]
      (start sample_studio) = (Ok tt, w')
    /\ extract_png w'.(fs) ["pack"; "preview_Images"; "image_1.webp"]
       = Ok (PyDict sample_metadata)
    /\ extract_png w'.(fs) ["pack"; "free_post"; "image_1.jpeg"]
       = Ok (PyDict sample_metadata).
Proof.
  assert (Hrun : _process_single_image false sample_config ["pack"; "a.png"] 1
                   (PyDict sample_pack_metadata)
                   ["pack"; "preview_Images"] ["pack"; "free_post"] ["pack"; "temp_for_zip"]
                   (start sample_studio)
                 = (Ok tt, snd (_process_single_image false sample_config ["pack"; "a.png"] 1
                                  (PyDict sample_pack_metadata)
                                  ["pack"; "preview_Images"] ["pack"; "free_post"]
                                  ["pack"; "temp_for_zip"] (start sample_studio))))
    by (vm_compute; reflexivity).
  eexists. split; [exact Hrun|].
  destruct (process_single_image_preview_and_free_post _ _ _ _ _ _ _ _ _ _ Hrun)
    as (source & img & wmk & _ & _ & _ & _ & _ & _ & Hcarried);
    [discriminate|discriminate|].
  exact (Hcarried eq_refl eq_refl eq_refl eq_refl).
Defined.

(** ** [run_auto_mosaic] *)

(** One turn of the loop of [run_auto_mosaic] starts the script once and
    does not raise. *)
Lemma mosaic_step_runs : forall keeps mosaic meta_map src dst w,
  exists reported w',
    mosaic_step keeps mosaic meta_map src dst w = (Ok reported, w')
    /\ runs w' = (runs w ++ [(src, dst)])%list
    /\ progressed w' = progressed w.
Proof.
  intros keeps mosaic mm src dst w.
  unfold mosaic_step, try_except. unfold bind at 1. unfold subprocess_run.
  destruct (run_ending _) as [rc err| |e].
  - cbn [fst snd]. destruct (rc =? 0)%Z; cbn [negb].
    2:{ unfold bind, log, ret. eexists. eexists. split; [reflexivity|]. now split. }
    unfold bind at 1. unfold lift at 1.
    destruct (py_find mm (name src)) as [found|e].
    2:{ destruct e; unfold bind, log, ret; eexists; eexists; (split; [reflexivity|]);
          now split. }
    destruct found as [[md|e]|]; unfold try_except, bind, lift, run_fs, log, ret.
    + match goal with
      | |- context [embed ?a ?b ?c ?d] => destruct (embed a b c d) as [[[]|e] fs']
      end; eexists; eexists; (split; [reflexivity|]); now split.
    + eexists. eexists. split; [reflexivity|]. now split.
    + eexists. eexists. split; [reflexivity|]. now split.
  - unfold bind, log, ret. eexists. eexists. split; [reflexivity|]. now split.
  - destruct e; unfold bind, log, ret; eexists; eexists; (split; [reflexivity|]); now split.
Qed.

Lemma mosaic_loop_runs : forall keeps mosaic safe_dir meta_map total_files image_files i w,
  exists reported w',
    mosaic_loop keeps mosaic safe_dir meta_map total_files i image_files w = (Ok tt, w')
    /\ runs w' = (runs w ++ map (fun src => (src, div safe_dir (name src))) image_files)%list
    /\ progressed w' = (progressed w ++ reported)%list
    /\ (List.length reported <= List.length image_files)%nat.
Proof.
  intros keeps mosaic safe mm total files.
  induction files as [|src rest IH]; intros i w; cbn [mosaic_loop].
  - exists [], w. cbn. rewrite !List.app_nil_r. repeat split. lia.
  - destruct (mosaic_step_runs keeps mosaic mm src (div safe (name src)) w)
      as (b & w1 & Hs & Hr & Hp).
    unfold bind at 1. rewrite Hs. unfold bind at 1.
    destruct b.
    + unfold update_progress at 1.
      match goal with
      | |- context [mosaic_loop _ _ _ _ _ _ rest ?w2] =>
          destruct (IH (S i) w2) as (l & w' & Hl & Hr' & Hp' & Hn)
      end.
      cbn [runs progressed] in Hr', Hp'.
      eexists (_ :: l), w'. split; [exact Hl|].
      split; [rewrite Hr', Hr, <- List.app_assoc; reflexivity|].
      split; [rewrite Hp', Hp, <- List.app_assoc; reflexivity|]. cbn. lia.
    + unfold ret at 1.
      destruct (IH (S i) w1) as (l & w' & Hl & Hr' & Hp' & Hn).
      exists l, w'. split; [exact Hl|].
      split; [rewrite Hr', Hr, <- List.app_assoc; reflexivity|].
      split; [now rewrite Hp', Hp|]. cbn. lia.
Qed.

Lemma mkdir_glob : forall fs p made d pattern,
  mkdir fs p = Ok made -> parent p <> d -> p <> d ->
  glob made d pattern = glob fs d pattern.
Proof.
  intros fs0 p made d pattern H Hd1 Hd2. unfold mkdir in H.
  destruct (stat fs0 p) as [[c|]|] eqn:E; try discriminate H.
  - now injection H as <-.
  - destruct (stat fs0 (parent p)) as [[c|]|]; try discriminate H.
    injection H as <-. destruct p as [|a p]; [discriminate E|].
    unfold glob, is_dir. rewrite stat_set_entry_other by exact Hd2.
    unfold children. unfold stat in E. rewrite (set_entry_new _ _ Dir E).
    rewrite filter_app. cbn [filter fst].
    rewrite (path_eqb_neq _ _ Hd1). now rewrite List.app_nil_r.
Qed.

Lemma mkdir_image_files : forall fs pack made,
  mkdir fs (div pack "pixiv_safe") = Ok made ->
  image_files_of made (div pack "original_images")
  = image_files_of fs (div pack "original_images").
Proof.
  intros fs0 pack made H. unfold image_files_of. cbn [flat_map].
  assert (H1 : parent (div pack "pixiv_safe") <> div pack "original_images").
  { rewrite parent_div. intros E. symmetry in E. now apply div_longer in E. }
  assert (H2 : div pack "pixiv_safe" <> div pack "original_images").
  { intros E. apply div_inj in E. destruct E as [_ E]. discriminate E. }
  now rewrite !(mkdir_glob _ _ _ _ _ H H1 H2).
Qed.

(** X19.  [run_auto_mosaic] never raises; the last progress it reports is 0,
    after one value at most for each image; when it answers [True] it has
    started the script exactly once for each image file of [original_images]
    (the four patterns in turn), with the output in [pixiv_safe] under the
    same name, whatever the runs gave; when it answers [False] it has
    started none. *)
Theorem run_auto_mosaic_outcome : forall keeps_exif mosaic base_dir pack_path w,
  let image_files := image_files_of (fs w) (div pack_path "original_images") in
  exists finished reported w',
    run_auto_mosaic keeps_exif mosaic base_dir pack_path w = (Ok finished, w')
    /\ progressed w' = (progressed w ++ reported ++ [0%Z])%list
    /\ (List.length reported <= List.length image_files)%nat
    /\ runs w'
       = (runs w
          ++ if finished
             then map (fun src => (src, div (div pack_path "pixiv_safe") (name src)))
                    image_files
             else [])%list.
Proof.
  intros keeps mosaic base pack w image_files.
  unfold run_auto_mosaic. unfold bind at 1. unfold update_status at 1.
  unfold try_finally.
  match goal with
  | |- context [try_except ?m ?h ?w0] =>
      assert (H : exists finished reported w2,
                try_except m h w0 = (Ok finished, w2)
                /\ progressed w2 = (progressed w ++ reported)%list
                /\ (List.length reported <= List.length image_files)%nat
                /\ runs w2
                   = (runs w
                      ++ if finished
                         then map (fun src => (src, div (div pack "pixiv_safe") (name src)))
                                image_files
                         else [])%list)
  end.
  { unfold try_except. unfold bind at 1. unfold change_fs at 1. cbn [fs].
    destruct (mkdir (fs w) (div pack "pixiv_safe")) as [made|e] eqn:Emk.
    2:{ unfold bind, log, ret. exists false, []. eexists. split; [reflexivity|].
        cbn [runs progressed List.length]. rewrite !List.app_nil_r.
        repeat split. lia. }
    unfold bind at 1. unfold get_fs at 1. cbn [fs with_fs].
    destruct (exists_ made (div pack "original_images")); cbn [negb].
    2:{ unfold bind, log, ret. exists false, []. eexists. split; [reflexivity|].
        cbn [runs progressed List.length]. rewrite !List.app_nil_r.
        repeat split. lia. }
    destruct (exists_ made (div pack "metadata.json")); cbn [negb].
    2:{ unfold bind, log, ret. exists false, []. eexists. split; [reflexivity|].
        cbn [runs progressed List.length]. rewrite !List.app_nil_r.
        repeat split. lia. }
    unfold bind at 1. unfold on_fs at 1. cbn [fs with_fs].
    destruct (read_text made (div pack "metadata.json")) as [text|e].
    2:{ unfold bind, log, ret. exists false, []. eexists. split; [reflexivity|].
        cbn [runs progressed List.length]. rewrite !List.app_nil_r.
        repeat split. lia. }
    unfold bind at 1. unfold lift at 1.
    destruct (loads text) as [mm|e].
    2:{ unfold bind, log, ret. exists false, []. eexists. split; [reflexivity|].
        cbn [runs progressed List.length]. rewrite !List.app_nil_r.
        repeat split. lia. }
    destruct (exists_ made (div (div base "external") "pixivMosaic2.py")); cbn [negb].
    2:{ unfold bind, log, ret. exists false, []. eexists. split; [reflexivity|].
        cbn [runs progressed List.length]. rewrite !List.app_nil_r.
        repeat split. lia. }
    destruct (exists_ made (div (div base "external") "PixivMosaicWorkflowAPI.json"));
      cbn [negb].
    2:{ unfold bind, log, ret. exists false, []. eexists. split; [reflexivity|].
        cbn [runs progressed List.length]. rewrite !List.app_nil_r.
        repeat split. lia. }
    rewrite (mkdir_image_files _ _ _ Emk). fold image_files.
    destruct image_files as [|f0 rest] eqn:Efiles.
    { unfold bind, log, ret. exists false, []. eexists. split; [reflexivity|].
      cbn [runs progressed List.length]. rewrite !List.app_nil_r.
      repeat split; lia. }
    match goal with
    | |- context [mosaic_loop ?k ?m ?s ?mm' ?t ?i ?files] =>
        match goal with
        | |- context [bind (mosaic_loop k m s mm' t i files) ?c ?w0] =>
            destruct (mosaic_loop_runs k m s mm' t files i w0)
              as (reported & w2 & Hl & Hr & Hp & Hn)
        end
    end.
    unfold bind at 1. rewrite Hl. unfold bind, update_status, ret.
    exists true, reported. eexists. split; [reflexivity|].
    cbn [runs progressed] in *. split; [exact Hp|]. split; [exact Hn|exact Hr]. }
  destruct H as (finished & reported & w2 & Hrun & Hp & Hn & Hr).
  rewrite Hrun. unfold update_progress.
  exists finished, reported. eexists. split; [reflexivity|].
  cbn [runs progressed]. split; [now rewrite Hp, <- List.app_assoc|].
  split; [exact Hn|exact Hr].
Qed.

(** ** The worker's [_auto_mosaic] *)

Lemma file_written_is_file : forall o fs fs' q,
  file_written o fs fs' -> is_file fs q = true -> is_file fs' q = true.
Proof.
  intros o fs0 fs' q [H1 H2] Hq. unfold is_file in *. destruct (path_eqb q o) eqn:E.
  - apply path_eqb_eq in E. subst q. destruct H2 as [H|[c H]]; now rewrite H.
  - rewrite H1; [exact Hq|]. intros ->. now rewrite path_eqb_refl in E.
Qed.

Lemma file_written_keeps_not_dir : forall o fs fs' q,
  file_written o fs fs' -> is_dir fs q = false -> is_dir fs' q = false.
Proof.
  intros o fs0 fs' q H Hq. destruct (path_eqb q o) eqn:E.
  - apply path_eqb_eq in E. subst q. exact (file_written_not_dir _ _ _ H Hq).
  - destruct H as [H1 _]. unfold is_dir in *. rewrite H1; [exact Hq|].
    intros ->. now rewrite path_eqb_refl in E.
Qed.

Lemma file_written_keeps_dir : forall o fs fs' q,
  file_written o fs fs' -> q <> o -> is_dir fs' q = is_dir fs q.
Proof. intros o fs0 fs' q [H1 _] Hq. unfold is_dir. now rewrite H1. Qed.

(** The loop of the worker over regular files: every one counts as a
    success and has its output. *)
Lemma worker_loop_succeeds : forall keeps mosaic self pixiv_safe_dir metadata_map total_files
    image_files i processed_count failed_count w,
  is_dir (fs w) pixiv_safe_dir = true ->
  (forall f, In f image_files ->
     is_file (fs w) f = true
     /\ is_dir (fs w) (div pixiv_safe_dir (name f)) = false
     /\ parent f <> pixiv_safe_dir) ->
  exists w',
    worker_loop keeps mosaic self pixiv_safe_dir (PyDict metadata_map) total_files i
      image_files processed_count failed_count w
    = (Ok ((processed_count + List.length image_files)%nat, failed_count), w')
    /\ (forall f, In f image_files ->
          is_file (fs w') (div pixiv_safe_dir (name f)) = true)
    /\ (forall q, is_file (fs w) q = true -> is_file (fs w') q = true)
    /\ progressed w'
       = (progressed w
          ++ map (fun k => percent (Z.of_nat k) (Z.of_nat total_files))
               (seq i (List.length image_files)))%list.
Proof.
  intros keeps mosaic self pixiv mm total files.
  induction files as [|src rest IH]; intros i pc fc w Hdir Hfiles.
  - exists w. cbn [worker_loop List.length seq map]. rewrite Nat.add_0_r, List.app_nil_r.
    split; [reflexivity|]. split; [intros f []|]. split; [auto|reflexivity].
  - cbn [worker_loop]. unfold bind at 1. unfold lift. cbn [getattr_get].
    set (md := dict_get mm (name src) (PyDict [])).
    destruct (Hfiles src (or_introl eq_refl)) as (Hsrc & Hdst & Hpar).
    assert (Hc : exists c, stat (fs w) src = Some (File c)).
    { unfold is_file in Hsrc. destruct (stat (fs w) src) as [[c|]|]; try discriminate Hsrc.
      now exists c. }
    destruct Hc as [c Hc].
    assert (Hne : src <> div pixiv (name src)).
    { intros E. apply Hpar. rewrite E. apply parent_div. }
    destruct (retry_on_file keeps mosaic self src (div pixiv (name src)) true
                (if truthy md then md else PyNone) 2 w c Hc)
      as (w1 & Hrun & Ht & Hout); [now rewrite parent_div|exact Hdst|exact Hne|].
    destruct (quiet_process_image_with_retry keeps mosaic self src (div pixiv (name src))
                true (if truthy md then md else PyNone) 2 w) as [Hq1 Hq2].
    rewrite Hrun in Hq1, Hq2. cbn [snd] in Hq1, Hq2.
    unfold bind at 1. rewrite Hrun.
    unfold bind at 1. unfold callback_progress at 1.
    unfold bind at 1. unfold update_status at 1.
    match goal with
    | |- context [worker_loop _ _ _ _ _ _ _ rest ?pc' ?fc' ?w2] =>
        destruct (IH (S i) pc' fc' w2) as (w' & Hloop & Hall & Hmono & Hprog)
    end.
    + cbn [fs]. rewrite (file_written_keeps_dir _ _ _ _ Ht); [exact Hdir|].
      intros E. symmetry in E. now apply div_longer in E.
    + intros f Hf. cbn [fs]. destruct (Hfiles f (or_intror Hf)) as (H1 & H2 & H3).
      split; [exact (file_written_is_file _ _ _ _ Ht H1)|].
      split; [exact (file_written_keeps_not_dir _ _ _ _ Ht H2)|exact H3].
    + exists w'. cbn [fs runs progressed] in *.
      split; [rewrite Hloop; cbn [List.length]; do 3 f_equal; lia|].
      split.
      { intros f [<-|Hf]; [now apply Hmono|now apply Hall]. }
      split.
      { intros q Hq. apply Hmono. exact (file_written_is_file _ _ _ _ Ht Hq). }
      rewrite Hprog, Hq1. cbn [List.length seq map]. now rewrite <- List.app_assoc.
Qed.

Lemma glob_parent : forall fs d pattern f,
  In f (iterate (glob fs d pattern)) -> parent f = d /\ is_dir fs d = true.
Proof.
  intros fs0 d pattern f H. unfold glob, iterate in H.
  destruct (is_dir fs0 d) eqn:Ed; [|contradiction]. split; [|reflexivity].
  apply filter_In in H. destruct H as [H _]. unfold children in H.
  apply in_map_iff in H. destruct H as ([q n] & <- & H). apply filter_In in H.
  destruct H as [_ H]. cbn [fst] in *. destruct q; [discriminate H|].
  now apply path_eqb_eq in H.
Qed.

Lemma image_files_parent : forall fs d f,
  In f (image_files_of fs d) -> parent f = d /\ is_dir fs d = true.
Proof.
  intros fs0 d f H. unfold image_files_of in H. apply in_flat_map in H.
  destruct H as (ext & _ & H). exact (glob_parent _ _ _ _ H).
Qed.

Lemma worker_metadata_map_frame : forall f w,
  exists v w',
    worker_metadata_map f w = (Ok v, w')
    /\ fs w' = fs w /\ runs w' = runs w /\ progressed w' = progressed w
    /\ statuses w' = statuses w.
Proof.
  intros f w. unfold worker_metadata_map, bind, get_fs, log, ret.
  repeat match goal with
         | |- context [if ?c then _ else _] => destruct c
         | |- context [match ?x with _ => _ end] => destruct x
         end;
    eexists; eexists; (split; [reflexivity|]); now repeat split.
Qed.

Lemma worker_metadata_map_stat : forall f w w0,
  stat (fs w0) f = stat (fs w) f ->
  fst (worker_metadata_map f w0) = fst (worker_metadata_map f w).
Proof.
  intros f w w0 H. unfold worker_metadata_map, bind, get_fs, log, ret, exists_, read_text.
  rewrite H.
  repeat match goal with
         | |- context [if ?c then _ else _] => destruct c
         | |- context [match ?x with _ => _ end] => destruct x
         end; reflexivity.
Qed.

(** X20.  The worker's [_auto_mosaic], for a valid setup and a pack directory
    whose [original_images] holds image files, all of them regular files,
    where [pixiv_safe] is no file and holds no directory under the name of
    an image, and whose metadata, as loaded, is a mapping: whatever the
    mosaic service does, it ends without raising, every image has a file in
    [pixiv_safe] under its name, the progress after image [i] of [total] is
    the integer part of [i / total * 100], and the last status counts every
    image as processed. *)
Theorem auto_mosaic_never_blocks :
  forall keeps_exif mosaic base_dir config metadata_map w wv,
    let pack := config.(input_folder) in
    let pixiv_safe := div pack "pixiv_safe" in
    let image_files := image_files_of (fs w) (div pack "original_images") in
    let total := List.length image_files in
    validate_setup (new_processor base_dir config.(config_timeout_seconds)) w
    = (Ok true, wv) ->
    is_dir (fs w) pack = true ->
    is_file (fs w) pixiv_safe = false ->
    image_files <> [] ->
    (forall f, In f image_files ->
       is_file (fs w) f = true /\ is_dir (fs w) (div pixiv_safe (name f)) = false) ->
    fst (worker_metadata_map (div pack "metadata.json") w) = Ok (PyDict metadata_map) ->
    exists w',
      _auto_mosaic keeps_exif mosaic base_dir config w = (inl tt, w')
      /\ (forall f, In f image_files -> is_file (fs w') (div pixiv_safe (name f)) = true)
      /\ progressed w'
         = (progressed w
            ++ map (fun i => percent (Z.of_nat i) (Z.of_nat total)) (seq 1 total))%list
      /\ last (statuses w') ""
         = "Auto-mosaico completo: " ++ str_nat total ++ " imagens processadas!".
Proof.
  intros keeps mosaic base config mm w wv pack pixiv image_files total
    Hvalid Hpack Hsafe Hsome Hfiles Hmap.
  destruct (validate_setup_frame _ _ _ _ Hvalid) as (Hvf & Hvr & Hvp & Hvs).
  assert (Horig : exists_ (fs w) (div pack "original_images") = true).
  { destruct image_files as [|f0 rest] eqn:E; [contradiction|].
    destruct (image_files_parent (fs w) (div pack "original_images") f0) as [_ Hd].
    - fold image_files. rewrite E. now left.
    - unfold is_dir in Hd. unfold exists_.
      now destruct (stat (fs w) (div pack "original_images")). }
  unfold _auto_mosaic. fold pack. unfold and_then at 1. unfold of_core at 1. unfold get_fs.
  rewrite Horig. cbn [negb]. fold image_files.
  destruct image_files as [|f0 rest] eqn:Efiles; [contradiction|].
  rewrite <- Efiles in *.
  unfold and_then at 1. unfold of_core at 1. rewrite Hvalid. cbn [negb].
  destruct (mkdir_Ok (fs w) pixiv) as (made & Hmk & Hmd & Hmt & _);
    [unfold pixiv; now rewrite parent_div|exact Hsafe|].
  fold pixiv.
  unfold and_then at 1. unfold of_core at 1. unfold change_fs. rewrite Hvf, Hmk.
  destruct (worker_metadata_map_frame (div pack "metadata.json") (with_fs wv made))
    as (v & wl & Hload & Hlf & Hlr & Hlp & Hls).
  assert (Hv : v = PyDict mm).
  { assert (E : fst (worker_metadata_map (div pack "metadata.json") (with_fs wv made))
                = Ok (PyDict mm)).
    { rewrite <- Hmap. apply worker_metadata_map_stat. cbn [fs with_fs].
      apply (proj1 Hmt). intros E. apply div_inj in E. destruct E as [_ E]. discriminate E. }
    rewrite Hload in E. cbn [fst] in E. now injection E. }
  subst v. cbn [fs runs progressed statuses with_fs] in Hlf, Hlr, Hlp, Hls.
  unfold and_then at 1. unfold of_core at 1. rewrite Hload.
  unfold and_then at 1. unfold of_core at 1. unfold bind at 1. unfold update_status at 1.
  match goal with
  | |- context [worker_loop ?k ?m ?self ?pix ?mm' ?t ?i ?files ?pc ?fc ?w2] =>
      destruct (worker_loop_succeeds k m self pix mm t files i pc fc w2)
        as (w3 & Hloop & Hall & _ & Hprog)
  end.
  { cbn [fs]. now rewrite Hlf. }
  { intros f Hf. cbn [fs]. rewrite Hlf. destruct (Hfiles f Hf) as [H1 H2].
    destruct (image_files_parent (fs w) (div pack "original_images") f Hf) as [Hp _].
    assert (Hne : f <> pixiv) by (intros ->; rewrite H1 in Hsafe; discriminate Hsafe).
    split; [unfold is_file; rewrite (proj1 Hmt _ Hne); exact H1|].
    split.
    - unfold is_dir. rewrite (proj1 Hmt); [exact H2|]. apply div_longer.
    - rewrite Hp. intros E. apply div_inj in E. destruct E as [_ E]. discriminate E. }
  rewrite Hloop. cbn [Nat.add]. cbn [progressed] in Hprog.
  assert (Hlen : (List.length image_files =? 0)%nat = false).
  { rewrite Efiles. reflexivity. }
  cbn [Nat.eqb]. unfold and_then at 1. unfold of_core at 1.
  unfold bind, update_status, log. rewrite Hlen. unfold done.
  eexists. split; [reflexivity|]. cbn [fs progressed statuses].
  split; [exact Hall|]. unfold total. rewrite <- Efiles.
  split; [now rewrite Hprog, Hlp, Hvp|].
  now rewrite last_last.
Qed.

Lemma auto_mosaic_never_blocks_witness :
  exists w',
    _auto_mosaic true service_down ["app"] sample_config (start sample_mosaic_pack)
    = (inl tt, w')
    /\ is_file (fs w') ["pack"; "pixiv_safe"; "a.png"] = true
    /\ is_file (fs w') ["pack"; "pixiv_safe"; "b.jpg"] = true
    /\ is_file (fs w') ["pack"; "pixiv_safe"; "c.png"] = true
    /\ progressed w' = [33; 66; 100]%Z
    /\ last (statuses w') "" = "Auto-mosaico completo: 3 imagens processadas!".
Proof.
  assert (Hvalid : validate_setup (new_processor ["app"] (config_timeout_seconds sample_config))
                     (start sample_mosaic_pack)
                   = (Ok true,
                      snd (validate_setup
                             (new_processor ["app"] (config_timeout_seconds sample_config))
                             (start sample_mosaic_pack))))
    by (vm_compute; reflexivity).
  assert (Hmap : fst (worker_metadata_map (div (input_folder sample_config) "metadata.json")
                        (start sample_mosaic_pack))
                 = Ok (PyDict sample_pack_metadata))
    by (vm_compute; reflexivity).
  destruct (auto_mosaic_never_blocks true service_down ["app"] sample_config
              sample_pack_metadata (start sample_mosaic_pack) _ Hvalid)
    as (w' & Hrun & Hfiles & Hprog & Hlast).
  - reflexivity.
  - reflexivity.
  - discriminate.
  - intros f Hf. vm_compute in Hf.
    destruct Hf as [<-|[<-|[<-|[]]]]; split; reflexivity.
  - exact Hmap.
  - exists w'. split; [exact Hrun|].
    split; [apply (Hfiles ["pack"; "original_images"; "a.png"]); vm_compute; auto|].
    split; [apply (Hfiles ["pack"; "original_images"; "b.jpg"]); vm_compute; auto|].
    split; [apply (Hfiles ["pack"; "original_images"; "c.png"]); vm_compute; auto|].
    split; [exact Hprog|exact Hlast].
Defined.

(** ** A watermark that cannot be applied *)

Lemma bind_Raise : forall (A B : Type) (m : M A) (k : A -> M B) w e w',
  bind m k w = (Raise e, w') ->
  m w = (Raise e, w') \/ exists a w1, m w = (Ok a, w1) /\ k a w1 = (Raise e, w').
Proof.
  intros A B m k w e w' H. unfold bind in H.
  destruct (m w) as [[a|e0] w1]; [right; eauto|left; now injection H as <- <-].
Qed.

Lemma Image_open_raises : forall fs p e,
  Image_open fs p = Raise e ->
  (exists msg, e = OSError msg) \/ (exists msg, e = UnidentifiedImageError msg).
Proof.
  intros fs0 p e H. unfold Image_open in H.
  destruct (stat fs0 p) as [[[img|b]|]|]; try discriminate H; injection H as <-; eauto.
Qed.

Lemma save_raises : forall keeps img p fmt q e w x w',
  save keeps img p fmt q e w = (Raise x, w') -> exists msg, x = OSError msg.
Proof.
  intros keeps img p fmt q e w x w' H. unfold save, run_fs, Image_save, write in H.
  destruct (stat (fs w) p) as [[c|]|]; destruct (stat (fs w) (parent p)) as [[c'|]|];
    try (injection H as <- _; eauto);
    destruct (writable fmt (mode img)); try discriminate H; injection H as <- _; eauto.
Qed.

(** X21.  When [_process_single_image] raises a [WatermarkError] (the three
    folders being distinct), the preview and the ZIP-stage copy have been
    written and stay, the free-post copy has not been written, and the last
    log entry is the ERROR that names the image and gives the message; the
    exception is raised again as it is. *)
Theorem process_single_image_watermark_failure :
  forall keeps_exif config image_file index pack_metadata preview free_post temp_zip
    w msg w',
    _process_single_image keeps_exif config image_file index pack_metadata
      preview free_post temp_zip w = (Raise (WatermarkError msg), w') ->
    preview <> temp_zip -> free_post <> preview -> free_post <> temp_zip ->
    let base := "image_" ++ str_int index in
    exists_ (fs w') (div preview (base ++ ".webp")) = true
    /\ (exists extension, exists_ (fs w') (div temp_zip (base ++ extension)) = true)
    /\ stat (fs w') (div free_post (base ++ ".jpeg"))
       = stat (fs w) (div free_post (base ++ ".jpeg"))
    /\ last (logged w') (INFO, "")
       = (ERROR, "Erro ao processar " ++ name image_file ++ ": " ++ msg).
Proof.
  intros keeps config image_file index pm preview free_post temp_zip w msg w' H
    Hpz Hfp Hfz base.
  unfold _process_single_image in H. unfold try_except in H.
  match type of H with
  | context [match ?m w with _ => _ end] => destruct (m w) as [[u|e0] w0] eqn:E
  end; [discriminate H|].
  unfold bind, log, raise in H. injection H as -> <-. cbn [fs logged].
  rewrite last_last. cbn [str_exn].
  assert (Hgoal : exists_ (fs w0) (div preview (base ++ ".webp")) = true
                  /\ (exists extension,
                        exists_ (fs w0) (div temp_zip (base ++ extension)) = true)
                  /\ stat (fs w0) (div free_post (base ++ ".jpeg"))
                     = stat (fs w) (div free_post (base ++ ".jpeg"))).
  2:{ destruct Hgoal as (H1 & H2 & H3). now repeat split. }
  apply bind_Raise in E. destruct E as [E|(img0 & w1 & Hopen & E)].
  { unfold on_fs in E. injection E as E _. apply Image_open_raises in E.
    destruct E as [[m E]|[m E]]; discriminate E. }
  apply on_fs_Ok in Hopen. destruct Hopen as [Hopen ->].
  cbv zeta in E.
  apply bind_Raise in E. destruct E as [E|(md & w1 & Hmd & E)].
  { unfold lift in E. injection E as E _. destruct pm; discriminate E. }
  apply lift_Ok in Hmd. destruct Hmd as [Hmd ->].
  apply bind_Raise in E. destruct E as [E|([] & w1 & Hprev & E)].
  { apply save_raises in E. destruct E as [m E]. discriminate E. }
  apply save_Ok in Hprev.
  apply bind_Raise in E. destruct E as [E|([] & w2 & Hzip & E)].
  { exfalso.
    destruct (mem (lower (suffix image_file)) [".jpg"; ".jpeg"]).
    - apply save_raises in E. destruct E as [m E]. discriminate E.
    - destruct (lower (suffix image_file) =? ".webp").
      + apply save_raises in E. destruct E as [m E]. discriminate E.
      + apply bind_Raise in E. destruct E as [E|(orig & w1' & Horig & E)].
        * unfold on_fs in E. injection E as E _. apply Image_open_raises in E.
          destruct E as [[m E]|[m E]]; discriminate E.
        * apply save_raises in E. destruct E as [m E]. discriminate E. }
  assert (Hzfs : exists ext n, fs w2 = set_entry (fs w1) (div temp_zip (base ++ ext)) n).
  { destruct (mem (lower (suffix image_file)) [".jpg"; ".jpeg"]).
    - apply save_Ok in Hzip. rewrite Hzip. cbn [fs with_fs]. now eexists _, _.
    - destruct (lower (suffix image_file) =? ".webp").
      + apply save_Ok in Hzip. rewrite Hzip. cbn [fs with_fs]. now eexists _, _.
      + apply bind_Ok in Hzip. destruct Hzip as (orig & w1' & Horig & Hzip).
        apply on_fs_Ok in Horig. destruct Horig as [_ ->].
        apply save_Ok in Hzip. rewrite Hzip. cbn [fs with_fs]. now eexists _, _. }
  destruct Hzfs as (ext & n & Hzfs).
  assert (Hw0 : fs w0 = fs w2).
  { apply bind_Raise in E. destruct E as [E|(wmk & w3 & Hwm & E)].
    - unfold on_fs in E. now injection E as _ <-.
    - exfalso. apply on_fs_Ok in Hwm. destruct Hwm as [_ ->].
      apply bind_Raise in E. destruct E as [E|([] & w3 & _ & E)].
      + apply save_raises in E. destruct E as [m E]. discriminate E.
      + unfold log in E. discriminate E. }
  rewrite Hw0, Hzfs, Hprev. cbn [fs with_fs]. fold base.
  split.
  - unfold exists_. rewrite stat_set_entry_other
      by (intros X; apply div_inj in X; destruct X as [X _]; now apply Hpz).
    now rewrite stat_set_entry_same by apply div_not_root.
  - split.
    + exists ext. unfold exists_. now rewrite stat_set_entry_same by apply div_not_root.
    + rewrite stat_set_entry_other
        by (intros X; apply div_inj in X; destruct X as [X _]; now apply Hfz).
      rewrite stat_set_entry_other
        by (intros X; apply div_inj in X; destruct X as [X _]; now apply Hfp).
      reflexivity.
Qed.

Lemma process_single_image_watermark_failure_witness :
  exists w',
    _process_single_image false sample_config_without_watermark ["pack"; "a.png"] 1
      (PyDict sample_pack_metadata)
      ["pack"; "preview_Images"] ["pack"; "free_post"] ["pack"; "temp_for_zip"]
      (start sample_studio)
    = (Raise (WatermarkError "Watermark file not found: /assets/missing.png"), w')
    /\ exists_ (fs w') ["pack"; "preview_Images"; "image_1.webp"] = true
    /\ exists_ (fs w') ["pack"; "temp_for_zip"; "image_1.png"] = true
    /\ stat (fs w') ["pack"; "free_post"; "image_1.jpeg"] = None.
Proof.
  assert (Hrun :
    _process_single_image false sample_config_without_watermark ["pack"; "a.png"] 1
      (PyDict sample_pack_metadata)
      ["pack"; "preview_Images"] ["pack"; "free_post"] ["pack"; "temp_for_zip"]
      (start sample_studio)
    = (Raise (WatermarkError "Watermark file not found: /assets/missing.png"),
       snd (_process_single_image false sample_config_without_watermark ["pack"; "a.png"] 1
              (PyDict sample_pack_metadata)
              ["pack"; "preview_Images"] ["pack"; "free_post"] ["pack"; "temp_for_zip"]
              (start sample_studio))))
    by (vm_compute; reflexivity).
  eexists. split; [exact Hrun|].
  destruct (process_single_image_watermark_failure _ _ _ _ _ _ _ _ _ _ _ Hrun)
    as (H1 & _ & H3 & _); try discriminate.
  split; [exact H1|]. split; [vm_compute; reflexivity|].
  transitivity (stat (fs (start sample_studio)) (div ["pack"; "free_post"]
                                                   (("image_" ++ str_int 1) ++ ".jpeg")));
    [exact H3|reflexivity].
Defined.

Lemma validate_setup_Ok : forall self w,
  exists valid wv, validate_setup self w = (Ok valid, wv).
Proof.
  intros self w. unfold validate_setup, bind, get_fs, log, ret.
  repeat match goal with
         | |- context [if ?c then _ else _] => destruct c
         | |- context [match ?x with _ => _ end] => destruct x
         end; now eexists _, _.
Qed.

(** X22.  For a pack without [original_images], with no image file in it, or
    with a setup that is not valid, the worker's [_auto_mosaic] raises a
    [RuntimeError] before anything is written: the file system, the runs,
    the progress and the statuses are as they were. *)
Theorem auto_mosaic_refuses : forall keeps_exif mosaic base_dir config w,
  let original_images := div config.(input_folder) "original_images" in
  exists_ (fs w) original_images = false
  \/ image_files_of (fs w) original_images = []
  \/ fst (validate_setup (new_processor base_dir config.(config_timeout_seconds)) w)
     = Ok false ->
  exists message w',
    _auto_mosaic keeps_exif mosaic base_dir config w = (inr (RuntimeError message), w')
    /\ fs w' = fs w /\ runs w' = runs w
    /\ progressed w' = progressed w /\ statuses w' = statuses w.
Proof.
  intros keeps mosaic base config w original H.
  unfold _auto_mosaic. fold original. unfold and_then at 1. unfold of_core at 1.
  unfold get_fs.
  destruct (exists_ (fs w) original) eqn:Eo; cbn [negb].
  2:{ unfold raise_RuntimeError. eexists _, _. split; [reflexivity|]. now repeat split. }
  destruct (image_files_of (fs w) original) as [|f0 rest] eqn:Ef.
  { unfold raise_RuntimeError. eexists _, _. split; [reflexivity|]. now repeat split. }
  destruct H as [H|[H|H]]; [discriminate H|discriminate H|].
  destruct (validate_setup_Ok (new_processor base (config_timeout_seconds config)) w)
    as (valid & wv & Hv).
  rewrite Hv in H. cbn [fst] in H. injection H as ->.
  destruct (validate_setup_frame _ _ _ _ Hv) as (H1 & H2 & H3 & H4).
  unfold and_then at 1. unfold of_core at 1. rewrite Hv. cbn [negb].
  unfold raise_RuntimeError. eexists _, _. split; [reflexivity|]. now repeat split.
Qed.

Lemma auto_mosaic_refuses_witness :
  exists w',
    _auto_mosaic true service_up ["app"] sample_config (start sample_studio)
    = (inr (RuntimeError "Pasta 'original_images' não encontrada em: /pack"), w')
    /\ fs w' = sample_studio /\ runs w' = [].
Proof.
  destruct (auto_mosaic_refuses true service_up ["app"] sample_config (start sample_studio))
    as (message & w' & Hrun & Hfs & Hruns & _); [left; reflexivity|].
  exists w'.
  assert (Hm : message = "Pasta 'original_images' não encontrada em: /pack").
  { assert (E : fst (_auto_mosaic true service_up ["app"] sample_config
                        (start sample_studio))
                = inr (RuntimeError message)) by (now rewrite Hrun).
    vm_compute in E. now injection E as <-. }
  subst message. split; [exact Hrun|]. split; [exact Hfs|exact Hruns].
Defined.
